(** * Simulation, gas estimation, tracing and system-contract dispatch

    A shallow embedding of the query handlers of the EVM keeper
    ([EthCall], [EstimateGas], [TraceTx], [TraceBlock], [traceTx]), of the
    JSON-RPC backend's base-fee resolution ([BackendImpl.BaseFee],
    [BaseFeeFromEvents]) and of the aspect system contract's dispatcher
    ([AspectNativeContract.applyMsg]).

    Go functions become functions in a small state monad [Go] whose state
    [World] holds the store behind the SDK context, the aspect contexts
    that are alive and a journal of the calls made to collaborators.  A Go
    panic is the [Panicked] outcome; [defer] and [recover] are combinators.
    The [(value, error)] results of the handlers are kept as pairs of
    options; collaborators return a sum, with the error on the left. *)

From Stdlib Require Import ZArith String Ascii List Lia DecimalString.
From stdpp Require Import base option list strings gmap.

Local Open Scope string_scope.
Local Open Scope list_scope.
Local Open Scope Z_scope.

(** ** Machine integers *)

Definition uint64_modulus : Z := 2 ^ 64.
Definition max_int64 : Z := 2 ^ 63 - 1.
Definition min_int64 : Z := - 2 ^ 63.

(** Go's [uint] addition (64 bits on the supported platforms). *)
Definition uint_add (a b : Z) : Z := (a + b) mod uint64_modulus.

(** [uint(len(s))] *)
Definition len {A : Type} (s : list A) : Z := Z.of_nat (length s).

(** [fmt]'s [%d] verb. *)
Definition fmt_d (z : Z) : string := NilZero.string_of_int (Z.to_int z).

Definition bytes : Type := list Byte.byte.
Definition Address : Type := Z.
Definition Hash : Type := Z.

(** ** Errors *)

Inductive codes : Type := InvalidArgument | Internal.

Definition codes_String (c : codes) : string :=
  match c with
  | InvalidArgument => "InvalidArgument"
  | Internal => "Internal"
  end.

(** Go error values.  The sentinel [core.ErrIntrinsicGas] is a
    constructor of its own, since [errors.Is] compares identities and
    not messages. *)
Inductive error : Type :=
| errors_New (msg : string)
| ErrIntrinsicGas
| errors_Wrap (e : error) (msg : string)
| status_Error (c : codes) (msg : string)
| NewExecErrorWithReason (ret : bytes).

(** [err.Error()].  The revert error's message is followed in the
    program by the ABI-decoded reason, which is not modelled. *)
Fixpoint error_Error (e : error) : string :=
  match e with
  | errors_New msg => msg
  | ErrIntrinsicGas => "intrinsic gas too low"
  | errors_Wrap e msg => (msg ++ ": " ++ error_Error e)%string
  | status_Error c msg =>
      ("rpc error: code = " ++ codes_String c ++ " desc = " ++ msg)%string
  | NewExecErrorWithReason _ => "execution reverted"
  end.

(** [errors.Is(err, core.ErrIntrinsicGas)] *)
Fixpoint is_ErrIntrinsicGas (e : error) : bool :=
  match e with
  | ErrIntrinsicGas => true
  | errors_Wrap e _ => is_ErrIntrinsicGas e
  | _ => false
  end.

(** [vm.ErrOutOfGas.Error()] and [vm.ErrExecutionReverted.Error()] *)
Definition ErrOutOfGas_Error : string := "out of gas".
Definition ErrExecutionReverted_Error : string := "execution reverted".

(** [ethparams.TxGas] *)
Definition TxGas : Z := 21000.

(** ** Data of the keeper *)

Record Log : Type := mkLog {
  log_Address : Address;
  log_Data : bytes;
  log_Index : Z
}.

Record MsgEthereumTxResponse : Type := mkResponse {
  GasUsed : Z;
  Logs : list Log;
  Ret : bytes;
  VmError : string
}.

Record Message : Type := mkMessage {
  From : Address;
  Nonce : Z;
  GasLimit : Z;
  GasPrice : option Z;
  GasTipCap : option Z;
  GasFeeCap : option Z;
  Data : bytes
}.

Definition with_GasLimit (msg : Message) (gas : Z) : Message :=
  {| From := From msg; Nonce := Nonce msg; GasLimit := gas;
     GasPrice := GasPrice msg; GasTipCap := GasTipCap msg;
     GasFeeCap := GasFeeCap msg; Data := Data msg |}.

Record TransactionArgs : Type := mkArgs {
  args_From : Address;
  args_Gas : option Z;
  args_Nonce : option Z;
  args_Input : bytes;
  args_ValidationData : bytes
}.

Definition with_Nonce (args : TransactionArgs) (nonce : Z) : TransactionArgs :=
  {| args_From := args_From args; args_Gas := args_Gas args;
     args_Nonce := Some nonce; args_Input := args_Input args;
     args_ValidationData := args_ValidationData args |}.

Record EVMConfig : Type := mkEVMConfig {
  cfg_ChainID : Z;
  cfg_BaseFee : option Z;
  cfg_CoinBase : Address
}.

Record TxConfig : Type := mkTxConfig {
  BlockHash : Hash;
  TxHash : Hash;
  TxIndex : Z;
  LogIndex : Z
}.

Definition NewEmptyTxConfig (bhash : Hash) : TxConfig :=
  {| BlockHash := bhash; TxHash := 0; TxIndex := 0; LogIndex := 0 |}.

(** The fields of [cosmos.Context] the handlers read. *)
Record Context : Type := mkContext {
  ctx_ChainID : string;
  ctx_BlockHeight : Z;
  ctx_BlockTime : Z;
  ctx_HeaderHash : Hash;
  (** [ConsensusParams().Block.MaxGas]; [None] when [Block] is nil *)
  ctx_MaxGas : option Z
}.

Record EthCallRequest : Type := mkEthCallRequest {
  req_Args : bytes;
  req_GasCap : Z;
  req_ProposerAddress : bytes;
  req_ChainId : Z
}.

Record EstimateGasResponse : Type := mkEstimateGasResponse { Gas : Z }.

Record TraceConfig : Type := mkTraceConfig {
  tc_Tracer : string;
  tc_Timeout : string;
  tc_Limit : Z;
  tc_TracerJsonConfig : string
}.

Record TracerContext : Type := mkTracerContext {
  tctx_BlockHash : Hash;
  tctx_TxIndex : Z;
  tctx_TxHash : Hash
}.

Inductive Tracer : Type :=
| NewNoOpTracer
| NewStructLogger (limit : Z)
| DirectoryTracer (name : string) (tctx : TracerContext) (cfg : option bytes).

Definition PanicValue : Type := string.

(** What one call of the message executor does. *)
Inductive ApplyOutcome : Type :=
| ApplyOk (rsp : MsgEthereumTxResponse)
| ApplyErr (e : error)
| ApplyPanic (p : PanicValue).

Record TxTraceResult (TraceValue : Type) : Type := mkTxTraceResult {
  Result : option TraceValue;
  Error : string
}.
Arguments mkTxTraceResult {TraceValue} _ _.
Arguments Result {TraceValue} _.
Arguments Error {TraceValue} _.

(** ** The world a handler runs in, and Go control flow *)

Section GoModel.

(** The store behind the SDK context and the transaction type for which
    aspect contexts are created are left abstract. *)
Context {Store Transaction : Type}.

(** Calls made to the collaborators, in the order they happen. *)
Inductive Event : Type :=
| EvCreate (id : nat) (tx : Transaction)
| EvDestroy (id : nat)
| EvApply (msg : Message) (commit : bool) (txc : TxConfig) (out : ApplyOutcome)
| EvCommit
| EvLogError (msg : string) (p : PanicValue).

Record World : Type := mkWorld {
  store : Store;
  nextAspect : nat;
  liveAspects : list nat;
  journal : list Event
}.

Definition set_store (s : Store) (w : World) : World :=
  {| store := s; nextAspect := nextAspect w;
     liveAspects := liveAspects w; journal := journal w |}.

Definition record (e : Event) (w : World) : World :=
  {| store := store w; nextAspect := nextAspect w;
     liveAspects := liveAspects w; journal := journal w ++ [e] |}.

Inductive Outcome (A : Type) : Type :=
| Returned (a : A)
| Panicked (p : PanicValue).
Arguments Returned {A} _.
Arguments Panicked {A} _.

Definition Go (A : Type) : Type := World -> Outcome A * World.

Definition ret {A : Type} (a : A) : Go A := fun w => (Returned a, w).

Definition bind {A B : Type} (m : Go A) (f : A -> Go B) : Go B :=
  fun w =>
    match m w with
    | (Returned a, w') => f a w'
    | (Panicked p, w') => (Panicked p, w')
    end.

(** [defer d()] in front of [body]: [d] runs when [body] returns and
    when it panics; the panic goes on. *)
Definition defer {A : Type} (d : World -> World) (body : Go A) : Go A :=
  fun w => let '(o, w') := body w in (o, d w').

(** [defer func() { if r := recover(); r != nil { h(r) } }()] in a
    function without named results: after a panic the function returns
    the zero values of its result types. *)
Definition defer_recover {A : Type} (h : PanicValue -> World -> World)
    (zero : A) (body : Go A) : Go A :=
  fun w =>
    match body w with
    | (Returned a, w') => (Returned a, w')
    | (Panicked p, w') => (Returned zero, h p w')
    end.

(** [k.WithAspectContext]: a new aspect context, alive until destroyed. *)
Definition WithAspectContext (tx : Transaction) : Go nat :=
  fun w =>
    let id := nextAspect w in
    (Returned id,
     {| store := store w; nextAspect := S id;
        liveAspects := id :: liveAspects w;
        journal := journal w ++ [EvCreate id tx] |}).

(** [aspectCtx.Destroy()] *)
Definition Destroy (id : nat) (w : World) : World :=
  {| store := store w; nextAspect := nextAspect w;
     liveAspects := filter (fun j => j ≠ id) (liveAspects w);
     journal := journal w ++ [EvDestroy id] |}.

End GoModel.

Arguments Event : clear implicits.
Arguments World : clear implicits.
Arguments Go : clear implicits.
Arguments Returned {A} _.
Arguments Panicked {A} _.

Notation "'let*' x ':=' m 'in' k" := (bind m (fun x => k))
  (at level 10, x pattern, m at level 100, k at level 200).

(** ** The keeper *)

Section Keeper.

Context {Store MsgEthereumTx Transaction TraceValue : Type}.

Abbreviation World := (World Store Transaction).
Abbreviation Go := (Go Store Transaction).

Record Signer : Type := mkSigner {
  signer_ChainID : Z;
  signer_Height : Z;
  signer_Time : Z
}.

(** [ethereum.MakeSigner(cfg.ChainConfig, height, time)] *)
Definition MakeSigner (cfg : EVMConfig) (c : Context) : Signer :=
  {| signer_ChainID := cfg_ChainID cfg;
     signer_Height := ctx_BlockHeight c;
     signer_Time := ctx_BlockTime c |}.

(** The collaborators of the handlers: the message executor
    [ApplyMessageWithConfig], configuration and account lookups,
    decoders and encoders.  A handler only sees their results. *)
Record Keeper : Type := mkKeeper {
  ParseChainID : string -> error + Z;
  GetProposerAddress : Context -> bytes -> Address;
  (** [k.EVMConfig] *)
  LoadEVMConfig : Context -> Address -> Z -> error + EVMConfig;
  GetNonce : Store -> Address -> Z;
  json_Unmarshal : bytes -> error + TransactionArgs;
  args_ToMessage : TransactionArgs -> Z -> option Z -> error + Message;
  args_ToTransaction : TransactionArgs -> MsgEthereumTx;
  AsTransaction : MsgEthereumTx -> Transaction;
  AsEthCallTransaction : MsgEthereumTx -> Transaction;
  tx_Hash : Transaction -> Hash;
  ToMessage : Transaction -> Signer -> option Z -> error + Message;
  isCustomizedVerification : Transaction -> bool;
  (** the body of [ApplyMessageWithConfig] *)
  executor :
    Store -> Message -> option Tracer -> bool -> EVMConfig -> TxConfig ->
    bool -> ApplyOutcome * Store;
  DirectoryNew : string -> TracerContext -> option bytes -> option error;
  ParseDuration : string -> error + Z;
  GetResult : Tracer -> Store -> error + TraceValue;
  Hex2Hash : string -> Hash;
  json_RawMessage : string -> option bytes;
  json_Marshal : option TraceValue -> error + bytes;
  json_Marshal_results : list (TxTraceResult TraceValue) -> error + bytes
}.

Variable k : Keeper.

(** [getChainID]: the chain id of the context unless one is given. *)
Definition getChainID (c : Context) (chainID : Z) : error + Z :=
  if chainID =? 0 then ParseChainID k (ctx_ChainID c) else inr chainID.

(** [k.ApplyMessageWithConfig] on the store of the current context. *)
Definition ApplyMessageWithConfig (msg : Message) (tracer : option Tracer)
    (commit : bool) (cfg : EVMConfig) (txConfig : TxConfig)
    (isCustomVerification : bool) : Go (error + MsgEthereumTxResponse) :=
  fun w =>
    let '(out, s') :=
      executor k (store w) msg tracer commit cfg txConfig isCustomVerification in
    let w' := record (EvApply msg commit txConfig out) (set_store s' w) in
    match out with
    | ApplyOk rsp => (Returned (inr rsp), w')
    | ApplyErr e => (Returned (inl e), w')
    | ApplyPanic p => (Panicked p, w')
    end.

(** *** Gas estimation *)

Definition ProbeResult : Type :=
  (bool * option MsgEthereumTxResponse * option error)%type.

(** The closure [executable] of [EstimateGas].  It runs on a cache of
    the context that is never written back. *)
Definition executable (cfg : EVMConfig) (txConfig : TxConfig)
    (txMsg : MsgEthereumTx) (msg : Message) (isCustomVerification : bool)
    (gas : Z) : Go ProbeResult :=
  fun w =>
    let parent := store w in
    let '(o, w') :=
      (let* aspectCtx := WithAspectContext (AsTransaction k txMsg) in
       defer (Destroy aspectCtx)
         (let* r := ApplyMessageWithConfig (with_GasLimit msg gas) None false
                      cfg txConfig isCustomVerification in
          match r with
          | inl err =>
              if is_ErrIntrinsicGas err then ret (true, None, None)
              else ret (true, None, Some err)
          | inr rsp =>
              ret (0 <? Z.of_nat (String.length (VmError rsp)), Some rsp, None)
          end)) w in
    (o, set_store parent w').

(** The executor's outcome for a probe with [gas] on the store [s],
    and what the probe leaves in the journal. *)
Definition probe (cfg : EVMConfig) (txConfig : TxConfig) (msg : Message)
    (isCustomVerification : bool) (s : Store) (gas : Z) : ApplyOutcome :=
  fst (executor k s (with_GasLimit msg gas) None false cfg txConfig
         isCustomVerification).

Definition probe_events (cfg : EVMConfig) (txConfig : TxConfig)
    (txMsg : MsgEthereumTx) (msg : Message) (isCustomVerification : bool)
    (w : World) (gas : Z) : list (Event Transaction) :=
  [ EvCreate (nextAspect w) (AsTransaction k txMsg);
    EvApply (with_GasLimit msg gas) false txConfig
      (probe cfg txConfig msg isCustomVerification (store w) gas);
    EvDestroy (nextAspect w) ].

(** Modelled from the spec: [types.BinSearch] (package x/evm/types) is
    called by [EstimateGas] and is not among the sources.  The spec's
    section 4.4 gives it: a binary search over the bounds [low]
    (exclusive) and [high] (inclusive) that probes the midpoint while
    [low + 1 < high]; an execution error aborts the search with that
    error, a failed probe moves the interval upward ([low] becomes the
    probe), a successful one moves it downward ([high] becomes the
    probe); the search converges to [high].  Every round shrinks
    [high - low], which bounds the number of rounds. *)
Fixpoint BinSearch_rounds (rounds : nat) (lo hi : Z)
    (executable : Z -> Go ProbeResult) : Go (Z * option error) :=
  match rounds with
  | O => ret (hi, None)
  | S rounds' =>
      if lo + 1 <? hi then
        let mid := (hi + lo) / 2 in
        let* (failed, _, err) := executable mid in
        match err with
        | Some e => ret (0, Some e)
        | None =>
            if failed : bool
            then BinSearch_rounds rounds' mid hi executable
            else BinSearch_rounds rounds' lo mid executable
        end
      else ret (hi, None)
  end.

Definition BinSearch (lo hi : Z) (executable : Z -> Go ProbeResult)
    : Go (Z * option error) :=
  BinSearch_rounds (Z.to_nat (hi - lo)) lo hi executable.

(** The highest gas limit [EstimateGas] searches below, before the cap
    of the request is applied. *)
Definition highest_allowance (c : Context) (args : TransactionArgs)
    (req : EthCallRequest) : Z :=
  match args_Gas args with
  | Some gas =>
      if TxGas <=? gas then gas
      else
        match ctx_MaxGas c with
        | Some maxGas => if 0 <? maxGas then maxGas else req_GasCap req
        | None => req_GasCap req
        end
  | None =>
      match ctx_MaxGas c with
      | Some maxGas => if 0 <? maxGas then maxGas else req_GasCap req
      | None => req_GasCap req
      end
  end.

(** [hi] after "Recap the highest gas allowance with specified gascap";
    the program keeps it as [gasCap]. *)
Definition effective_cap (c : Context) (args : TransactionArgs)
    (req : EthCallRequest) : Z :=
  let hi := highest_allowance c args req in
  if negb (req_GasCap req =? 0) && (req_GasCap req <? hi)
  then req_GasCap req else hi.

Definition exceeds_allowance (gasCap : Z) : error :=
  errors_New ("gas required exceeds allowance (" ++ fmt_d gasCap ++ ")")%string.

Definition GasResult : Type :=
  (option EstimateGasResponse * option error)%type.

(** "Reject the txs as invalid if it still fails at the highest
    allowance": the end of [EstimateGas], after the search gave [hi]. *)
Definition reject_at_cap (gasCap hi : Z) (executable : Z -> Go ProbeResult)
    : Go GasResult :=
  if hi =? gasCap then
    let* (failed, result, err) := executable hi in
    match err with
    | Some e => ret (None, Some e)
    | None =>
        if failed : bool then
          match result with
          | Some result =>
              if negb (String.eqb (VmError result) ErrOutOfGas_Error) then
                if String.eqb (VmError result) ErrExecutionReverted_Error
                then ret (None, Some (NewExecErrorWithReason (Ret result)))
                else ret (None, Some (errors_New (VmError result)))
              else ret (None, Some (exceeds_allowance gasCap))
          | None => ret (None, Some (exceeds_allowance gasCap))
          end
        else ret (Some {| Gas := hi |}, None)
    end
  else ret (Some {| Gas := hi |}, None).

Definition EstimateGas (c : Context) (req : option EthCallRequest)
    : Go GasResult :=
  match req with
  | None => ret (None, Some (status_Error InvalidArgument "empty request"))
  | Some req =>
    match getChainID c (req_ChainId req) with
    | inl err => ret (None, Some (status_Error InvalidArgument (error_Error err)))
    | inr chainID =>
      if req_GasCap req <? TxGas then
        ret (None, Some (status_Error InvalidArgument
                           "gas cap cannot be lower than 21,000"))
      else
      match json_Unmarshal k (req_Args req) with
      | inl err => ret (None, Some (status_Error InvalidArgument (error_Error err)))
      | inr args =>
        let lo := TxGas - 1 in
        let hi := effective_cap c args req in
        let txMsg := args_ToTransaction k args in
        let gasCap := hi in
        match LoadEVMConfig k c (GetProposerAddress k c (req_ProposerAddress req))
                chainID with
        | inl _ => ret (None, Some (status_Error Internal "failed to load evm config"))
        | inr cfg =>
          fun w =>
          let nonce := GetNonce k (store w) (args_From args) in
          let args := with_Nonce args nonce in
          let txConfig := NewEmptyTxConfig (ctx_HeaderHash c) in
          match args_ToMessage k args (req_GasCap req) (cfg_BaseFee cfg) with
          | inl err => ret (None, Some (status_Error Internal (error_Error err))) w
          | inr msg =>
            let isCustomVerification := 0 <? len (args_ValidationData args) in
            let executable := executable cfg txConfig txMsg msg isCustomVerification in
            (let* (hi, err) := BinSearch lo hi executable in
             match err with
             | Some e => ret (None, Some e)
             | None => reject_at_cap gasCap hi executable
             end) w
          end
        end
      end
    end
  end.

(** *** Simulated calls *)

Definition CallResult : Type :=
  (option MsgEthereumTxResponse * option error)%type.

Definition destroy (aspectCtx : nat) : Go unit :=
  fun w => (Returned tt, Destroy aspectCtx w).

(** [EthCall] has no named results: when its deferred function
    recovers a panic, the panic is logged and the call returns
    [(nil, nil)]. *)
Definition EthCall (c : Context) (req : option EthCallRequest)
    : Go CallResult :=
  defer_recover (fun r => record (EvLogError "EthCall panic" r)) (None, None)
  match req with
  | None => ret (None, Some (status_Error InvalidArgument "empty request"))
  | Some req =>
    match json_Unmarshal k (req_Args req) with
    | inl err => ret (None, Some (status_Error InvalidArgument (error_Error err)))
    | inr args =>
      match getChainID c (req_ChainId req) with
      | inl err => ret (None, Some (status_Error InvalidArgument (error_Error err)))
      | inr chainID =>
        match LoadEVMConfig k c (GetProposerAddress k c (req_ProposerAddress req))
                chainID with
        | inl err => ret (None, Some (status_Error Internal (error_Error err)))
        | inr cfg =>
          fun w =>
          let nonce := GetNonce k (store w) (args_From args) in
          let args := with_Nonce args nonce in
          match args_ToMessage k args (req_GasCap req) (cfg_BaseFee cfg) with
          | inl err =>
              ret (None, Some (status_Error InvalidArgument (error_Error err))) w
          | inr msg =>
            let txConfig := NewEmptyTxConfig (ctx_HeaderHash c) in
            (let* aspectCtx :=
               WithAspectContext (AsEthCallTransaction k (args_ToTransaction k args)) in
             defer (Destroy aspectCtx)
               (let isCustomVerification := 0 <? len (args_ValidationData args) in
                let* r := ApplyMessageWithConfig msg None false cfg txConfig
                            isCustomVerification in
                match r with
                | inl err => ret (None, Some (status_Error Internal (error_Error err)))
                | inr res => ret (Some res, None)
                end)) w
          end
        end
      end
    end
  end.

(** *** Tracing *)

Definition with_Tx (txConfig : TxConfig) (txHash : Hash) (txIndex : Z) : TxConfig :=
  {| BlockHash := BlockHash txConfig; TxHash := txHash;
     TxIndex := txIndex; LogIndex := LogIndex txConfig |}.

Definition with_LogIndex (txConfig : TxConfig) (logIndex : Z) : TxConfig :=
  {| BlockHash := BlockHash txConfig; TxHash := TxHash txConfig;
     TxIndex := TxIndex txConfig; LogIndex := logIndex |}.

(** [defaultTraceTimeout], in nanoseconds *)
Definition defaultTraceTimeout : Z := 5 * 1000000000.

Definition default_TraceConfig : TraceConfig :=
  {| tc_Tracer := EmptyString; tc_Timeout := EmptyString; tc_Limit := 0; tc_TracerJsonConfig := EmptyString |}.

Definition TraceOut : Type := (option TraceValue * Z * option error)%type.

(** [traceTx] returns [(traceResult, nextLogIndex, error)].  It runs on
    a cache of the context; the deferred function writes the cache back
    when [commitMessage] is set, and destroys the aspect context.  The
    goroutine that stops the tracer at the deadline acts on the
    executor only and is not part of the model. *)
Definition traceTx (c : Context) (cfg : EVMConfig) (txConfig : TxConfig)
    (signer : Signer) (tx : Transaction) (traceConfig : option TraceConfig)
    (commitMessage : bool) (tracerJSONConfig : option bytes) : Go TraceOut :=
  fun w =>
  let parent := store w in
  (let* aspectCtx := WithAspectContext tx in
   defer (fun w' =>
            Destroy aspectCtx
              (if commitMessage then record EvCommit w' else set_store parent w'))
     match ToMessage k tx signer (cfg_BaseFee cfg) with
     | inl err => ret (None, 0, Some (status_Error Internal (error_Error err)))
     | inr msg =>
       let traceConfig := default default_TraceConfig traceConfig in
       let tCtx := {| tctx_BlockHash := BlockHash txConfig;
                      tctx_TxIndex := TxIndex txConfig;
                      tctx_TxHash := TxHash txConfig |} in
       match
         (if String.eqb (tc_Tracer traceConfig) EmptyString then
            inr (NewStructLogger (tc_Limit traceConfig))
          else
            match DirectoryNew k (tc_Tracer traceConfig) tCtx tracerJSONConfig with
            | Some err => inl err
            | None => inr (DirectoryTracer (tc_Tracer traceConfig) tCtx tracerJSONConfig)
            end)
       with
       | inl err => ret (None, 0, Some (status_Error Internal (error_Error err)))
       | inr tracer =>
         match
           (if String.eqb (tc_Timeout traceConfig) EmptyString then inr defaultTraceTimeout
            else ParseDuration k (tc_Timeout traceConfig))
         with
         | inl err =>
             ret (None, 0,
                  Some (status_Error InvalidArgument
                          ("timeout value: " ++ error_Error err)%string))
         | inr _ =>
           let isCustomVerification := isCustomizedVerification k tx in
           let* r := ApplyMessageWithConfig msg (Some tracer) commitMessage cfg
                       txConfig isCustomVerification in
           match r with
           | inl err => ret (None, 0, Some (status_Error Internal (error_Error err)))
           | inr res =>
             fun w2 =>
             match GetResult k tracer (store w2) with
             | inl err =>
                 ret (None, 0, Some (status_Error Internal (error_Error err))) w2
             | inr result =>
                 ret (Some result,
                      uint_add (LogIndex txConfig) (len (Logs res)), None) w2
             end
           end
         end
       end
     end) w.

Record QueryTraceTxRequest : Type := mkQueryTraceTxRequest {
  tr_Msg : MsgEthereumTx;
  tr_TraceConfig : option TraceConfig;
  tr_Predecessors : list MsgEthereumTx;
  tr_BlockNumber : Z;
  tr_BlockHash : string;
  tr_BlockTime : Z;
  tr_ProposerAddress : bytes;
  tr_ChainId : Z
}.

Record QueryTraceBlockRequest : Type := mkQueryTraceBlockRequest {
  tb_Txs : list MsgEthereumTx;
  tb_TraceConfig : option TraceConfig;
  tb_BlockNumber : Z;
  tb_BlockHash : string;
  tb_BlockTime : Z;
  tb_ProposerAddress : bytes;
  tb_ChainId : Z
}.

(** [int64] subtraction of one, as in [req.BlockNumber - 1]. *)
Definition int64_pred (z : Z) : Z :=
  (z - 1 - min_int64) mod uint64_modulus + min_int64.

(** "minus one to get the context of block beginning" *)
Definition contextHeight (blockNumber : Z) : Z :=
  let h := int64_pred blockNumber in
  if h <? 1 then 1 else h.

(** The context the trace handlers work in. *)
Definition trace_context (c : Context) (blockNumber blockTime : Z)
    (blockHash : string) : Context :=
  {| ctx_ChainID := ctx_ChainID c;
     ctx_BlockHeight := contextHeight blockNumber;
     ctx_BlockTime := blockTime;
     ctx_HeaderHash := Hex2Hash k blockHash;
     ctx_MaxGas := ctx_MaxGas c |}.

Definition negative_limit (traceConfig : option TraceConfig) : option error :=
  match traceConfig with
  | Some tc =>
      if tc_Limit tc <? 0 then
        Some (status_Error InvalidArgument
                ("output limit cannot be negative, got " ++ fmt_d (tc_Limit tc))%string)
      else None
  | None => None
  end.

(** One round of the loop over [req.Predecessors] in [TraceTx]: the
    aspect context is destroyed by hand before every [continue] and at
    the end of the body; nothing is deferred. *)
Definition replay_predecessor (cfg : EVMConfig) (signer : Signer) (i : Z)
    (tx : MsgEthereumTx) (txConfig : TxConfig) : Go TxConfig :=
  let ethTx := AsTransaction k tx in
  let* aspectCtx := WithAspectContext ethTx in
  match ToMessage k ethTx signer (cfg_BaseFee cfg) with
  | inl _ =>
      let* _ := destroy aspectCtx in
      ret txConfig
  | inr msg =>
      let txConfig := with_Tx txConfig (tx_Hash k ethTx) i in
      let isCustomVerification := isCustomizedVerification k ethTx in
      let* r := ApplyMessageWithConfig msg (Some NewNoOpTracer) true cfg txConfig
                  isCustomVerification in
      match r with
      | inl _ =>
          let* _ := destroy aspectCtx in
          ret txConfig
      | inr rsp =>
          let* _ := destroy aspectCtx in
          ret (with_LogIndex txConfig (uint_add (LogIndex txConfig) (len (Logs rsp))))
      end
  end.

Fixpoint replay_predecessors (cfg : EVMConfig) (signer : Signer) (i : Z)
    (predecessors : list MsgEthereumTx) (txConfig : TxConfig) : Go TxConfig :=
  match predecessors with
  | [] => ret txConfig
  | tx :: rest =>
      let* txConfig := replay_predecessor cfg signer i tx txConfig in
      replay_predecessors cfg signer (i + 1) rest txConfig
  end.

(** [TraceTx] from the predecessor loop to the call of [traceTx]. *)
Definition trace_target (c : Context) (cfg : EVMConfig)
    (req : QueryTraceTxRequest) : Go TraceOut :=
  let signer := MakeSigner cfg c in
  let txConfig := NewEmptyTxConfig (ctx_HeaderHash c) in
  let* txConfig := replay_predecessors cfg signer 0 (tr_Predecessors req) txConfig in
  let tx := AsTransaction k (tr_Msg req) in
  let txConfig := with_Tx txConfig (tx_Hash k tx) (TxIndex txConfig) in
  let txConfig :=
    if 0 <? len (tr_Predecessors req)
    then with_Tx txConfig (TxHash txConfig) (uint_add (TxIndex txConfig) 1)
    else txConfig in
  let tracerConfig :=
    match tr_TraceConfig req with
    | Some tc =>
        if String.eqb (tc_TracerJsonConfig tc) EmptyString then None
        else json_RawMessage k (tc_TracerJsonConfig tc)
    | None => None
    end in
  traceTx c cfg txConfig signer tx (tr_TraceConfig req) false tracerConfig.

Definition DataResult : Type := (option bytes * option error)%type.

Definition TraceTx (c : Context) (req : option QueryTraceTxRequest)
    : Go DataResult :=
  match req with
  | None => ret (None, Some (status_Error InvalidArgument "empty request"))
  | Some req =>
    match negative_limit (tr_TraceConfig req) with
    | Some err => ret (None, Some err)
    | None =>
      let c := trace_context c (tr_BlockNumber req) (tr_BlockTime req)
                 (tr_BlockHash req) in
      match getChainID c (tr_ChainId req) with
      | inl err => ret (None, Some (status_Error InvalidArgument (error_Error err)))
      | inr chainID =>
        match LoadEVMConfig k c (GetProposerAddress k c (tr_ProposerAddress req))
                chainID with
        | inl err =>
            ret (None, Some (status_Error Internal
                   ("failed to load evm config: " ++ error_Error err)%string))
        | inr cfg =>
          let* (result, _, err) := trace_target c cfg req in
          match err with
          | Some err => ret (None, Some err)
          | None =>
              match json_Marshal k result with
              | inl err => ret (None, Some (status_Error Internal (error_Error err)))
              | inr resultData => ret (Some resultData, None)
              end
          end
        end
      end
    end
  end.

(** The loop over [req.Txs] in [TraceBlock]. *)
Fixpoint trace_block_txs (c : Context) (cfg : EVMConfig) (signer : Signer)
    (traceConfig : option TraceConfig) (i : Z) (txs : list MsgEthereumTx)
    (txConfig : TxConfig) (results : list (TxTraceResult TraceValue))
    : Go (list (TxTraceResult TraceValue)) :=
  match txs with
  | [] => ret results
  | tx :: rest =>
      let ethTx := AsTransaction k tx in
      let txConfig := with_Tx txConfig (tx_Hash k ethTx) i in
      let* (traceResult, logIndex, err) :=
        traceTx c cfg txConfig signer ethTx traceConfig true None in
      match err with
      | Some err =>
          trace_block_txs c cfg signer traceConfig (i + 1) rest txConfig
            (results ++ [ {| Result := None; Error := error_Error err |} ])
      | None =>
          trace_block_txs c cfg signer traceConfig (i + 1) rest
            (with_LogIndex txConfig logIndex)
            (results ++ [ {| Result := traceResult; Error := EmptyString |} ])
      end
  end.

(** [TraceBlock] up to the list [results], before it is serialized. *)
Definition trace_block (c : Context) (cfg : EVMConfig)
    (req : QueryTraceBlockRequest) : Go (list (TxTraceResult TraceValue)) :=
  let signer := MakeSigner cfg c in
  let txConfig := NewEmptyTxConfig (ctx_HeaderHash c) in
  trace_block_txs c cfg signer (tb_TraceConfig req) 0 (tb_Txs req) txConfig [].

(** The entry [r] of the results is what tracing [tx] gave in the run:
    [traceTx], called for [tx] as transaction number [i] with the
    configuration [txConfig] and in the world [w] that the transactions
    before it left, returned and left the world [w'].  A successful
    trace gives its result and moves the log index of the configuration
    on; a failed one gives the message of its error. *)
Definition traced_entry (c : Context) (cfg : EVMConfig) (signer : Signer)
    (traceConfig : option TraceConfig) (i : Z) (tx : MsgEthereumTx)
    (txConfig : TxConfig) (w : World) (r : TxTraceResult TraceValue)
    (txConfig' : TxConfig) (w' : World) : Prop :=
  let ethTx := AsTransaction k tx in
  let txConfig1 := with_Tx txConfig (tx_Hash k ethTx) i in
  exists v next err,
    traceTx c cfg txConfig1 signer ethTx traceConfig true None w
    = (Returned (v, next, err), w') /\
    match err with
    | None =>
        (exists val, v = Some val) /\
        r = {| Result := v; Error := EmptyString |} /\
        txConfig' = with_LogIndex txConfig1 next
    | Some e =>
        r = {| Result := None; Error := error_Error e |} /\
        error_Error e <> EmptyString /\
        txConfig' = txConfig1
    end.

(** The results [rs] are the entries of the transactions [txs], one
    for each and in their order, of one run from the world [w] to the
    world [w']: every transaction is traced in the world and with the
    configuration that the one before it left. *)
Fixpoint traced_entries (c : Context) (cfg : EVMConfig) (signer : Signer)
    (traceConfig : option TraceConfig) (i : Z) (txs : list MsgEthereumTx)
    (txConfig : TxConfig) (w : World) (rs : list (TxTraceResult TraceValue))
    (w' : World) : Prop :=
  match txs, rs with
  | [], [] => w' = w
  | tx :: txs, r :: rs =>
      exists txConfig1 w1,
        traced_entry c cfg signer traceConfig i tx txConfig w r txConfig1 w1 /\
        traced_entries c cfg signer traceConfig (i + 1) txs txConfig1 w1 rs w'
  | _, _ => False
  end.

Definition TraceBlock (c : Context) (req : option QueryTraceBlockRequest)
    : Go DataResult :=
  match req with
  | None => ret (None, Some (status_Error InvalidArgument "empty request"))
  | Some req =>
    match negative_limit (tb_TraceConfig req) with
    | Some err => ret (None, Some err)
    | None =>
      let c := trace_context c (tb_BlockNumber req) (tb_BlockTime req)
                 (tb_BlockHash req) in
      match getChainID c (tb_ChainId req) with
      | inl err => ret (None, Some (status_Error InvalidArgument (error_Error err)))
      | inr chainID =>
        match LoadEVMConfig k c (GetProposerAddress k c (tb_ProposerAddress req))
                chainID with
        | inl _ => ret (None, Some (status_Error Internal "failed to load evm config"))
        | inr cfg =>
          let* results := trace_block c cfg req in
          match json_Marshal_results k results with
          | inl err => ret (None, Some (status_Error Internal (error_Error err)))
          | inr resultData => ret (Some resultData, None)
          end
        end
      end
    end
  end.

End Keeper.

(** ** Base fee of a block (JSON-RPC backend) *)

(** [strconv.ParseInt(s, 10, 64)] and [new(big.Int).SetString(s, 10)]:
    an optional sign and at least one decimal digit; [ParseInt] also
    refuses what does not fit 64 bits.  [None] is a non-nil error (or
    [success = false]). *)
Definition digit_value (a : ascii) : option Z :=
  let n := Z.of_N (N_of_ascii a) in
  if (48 <=? n) && (n <=? 57) then Some (n - 48) else None.

Fixpoint parse_digits (s : string) (acc : Z) : option Z :=
  match s with
  | EmptyString => Some acc
  | String a rest =>
      match digit_value a with
      | Some d => parse_digits rest (acc * 10 + d)
      | None => None
      end
  end.

Definition ParseUint (s : string) : option Z :=
  match s with
  | EmptyString => None
  | _ => parse_digits s 0
  end.

(** The sign and the digits of a number. *)
Definition split_sign (s : string) : bool * string :=
  match s with
  | String "+" rest => (false, rest)
  | String "-" rest => (true, rest)
  | _ => (false, s)
  end.

Definition ParseInt (s : string) : option Z :=
  let '(neg, digits) := split_sign s in
  match ParseUint digits with
  | None => None
  | Some un =>
      if neg then (if un <=? 2 ^ 63 then Some (- un) else None)
      else (if un <? 2 ^ 63 then Some un else None)
  end.

Definition SetString (s : string) : option Z :=
  let '(neg, digits) := split_sign s in
  match ParseUint digits with
  | None => None
  | Some un => Some (if neg then - un else un)
  end.

Record EventAttribute : Type := mkEventAttribute {
  Key : string;
  Value : string
}.

Record abci_Event : Type := mkEvent {
  Type_ : string;
  Attributes : list EventAttribute
}.

Record ResultBlockResults : Type := mkResultBlockResults {
  Height : Z;
  FinalizeBlockEvents : list abci_Event
}.

Record QueryBaseFeeResponse : Type := mkQueryBaseFeeResponse {
  res_BaseFee : option Z
}.

Section BaseFee.

(** [feetypes.EventTypeFee] and [feetypes.AttributeKeyBaseFee] are
    constants of package x/fee/types. *)
Variables EventTypeFee AttributeKeyBaseFee : string.

(** [b.queryClient.BaseFee] at a height. *)
Variable queryBaseFee : Z -> error + QueryBaseFeeResponse.

(** [evt.Type == feetypes.EventTypeFee && len(evt.Attributes) > 0] *)
Definition sets_fee (evt : abci_Event) : bool :=
  String.eqb (Type_ evt) EventTypeFee && (0 <? len (Attributes evt)).

(** [strconv.ParseInt(evt.Attributes[0].Value, 10, 64)] *)
Definition parse_fee (evt : abci_Event) : option Z :=
  match Attributes evt !! 0%nat with
  | Some attr => ParseInt (Value attr)
  | None => None
  end.

(** The loop [for i := len(events) - 1; i >= 0; i--] of [BaseFee],
    with [n] for [i + 1]: the first event that sets the fee ends the
    scan, whether its value parses or not ([return] or [break]). *)
Fixpoint scan_reverse (events : list abci_Event) (n : nat) : option Z :=
  match n with
  | O => None
  | S i =>
      match events !! i with
      | Some evt => if sets_fee evt then parse_fee evt else scan_reverse events i
      | None => None
      end
  end.

(** [BackendImpl.BaseFee].  The [err] that is returned after the scan
    is the one of the query: the [err] of [ParseInt] is a variable of
    the inner block. *)
Definition BaseFee (blockRes : ResultBlockResults) : option Z * option error :=
  let fallback (err : option error) :=
    match scan_reverse (FinalizeBlockEvents blockRes)
            (length (FinalizeBlockEvents blockRes)) with
    | Some baseFee => (Some baseFee, None)
    | None => (None, err)
    end in
  match queryBaseFee (Height blockRes) with
  | inl err => fallback (Some err)
  | inr res =>
      match res_BaseFee res with
      | None => fallback None
      | Some baseFee => (Some baseFee, None)
      end
  end.

(** The forward scan of the spec: go through the events from the
    first to the last and keep the value at the latest event that sets
    the fee. *)
Definition scan_forward_last (events : list abci_Event) : option Z :=
  fold_left (fun found evt => if sets_fee evt then parse_fee evt else found)
    events None.

(** [BaseFeeFromEvents]: the first event of the fee type that has an
    attribute with the base-fee key decides. *)
Fixpoint find_base_fee_attr (attrs : list EventAttribute) : option (option Z) :=
  match attrs with
  | [] => None
  | attr :: rest =>
      if String.eqb (Key attr) AttributeKeyBaseFee then Some (SetString (Value attr))
      else find_base_fee_attr rest
  end.

Fixpoint BaseFeeFromEvents (events : list abci_Event) : option Z :=
  match events with
  | [] => None
  | event :: rest =>
      if negb (String.eqb (Type_ event) EventTypeFee) then BaseFeeFromEvents rest
      else
        match find_base_fee_attr (Attributes event) with
        | Some result => result
        | None => BaseFeeFromEvents rest
        end
  end.

End BaseFee.

(** ** The aspect system contract *)

(** [strings.ToLower] on the ASCII letters; method names are ABI
    identifiers. *)
Definition lower_ascii (a : ascii) : ascii :=
  let n := N_of_ascii a in
  if ((65 <=? n) && (n <=? 90))%N then ascii_of_N (n + 32) else a.

Fixpoint ToLower (s : string) : string :=
  match s with
  | EmptyString => EmptyString
  | String a rest => String (lower_ascii a) (ToLower rest)
  end.

Record abi_Method : Type := mkMethod {
  method_Name : string;
  method_ID : bytes
}.

Module contract.

Section NativeContract.

(** Decoded ABI values, and the state and store services a handler
    gets ([evmState], [evm], [storeService], [aspectStoreService], the
    logger). *)
Context {AbiValue Services : Type}.

Record HandlerContext : Type := mkHandlerContext {
  hc_cosmosContext : Context;
  hc_from : Address;
  hc_parameters : gmap string AbiValue;
  hc_commit : bool;
  hc_services : Services;
  hc_abi : abi_Method;
  hc_rawInput : bytes;
  hc_nonce : Z;
  hc_gasLimit : Z;
  hc_gasPrice : option Z;
  hc_gasTipCap : option Z;
  hc_gasFeeCap : option Z
}.

Definition HandleResult : Type := (bytes * Z * option error)%type.

(** The interface [Handler]. *)
Record Handler : Type := mkHandler {
  Method : string;
  Handle : HandlerContext -> Z -> HandleResult
}.

Record AspectNativeContract : Type := mkAspectNativeContract {
  services : Services;
  handlers : gmap string Handler
}.

Definition register (c : AspectNativeContract) (handler : Handler)
    : AspectNativeContract :=
  {| services := services c;
     handlers := <[Method handler := handler]> (handlers c) |}.

(** [aspect.ParseMethod], and the registered error
    [evmtypes.ErrCallContract]. *)
Variable ParseMethod : bytes -> error + (abi_Method * gmap string AbiValue).
Variable ErrCallContract : error.

(** A call of [handler.Handle]. *)
Record Invocation : Type := mkInvocation {
  inv_handler : string;
  inv_context : HandlerContext;
  inv_gas : Z
}.

(** [applyMsg], with the calls it makes to handlers. *)
Definition applyMsg (c : AspectNativeContract) (ctx : Context) (msg : Message)
    (gas : Z) (commit : bool) : list Invocation * HandleResult :=
  match ParseMethod (Data msg) with
  | inl err => ([], ([], 0, Some err))
  | inr (method, parameters) =>
      match handlers c !! ToLower (method_Name method) with
      | None =>
          ([], ([], 0,
                Some (errors_Wrap ErrCallContract
                        ("method " ++ method_Name method ++ " not found")%string)))
      | Some handler =>
          let handlerCtx :=
            {| hc_cosmosContext := ctx;
               hc_from := From msg;
               hc_parameters := parameters;
               hc_commit := commit;
               hc_services := services c;
               hc_abi := method;
               hc_rawInput := Data msg;
               hc_nonce := Nonce msg;
               hc_gasLimit := GasLimit msg;
               hc_gasPrice := GasPrice msg;
               hc_gasTipCap := GasTipCap msg;
               hc_gasFeeCap := GasFeeCap msg |} in
          ([ {| inv_handler := Method handler; inv_context := handlerCtx;
                inv_gas := gas |} ],
           Handle handler handlerCtx gas)
      end
  end.

Definition ApplyMessage_contract (c : AspectNativeContract) (ctx : Context)
    (msg : Message) (gas : Z) (commit : bool) : list Invocation * HandleResult :=
  applyMsg c ctx msg gas commit.

End NativeContract.

End contract.

(** ** What the executor's outcome means for a gas probe *)

(** The three-way reading of a probe (and the panic beside it). *)
Inductive Verdict : Type :=
| Succeeded (rsp : MsgEthereumTxResponse)
| NeedsMoreGas (rsp : option MsgEthereumTxResponse)
| HardFailure (e : error)
| Crashed (p : PanicValue).

Definition verdict (out : ApplyOutcome) : Verdict :=
  match out with
  | ApplyOk rsp =>
      if String.eqb (VmError rsp) EmptyString then Succeeded rsp else NeedsMoreGas (Some rsp)
  | ApplyErr e => if is_ErrIntrinsicGas e then NeedsMoreGas None else HardFailure e
  | ApplyPanic p => Crashed p
  end.

Definition succeeds (out : ApplyOutcome) : bool :=
  match verdict out with Succeeded _ => true | _ => false end.

Definition needs_more_gas (out : ApplyOutcome) : bool :=
  match verdict out with NeedsMoreGas _ => true | _ => false end.

(** The executor errors of a journal that are not "intrinsic gas too
    low", the logs its executions emitted, and the transactions for
    which an aspect context was created. *)
Definition hard_error {Transaction : Type} (ev : Event Transaction) : option error :=
  match ev with
  | EvApply _ _ _ (ApplyErr e) => if is_ErrIntrinsicGas e then None else Some e
  | _ => None
  end.

Definition emitted {Transaction : Type} (ev : Event Transaction) : Z :=
  match ev with
  | EvApply _ _ _ (ApplyOk rsp) => len (Logs rsp)
  | _ => 0
  end.

Definition emitted_logs {Transaction : Type} (evs : list (Event Transaction)) : Z :=
  foldr (fun ev n => emitted ev + n) 0 evs.

Definition created {Transaction : Type} (ev : Event Transaction) : option Transaction :=
  match ev with
  | EvCreate _ tx => Some tx
  | _ => None
  end.

Definition panics {Transaction : Type} (ev : Event Transaction) : bool :=
  match ev with
  | EvApply _ _ _ (ApplyPanic _) => true
  | _ => false
  end.

(** ** A small keeper to run the handlers on *)

Module Sample.

(** The store is a counter of committed executions; transactions are
    numbers. *)
Definition message (n gas : Z) : Message :=
  {| From := 7; Nonce := n; GasLimit := gas; GasPrice := None;
     GasTipCap := None; GasFeeCap := None; Data := [] |}.

Definition logs (n : nat) : list Log :=
  repeat {| log_Address := 7; log_Data := []; log_Index := 0 |} n.

Definition response (n : nat) (vmError : string) : MsgEthereumTxResponse :=
  {| GasUsed := 21000; Logs := logs n; Ret := []; VmError := vmError |}.

Definition keeper (apply : Z -> Message -> ApplyOutcome * Z)
    : @Keeper Z Z Z string :=
  {| ParseChainID := fun _ => inr 11820;
     GetProposerAddress := fun _ _ => 0;
     LoadEVMConfig := fun _ _ chainID =>
       inr {| cfg_ChainID := chainID; cfg_BaseFee := None; cfg_CoinBase := 0 |};
     GetNonce := fun _ _ => 0;
     json_Unmarshal := fun b =>
       inr {| args_From := 7; args_Gas := None; args_Nonce := None;
              args_Input := b; args_ValidationData := [] |};
     args_ToMessage := fun _ gasCap _ => inr (message 0 gasCap);
     args_ToTransaction := fun _ => 0;
     AsTransaction := fun tx => tx;
     AsEthCallTransaction := fun tx => tx;
     tx_Hash := fun tx => tx;
     ToMessage := fun tx _ _ =>
       if tx <? 0 then inl (errors_New "invalid sender") else inr (message tx 30000);
     isCustomizedVerification := fun _ => false;
     executor := fun s msg _ _ _ _ _ => apply s msg;
     DirectoryNew := fun _ _ _ => None;
     ParseDuration := fun _ => inr 1000;
     GetResult := fun _ _ => inr "structLogs";
     Hex2Hash := fun _ => 0;
     json_RawMessage := fun _ => None;
     json_Marshal := fun _ => inr [];
     json_Marshal_results := fun _ => inr [] |}.

(** An executor that needs 50000 gas and runs out of gas below. *)
Definition needs_50000 (s : Z) (msg : Message) : ApplyOutcome * Z :=
  if GasLimit msg <? 50000 then (ApplyOk (response 0 "out of gas"), s)
  else (ApplyOk (response 0 EmptyString), s).

(** An executor whose call reverts at every gas limit. *)
Definition always_reverts (s : Z) (msg : Message) : ApplyOutcome * Z :=
  (ApplyOk (response 0 "execution reverted"), s).

(** An executor that lacks intrinsic gas below 21006 and has no funds
    from there on. *)
Definition no_funds (s : Z) (msg : Message) : ApplyOutcome * Z :=
  if GasLimit msg <? 21006
  then (ApplyErr (errors_Wrap ErrIntrinsicGas "apply message"), s)
  else (ApplyErr (errors_New "insufficient funds for transfer"), s).

(** An executor that fails on transaction 2 and emits as many logs as
    the transaction's number otherwise. *)
Definition by_number (s : Z) (msg : Message) : ApplyOutcome * Z :=
  if Nonce msg =? 2 then (ApplyErr (errors_New "nonce too low"), s)
  else (ApplyOk (response (Z.to_nat (Nonce msg)) EmptyString), s + 1).

(** The same executor with a panic on transaction 9, and one that
    panics on every message. *)
Definition panics_on_9 (s : Z) (msg : Message) : ApplyOutcome * Z :=
  if Nonce msg =? 9 then (ApplyPanic "invalid memory address", s)
  else by_number s msg.

Definition always_panics (s : Z) (msg : Message) : ApplyOutcome * Z :=
  (ApplyPanic "invalid memory address", s).

Definition config : EVMConfig :=
  {| cfg_ChainID := 11820; cfg_BaseFee := None; cfg_CoinBase := 0 |}.

Definition ctx : Context :=
  {| ctx_ChainID := "artela_11820-1"; ctx_BlockHeight := 10; ctx_BlockTime := 0;
     ctx_HeaderHash := 0; ctx_MaxGas := None |}.

Definition world : World Z Z :=
  {| store := 0; nextAspect := 0; liveAspects := []; journal := [] |}.

Definition call (gasCap : Z) : EthCallRequest :=
  {| req_Args := []; req_GasCap := gasCap; req_ProposerAddress := [];
     req_ChainId := 0 |}.

Definition trace_request (predecessors : list Z) (target : Z)
    : @QueryTraceTxRequest Z :=
  {| tr_Msg := target; tr_TraceConfig := None; tr_Predecessors := predecessors;
     tr_BlockNumber := 11; tr_BlockHash := "00"; tr_BlockTime := 0;
     tr_ProposerAddress := []; tr_ChainId := 0 |}.

Definition block_request (txs : list Z) : @QueryTraceBlockRequest Z :=
  {| tb_Txs := txs; tb_TraceConfig := None; tb_BlockNumber := 11;
     tb_BlockHash := "00"; tb_BlockTime := 0; tb_ProposerAddress := [];
     tb_ChainId := 0 |}.

(** Events of a block, with "fee" and "base_fee" for the constants of
    the fee module. *)
Definition fee_event (value : string) : abci_Event :=
  {| Type_ := "fee"; Attributes := [ {| Key := "base_fee"; Value := value |} ] |}.

Definition other_event : abci_Event :=
  {| Type_ := "transfer"; Attributes := [ {| Key := "amount"; Value := "5" |} ] |}.

Definition query_fails (_ : Z) : error + QueryBaseFeeResponse :=
  inl (errors_New "rpc error: state pruned").

Definition query_nil (_ : Z) : error + QueryBaseFeeResponse :=
  inr {| res_BaseFee := None |}.

(** A system contract with the handlers "deploy" and "bind". *)
Definition handler (name : string) (used : Z)
    : @contract.Handler Z unit :=
  {| contract.Method := name;
     contract.Handle := fun hc gas => ([], gas - used, None) |}.

Definition system_contract : @contract.AspectNativeContract Z unit :=
  contract.register
    (contract.register {| contract.services := tt; contract.handlers := ∅ |}
       (handler "deploy" 100))
    (handler "bind" 20).

Definition parse (data : bytes) : error + (abi_Method * gmap string Z) :=
  match data with
  | [] => inl (errors_New "invalid input")
  | b :: _ =>
      if Byte.eqb b Byte.x01
      then inr ({| method_Name := "Deploy"; method_ID := [b] |}, {[ "code" := 1 ]})
      else inr ({| method_Name := "Destroy"; method_ID := [b] |}, ∅)
  end.

(** A call of the system contract with a one-byte payload. *)
Definition payload (b : Byte.byte) : Message :=
  {| From := 7; Nonce := 0; GasLimit := 50000; GasPrice := None;
     GasTipCap := None; GasFeeCap := None; Data := [b] |}.

End Sample.

(** ** What a journal shows about the executions *)

(** The execution of [ev] did not commit and had at most [cap] gas. *)
Definition runs_within {Transaction : Type} (cap : Z) (ev : Event Transaction) : Prop :=
  match ev with
  | EvApply msg commit _ _ => commit = false /\ GasLimit msg <= cap
  | _ => True
  end.

(** Every execution in [evs] got as log index the logs of the
    executions before it, counted from [base]. *)
Fixpoint continuous {Transaction : Type} (base : Z) (evs : list (Event Transaction))
    : Prop :=
  match evs with
  | [] => True
  | EvApply msg commit txConfig out :: rest =>
      LogIndex txConfig = base /\
      continuous
        (uint_add base (@emitted Transaction (EvApply msg commit txConfig out))) rest
  | _ :: rest => continuous base rest
  end.

(** The log index after the executions in [evs]. *)
Definition index_after {Transaction : Type} (base : Z) (evs : list (Event Transaction))
    : Z :=
  foldl (fun b ev => match ev with
                     | EvApply _ _ _ _ => uint_add b (emitted ev)
                     | _ => b
                     end) base evs.

(** *** The sender of a message *)

(** What [k.tryAspectVerifier] does. *)
Inductive VerifyOutcome : Type :=
| VerifyOk (sender : Address)
| VerifyErr (e : error)
| VerifyPanic (p : PanicValue).

Section GetSender.

Context {Store MsgEthereumTx Transaction TraceValue : Type}.
Variable k : @Keeper Store MsgEthereumTx Transaction TraceValue.

(** [k.EVMConfigFromCtx], [k.tryAspectVerifier] and [sender.String()] *)
Variable EVMConfigFromCtx : Context -> error + EVMConfig.
Variable tryAspectVerifier : Store -> Transaction -> VerifyOutcome * Store.
Variable Address_String : Address -> string.

Definition GetSender (c : Context) (msg : MsgEthereumTx)
    : Go Store Transaction (option string * option error) :=
  match EVMConfigFromCtx c with
  | inl err => ret (None, Some err)
  | inr _ =>
      let* aspectCtx := WithAspectContext (AsEthCallTransaction k msg) in
      defer (Destroy aspectCtx)
        (fun w =>
           let tx := AsTransaction k msg in
           let '(out, s') := tryAspectVerifier (store w) tx in
           match out with
           | VerifyOk sender =>
               (Returned (Some (Address_String sender), None), set_store s' w)
           | VerifyErr err => (Returned (None, Some err), set_store s' w)
           | VerifyPanic p => (Panicked p, set_store s' w)
           end)
  end.

End GetSender.

(** ** Events that decide a base fee *)

(** An event of the fee type with a base-fee attribute: the kind of
    event at which [BaseFeeFromEvents] stops. *)
Definition carries_base_fee (EventTypeFee AttributeKeyBaseFee : string)
    (evt : abci_Event) : bool :=
  String.eqb (Type_ evt) EventTypeFee &&
  match find_base_fee_attr AttributeKeyBaseFee (Attributes evt) with
  | Some _ => true
  | None => false
  end.

(** ** Blocks and accounts of the JSON-RPC backend *)

Section Backend.

(** The blocks and block results of the consensus node and the blocks
    made from them are left abstract. *)
Context {ResultBlock BlockResults Block : Type}.

(** [rpc.LatestBlockNumber], [resBlock.Block.Height] and the backend's
    [CosmosBlockByNumber], [CosmosBlockResultByNumber] and
    [BlockFromCosmosBlock]. *)
Variable LatestBlockNumber : Z.
Variable block_Height : ResultBlock -> Z.
Variable CosmosBlockByNumber : Z -> option ResultBlock * option error.
Variable CosmosBlockResultByNumber : Z -> error + BlockResults.
Variable BlockFromCosmosBlock : ResultBlock -> BlockResults -> option Block * option error.

(** [fmt.Errorf("query block failed, block number %d, %w", number, err)];
    the message is kept, the wrapped error is not. *)
Definition query_block_failed (number : Z) (err : option error) : error :=
  errors_New
    ("query block failed, block number " ++ fmt_d number ++ ", " ++
     match err with
     | Some e => error_Error e
     | None => "%!w(<nil>)"
     end)%string.

(** [ArtBlockByNumber] calls itself for the block before the latest
    one when the results of the latest block are missing; [calls]
    bounds the nested calls, and [None] is a call that was not made. *)
Fixpoint ArtBlockByNumber (calls : nat) (number : Z)
    : option (option Block * option error) :=
  match calls with
  | O => None
  | S calls' =>
      match CosmosBlockByNumber number with
      | (Some resBlock, None) =>
          match CosmosBlockResultByNumber (block_Height resBlock) with
          | inl _ =>
              if (number =? LatestBlockNumber) && (1 <? block_Height resBlock)
              then ArtBlockByNumber calls' (block_Height resBlock - 1)
              else Some (None,
                         Some (errors_New
                                 ("block result not found for height " ++
                                  fmt_d (block_Height resBlock))%string))
          | inr blockRes => Some (BlockFromCosmosBlock resBlock blockRes)
          end
      | (_, err) => Some (None, Some (query_block_failed number err))
      end
  end.

(** [Accounts]: the keys of the keyring as addresses; [None] is the nil
    slice that is returned when the keyring or one of its keys fails. *)
Context {Info PubKey : Type}.
Variable Keyring_List : error + list Info.
Variable GetPubKey : Info -> error + PubKey.
Variable pubKey_Address : PubKey -> Address.

Fixpoint Accounts_loop (infos : list Info) (addresses : list Address)
    : option (list Address) :=
  match infos with
  | [] => Some addresses
  | info :: rest =>
      match GetPubKey info with
      | inl _ => None
      | inr pubKey => Accounts_loop rest (addresses ++ [pubKey_Address pubKey])
      end
  end.

Definition Accounts : option (list Address) :=
  match Keyring_List with
  | inl _ => None
  | inr infos => Accounts_loop infos []
  end.

End Backend.

(** ** Ethereum transactions of a raw transaction *)

(** The fields of [MsgEthereumTx]. *)
Record EthereumTx : Type := mkEthereumTx {
  etx_Data : bytes;
  etx_Hash : string;
  etx_From : string
}.

(** A message of a decoded transaction: an Ethereum transaction, or a
    message of another type. *)
Inductive sdk_Msg : Type :=
| EthMsg (ethTx : EthereumTx)
| OtherMsg (typeName : string).

Section RawTx.

(** The decoder of the client context, [ethTx.AsTransaction().Hash().Hex()]
    and the registered error [errortypes.ErrJSONUnmarshal]. *)
Variable TxDecoder : bytes -> error + list sdk_Msg.
Variable tx_hash_hex : EthereumTx -> string.
Variable ErrJSONUnmarshal : error.

(** [ethTx.Hash = ethTx.AsTransaction().Hash().Hex()] *)
Definition with_Hash (ethTx : EthereumTx) : EthereumTx :=
  {| etx_Data := etx_Data ethTx; etx_Hash := tx_hash_hex ethTx;
     etx_From := etx_From ethTx |}.

Fixpoint RawTxToEthTx_loop (msgs : list sdk_Msg) (ethTxs : list EthereumTx)
    : error + list EthereumTx :=
  match msgs with
  | [] => inr ethTxs
  | EthMsg ethTx :: rest => RawTxToEthTx_loop rest (ethTxs ++ [with_Hash ethTx])
  | OtherMsg typeName :: _ =>
      inl (errors_New ("invalid message type " ++ typeName ++
                       ", expected *types.MsgEthereumTx")%string)
  end.

Definition RawTxToEthTx (txBz : bytes) : error + list EthereumTx :=
  match TxDecoder txBz with
  | inl err => inl (errors_Wrap ErrJSONUnmarshal (error_Error err))
  | inr msgs => RawTxToEthTx_loop msgs []
  end.

End RawTx.

(** ** The transaction pool API *)

Section TxPool.

(** The transactions of the JSON-RPC API and the chain configuration
    are left abstract. *)
Context {RPCTransaction ChainConfig : Type}.

(** The backend's [PendingTransactions] (the messages of each pending
    transaction), [ChainConfig] (nil is [None]) and [GetSender];
    [sender.String()], the nonce of [evmtypes.UnpackTxData(ethMsg.Data)]
    and [rpctypes.NewTransactionFromMsg]. *)
Variable PendingTransactions : error + list (list sdk_Msg).
Variable backend_ChainConfig : option ChainConfig.
Variable backend_GetSender : EthereumTx -> ChainConfig -> error + Address.
Variable Address_String : Address -> string.
Variable UnpackTxData_Nonce : EthereumTx -> error + Z.
Variable NewTransactionFromMsg : EthereumTx -> ChainConfig -> RPCTransaction.

(** The body of the inner loop of [getPendingContent]. *)
Definition add_pending (cfg : ChainConfig) (addr : Address)
    (pendingContent : gmap string (gmap string RPCTransaction)) (msg : sdk_Msg)
    : gmap string (gmap string RPCTransaction) :=
  match msg with
  | OtherMsg _ => pendingContent
  | EthMsg ethMsg =>
      match backend_GetSender ethMsg cfg with
      | inl _ => pendingContent
      | inr sender =>
          if negb (addr =? 0) && negb (addr =? sender) then pendingContent
          else
            match UnpackTxData_Nonce ethMsg with
            | inl _ => pendingContent
            | inr nonce =>
                let rpctx := NewTransactionFromMsg ethMsg cfg in
                let account := Address_String sender in
                <[account := <[fmt_d nonce := rpctx]>
                               (default ∅ (pendingContent !! account))]>
                  pendingContent
            end
      end
  end.

Definition getPendingContent (addr : Address)
    : gmap string (gmap string RPCTransaction) :=
  match PendingTransactions with
  | inl _ => ∅
  | inr pendingTxs =>
      match backend_ChainConfig with
      | None => ∅
      | Some cfg =>
          foldl (fun pendingContent tx => foldl (add_pending cfg addr) pendingContent tx)
            ∅ pendingTxs
      end
  end.

(** [Content] and [ContentFrom] *)
Definition Content : gmap string (gmap string (gmap string RPCTransaction)) :=
  {[ "pending" := ∅; "queued" := getPendingContent 0 ]}.

Definition ContentFrom (address : Address) : gmap string (gmap string RPCTransaction) :=
  getPendingContent address.

(** The message has an entry in the content for [addr]: it is an
    Ethereum transaction whose sender is found and is [addr] (or any
    sender, for the zero address), and whose data unpacks. *)
Definition listed (cfg : ChainConfig) (addr : Address) (ethMsg : EthereumTx)
    (account nonce : string) : Prop :=
  exists sender n,
    backend_GetSender ethMsg cfg = inr sender /\
    (addr = 0 \/ addr = sender) /\
    UnpackTxData_Nonce ethMsg = inr n /\
    account = Address_String sender /\
    nonce = fmt_d n.

End TxPool.

(** A pool of three pending transactions of two senders, for the
    examples: the sender is read off the [From] field, the nonce is the
    length of the data, and the listed transaction is the hash. *)
Module SamplePool.

Definition tx_a : EthereumTx :=
  {| etx_Data := [Byte.x01]; etx_Hash := "0xa"; etx_From := "0x07" |}.
Definition tx_b : EthereumTx :=
  {| etx_Data := [Byte.x01; Byte.x01]; etx_Hash := "0xb"; etx_From := "0x08" |}.
Definition tx_c : EthereumTx :=
  {| etx_Data := []; etx_Hash := "0xc"; etx_From := "unsigned" |}.

Definition pending : error + list (list sdk_Msg) :=
  inr [ [EthMsg tx_a; OtherMsg "*types.MsgSend"]; [EthMsg tx_b]; [EthMsg tx_c] ].

Definition chain_config : option Z := Some 11820.

Definition sender_of (ethMsg : EthereumTx) (cfg : Z) : error + Address :=
  if String.eqb (etx_From ethMsg) "0x07" then inr 7
  else if String.eqb (etx_From ethMsg) "0x08" then inr 8
  else inl (errors_New "invalid signature").

Definition nonce_of (ethMsg : EthereumTx) : error + Z :=
  inr (Z.of_nat (length (etx_Data ethMsg))).

Definition listed_as (ethMsg : EthereumTx) (cfg : Z) : string := etx_Hash ethMsg.

Definition content (addr : Address) : gmap string (gmap string string) :=
  getPendingContent pending chain_config sender_of fmt_d nonce_of listed_as addr.

End SamplePool.

(** ** The profiling handler of the debug API *)

(** [HandlerT], without its lock: the calls are modelled one at a
    time. *)
Record HandlerT {File : Type} : Type := mkHandlerT {
  cpuFilename : string;
  cpuFile : option File;
  traceFilename : string;
  traceFile : option File
}.
Arguments HandlerT : clear implicits.
Arguments mkHandlerT {File}.

(** The calls the handler makes to the operating system and to the Go
    runtime, with what they returned. *)
Inductive OsCall {File : Type} : Type :=
| os_Create_call (fp : string) (r : error + File)
| Close_call (f : File) (r : option error)
| pprof_StartCPUProfile_call (f : File) (r : option error)
| pprof_StopCPUProfile_call
| trace_Start_call (f : File) (r : option error)
| trace_Stop_call.
Arguments OsCall : clear implicits.

(** What a method of the debug API runs in: the handler, the state of
    the operating system, and the calls made so far. *)
Record Debug {File OS : Type} : Type := mkDebug {
  handler : HandlerT File;
  os : OS;
  calls : list (OsCall File)
}.
Arguments Debug : clear implicits.
Arguments mkDebug {File OS}.

Section DebugProfile.

Context {File OS : Type}.

(** [ctx.Viper.GetString("cpu-profile")], [user.Current()] (the home
    directory, or the error), [filepath.Clean], and the calls to the
    operating system and to the runtime. *)
Variable cpu_profile_flag : string.
Variable user_Current : error + string.
Variable filepath_Clean : string -> string.
Variable os_Create : string -> OS -> (error + File) * OS.
Variable file_Close : File -> OS -> option error * OS.
Variable pprof_StartCPUProfile : File -> OS -> option error * OS.
Variable pprof_StopCPUProfile : OS -> OS.
Variable trace_Start : File -> OS -> option error * OS.
Variable trace_Stop : OS -> OS.

Definition isCPUProfileConfigurationActivated : bool :=
  negb (String.eqb cpu_profile_flag EmptyString).

(** The two prefixes of [ExpandHome]: a tilde and a slash, a tilde and
    a backslash. *)
Definition tilde_slash : string := "~/".
Definition tilde_backslash : string :=
  String "~" (String (ascii_of_nat 92) EmptyString).

Definition ExpandHome (p : string) : string * option error :=
  if String.prefix tilde_slash p || String.prefix tilde_backslash p then
    match user_Current with
    | inl err => (p, Some err)
    | inr home =>
        (filepath_Clean (home ++ String.substring 1 (String.length p - 1) p)%string,
         None)
    end
  else (filepath_Clean p, None).

(** The calls, recorded. *)
Definition create (fp : string) (d : Debug File OS) : (error + File) * Debug File OS :=
  let (r, os') := os_Create fp (os d) in
  (r, mkDebug (handler d) os' (calls d ++ [os_Create_call fp r])).

Definition close (f : File) (d : Debug File OS) : option error * Debug File OS :=
  let (r, os') := file_Close f (os d) in
  (r, mkDebug (handler d) os' (calls d ++ [Close_call f r])).

Definition start_cpu (f : File) (d : Debug File OS) : option error * Debug File OS :=
  let (r, os') := pprof_StartCPUProfile f (os d) in
  (r, mkDebug (handler d) os' (calls d ++ [pprof_StartCPUProfile_call f r])).

Definition stop_cpu (d : Debug File OS) : Debug File OS :=
  mkDebug (handler d) (pprof_StopCPUProfile (os d))
    (calls d ++ [pprof_StopCPUProfile_call]).

Definition start_trace (f : File) (d : Debug File OS) : option error * Debug File OS :=
  let (r, os') := trace_Start f (os d) in
  (r, mkDebug (handler d) os' (calls d ++ [trace_Start_call f r])).

Definition stop_trace (d : Debug File OS) : Debug File OS :=
  mkDebug (handler d) (trace_Stop (os d)) (calls d ++ [trace_Stop_call]).

Definition set_cpu (f : option File) (name : string) (d : Debug File OS)
    : Debug File OS :=
  let h := handler d in
  mkDebug (mkHandlerT name f (traceFilename h) (traceFile h)) (os d) (calls d).

Definition set_trace (f : option File) (name : string) (d : Debug File OS)
    : Debug File OS :=
  let h := handler d in
  mkDebug (mkHandlerT (cpuFilename h) (cpuFile h) name f) (os d) (calls d).

Definition StartCPUProfile (file : string) (d : Debug File OS)
    : option error * Debug File OS :=
  if isCPUProfileConfigurationActivated then
    (Some (errors_New "CPU profiling already in progress using the configuration file"), d)
  else
    match cpuFile (handler d) with
    | Some _ => (Some (errors_New "CPU profiling already in progress"), d)
    | None =>
        match ExpandHome file with
        | (_, Some err) => (Some err, d)
        | (fp, None) =>
            match create fp d with
            | (inl err, d1) => (Some err, d1)
            | (inr f, d1) =>
                match start_cpu f d1 with
                | (Some err, d2) =>
                    match close f d2 with
                    | (Some cerr, d3) =>
                        (Some (errors_Wrap cerr "failed to close cpu profile file"), d3)
                    | (None, d3) => (Some err, d3)
                    end
                | (None, d2) => (None, set_cpu (Some f) file d2)
                end
            end
        end
    end.

Definition StopCPUProfile (d : Debug File OS) : option error * Debug File OS :=
  if isCPUProfileConfigurationActivated then
    (Some (errors_New "CPU profiling already in progress using the configuration file"), d)
  else
    match cpuFile (handler d) with
    | Some f =>
        match close f (stop_cpu d) with
        | (Some err, d2) => (Some (errors_Wrap err "failed to close cpu file"), d2)
        | (None, d2) => (None, set_cpu None EmptyString d2)
        end
    | None => (Some (errors_New "CPU profiling not in progress"), d)
    end.

Definition StartGoTrace (file : string) (d : Debug File OS)
    : option error * Debug File OS :=
  match traceFile (handler d) with
  | Some _ => (Some (errors_New "trace already in progress"), d)
  | None =>
      match ExpandHome file with
      | (_, Some err) => (Some err, d)
      | (fp, None) =>
          match create fp d with
          | (inl err, d1) => (Some err, d1)
          | (inr f, d1) =>
              match start_trace f d1 with
              | (Some err, d2) =>
                  match close f d2 with
                  | (Some cerr, d3) =>
                      (Some (errors_Wrap cerr "failed to close trace file"), d3)
                  | (None, d3) => (Some err, d3)
                  end
              | (None, d2) => (None, set_trace (Some f) file d2)
              end
          end
      end
  end.

Definition StopGoTrace (d : Debug File OS) : option error * Debug File OS :=
  let d1 := stop_trace d in
  match traceFile (handler d1) with
  | None => (Some (errors_New "trace not in progress"), d1)
  | Some f =>
      match close f d1 with
      | (Some err, d2) => (Some (errors_Wrap err "failed to close trace file"), d2)
      | (None, d2) => (None, set_trace None EmptyString d2)
      end
  end.

(** A call of one of the four methods that run under the lock of the
    handler from their start to their end, and a sequence of them. *)
Inductive LockedCall : Type :=
| locked_StartCPUProfile (file : string)
| locked_StopCPUProfile
| locked_StartGoTrace (file : string)
| locked_StopGoTrace.

Definition run_locked (c : LockedCall) (d : Debug File OS)
    : option error * Debug File OS :=
  match c with
  | locked_StartCPUProfile file => StartCPUProfile file d
  | locked_StopCPUProfile => StopCPUProfile d
  | locked_StartGoTrace file => StartGoTrace file d
  | locked_StopGoTrace => StopGoTrace d
  end.

Definition run_locked_calls (cs : list LockedCall) (d : Debug File OS)
    : Debug File OS :=
  foldl (fun d c => snd (run_locked c d)) d cs.

(** [GoTrace] and [CpuProfile] start, sleep and stop.  The lock of the
    handler is held inside the start and inside the stop, not while
    they sleep: [during] are the calls of other clients that the
    handler serves in between. *)
Definition CpuProfile (file : string) (during : list LockedCall) (d : Debug File OS)
    : option error * Debug File OS :=
  match StartCPUProfile file d with
  | (Some err, d1) => (Some err, d1)
  | (None, d1) => StopCPUProfile (run_locked_calls during d1)
  end.

Definition GoTrace (file : string) (during : list LockedCall) (d : Debug File OS)
    : option error * Debug File OS :=
  match StartGoTrace file d with
  | (Some err, d1) => (Some err, d1)
  | (None, d1) => StopGoTrace (run_locked_calls during d1)
  end.

(** A call of one of the six methods, and a sequence of them. *)
Inductive DebugCall : Type :=
| call_StartCPUProfile (file : string)
| call_StopCPUProfile
| call_CpuProfile (file : string) (during : list LockedCall)
| call_StartGoTrace (file : string)
| call_StopGoTrace
| call_GoTrace (file : string) (during : list LockedCall).

Definition run_call (c : DebugCall) (d : Debug File OS) : option error * Debug File OS :=
  match c with
  | call_StartCPUProfile file => StartCPUProfile file d
  | call_StopCPUProfile => StopCPUProfile d
  | call_CpuProfile file during => CpuProfile file during d
  | call_StartGoTrace file => StartGoTrace file d
  | call_StopGoTrace => StopGoTrace d
  | call_GoTrace file during => GoTrace file during d
  end.

Definition run_calls (cs : list DebugCall) (d : Debug File OS) : Debug File OS :=
  foldl (fun d c => snd (run_call c d)) d cs.

End DebugProfile.

(** The profiler is started only while it is not running: reading the
    calls from the start, with [running] telling whether a profile
    started by an earlier call has not been stopped. *)
Fixpoint cpu_bracketed {File : Type} (running : bool) (l : list (OsCall File)) : Prop :=
  match l with
  | [] => True
  | pprof_StartCPUProfile_call _ r :: l =>
      running = false /\ cpu_bracketed (match r with None => true | Some _ => false end) l
  | pprof_StopCPUProfile_call :: l => cpu_bracketed false l
  | _ :: l => cpu_bracketed running l
  end.

Fixpoint trace_bracketed {File : Type} (running : bool) (l : list (OsCall File)) : Prop :=
  match l with
  | [] => True
  | trace_Start_call _ r :: l =>
      running = false /\ trace_bracketed (match r with None => true | Some _ => false end) l
  | trace_Stop_call :: l => trace_bracketed false l
  | _ :: l => trace_bracketed running l
  end.

(** Whether a profile is running after the calls. *)
Definition cpu_running {File : Type} (running : bool) (l : list (OsCall File)) : bool :=
  foldl (fun running c =>
           match c with
           | pprof_StartCPUProfile_call _ r => match r with None => true | Some _ => false end
           | pprof_StopCPUProfile_call => false
           | _ => running
           end) running l.

Definition trace_running {File : Type} (running : bool) (l : list (OsCall File)) : bool :=
  foldl (fun running c =>
           match c with
           | trace_Start_call _ r => match r with None => true | Some _ => false end
           | trace_Stop_call => false
           | _ => running
           end) running l.

(** What a start adds to the calls: nothing, a failed creation, a
    refused start followed by the closing of the file, or a creation
    and a start. *)
Inductive start_calls {File : Type} (start : File -> option error -> OsCall File)
    : option File -> list (OsCall File) -> Prop :=
| start_refused : start_calls start None []
| start_not_created fp e : start_calls start None [os_Create_call fp (inl e)]
| start_failed fp f e r :
    start_calls start None [os_Create_call fp (inr f); start f (Some e); Close_call f r]
| start_done fp f :
    start_calls start (Some f) [os_Create_call fp (inr f); start f None].

(** An operating system for the examples: files are numbered as they
    are created, the root directory cannot be created, and the profiler
    refuses to start twice. *)
Module SampleDebug.

Record Os : Type := mkOs { created : Z; profiling : bool; tracing : bool }.

Definition os_Create (fp : string) (o : Os) : (error + Z) * Os :=
  if String.eqb fp "/" then (inl (errors_New "open /: is a directory"), o)
  else (inr (created o), mkOs (created o + 1) (profiling o) (tracing o)).

Definition file_Close (f : Z) (o : Os) : option error * Os := (None, o).

Definition pprof_StartCPUProfile (f : Z) (o : Os) : option error * Os :=
  if profiling o then (Some (errors_New "cpu profiling already in use"), o)
  else (None, mkOs (created o) true (tracing o)).

Definition pprof_StopCPUProfile (o : Os) : Os := mkOs (created o) false (tracing o).

Definition trace_Start (f : Z) (o : Os) : option error * Os :=
  if tracing o then (Some (errors_New "tracing is already enabled"), o)
  else (None, mkOs (created o) (profiling o) true).

Definition trace_Stop (o : Os) : Os := mkOs (created o) (profiling o) false.

Definition idle : Debug Z Os :=
  mkDebug (mkHandlerT EmptyString None EmptyString None) (mkOs 0 false false) [].

(** The profiler is running already, started by the node itself. *)
Definition busy : Debug Z Os :=
  mkDebug (mkHandlerT EmptyString None EmptyString None) (mkOs 0 true false) [].

Definition run (c : DebugCall) (d : Debug Z Os) : option error * Debug Z Os :=
  run_call EmptyString (inr "/home/node") (fun p => p) os_Create file_Close
    pprof_StartCPUProfile pprof_StopCPUProfile trace_Start trace_Stop c d.

End SampleDebug.

(** A call that is none to the CPU profiler. *)
Definition not_pprof {File : Type} (c : OsCall File) : Prop :=
  match c with
  | pprof_StartCPUProfile_call _ _ | pprof_StopCPUProfile_call => False
  | _ => True
  end.

(** The handler and the calls agree: every start of a profiler so far
    came while it was stopped, and a handler that holds no file has no
    profile running. *)
Definition profilers_in_step {File OS : Type} (d : Debug File OS) : Prop :=
  cpu_bracketed false (calls d) /\
  (cpuFile (handler d) = None -> cpu_running false (calls d) = false) /\
  trace_bracketed false (calls d) /\
  (traceFile (handler d) = None -> trace_running false (calls d) = false).

(** ** Compaction of the chain database *)

Section ChaindbCompact.

Context {DB : Type}.

(** The backend's [DBCompact], on the ranges of one-byte keys that
    [ChaindbCompact] gives it. *)
Variable DBCompact : Z -> Z -> DB -> option error * DB.

(** [b + 1] on a byte *)
Definition byte_succ (b : Z) : Z := (b + 1) mod 256.

(** The loop of [ChaindbCompact], from [b]; the ranges given to
    [DBCompact] are collected.  [None] when the rounds run out. *)
Fixpoint ChaindbCompact_from (rounds : nat) (b : Z) (db : DB) (ranges : list (Z * Z))
    : option (option error * DB * list (Z * Z)) :=
  match rounds with
  | O => None
  | S rounds =>
      if b <? 255 then
        match DBCompact b (byte_succ b) db with
        | (Some err, db') => Some (Some err, db', ranges ++ [(b, byte_succ b)])
        | (None, db') =>
            ChaindbCompact_from rounds (byte_succ b) db' (ranges ++ [(b, byte_succ b)])
        end
      else Some (None, db, ranges)
  end.

Definition ChaindbCompact (db : DB) : option (option error * DB * list (Z * Z)) :=
  ChaindbCompact_from 256 0 db [].

(** The ranges from each byte of [bs] to the next byte were compacted
    one after the other, each without an error, from the database [db]
    to the database [db']. *)
Fixpoint compacted (bs : list Z) (db db' : DB) : Prop :=
  match bs with
  | [] => db' = db
  | b :: bs => exists db1, DBCompact b (b + 1) db = (None, db1) /\ compacted bs db1 db'
  end.

End ChaindbCompact.

(** * Properties *)

(** ** Go control flow *)

Section GoFacts.

Context {Store Transaction : Type}.

Abbreviation World' := (World Store Transaction).

Lemma Destroy_not_live (id : nat) (w : World') :
  id ∉ liveAspects (Destroy id w).
Proof.
  unfold Destroy; simpl. rewrite list_elem_of_filter. tauto.
Qed.

(** A deferred function runs when the body panics, and the panic goes
    on; a deferred [recover] ends the panic with the zero results. *)
Lemma defer_on_panic {A : Type} (d : World' -> World') (body : Go Store Transaction A)
    (w w1 : World') (p : PanicValue) :
  body w = (Panicked p, w1) -> defer d body w = (Panicked p, d w1).
Proof. unfold defer. by intros ->. Qed.

Lemma defer_recover_on_panic {A : Type} (h : PanicValue -> World' -> World')
    (zero : A) (body : Go Store Transaction A) (w w1 : World') (p : PanicValue) :
  body w = (Panicked p, w1) ->
  defer_recover h zero body w = (Returned zero, h p w1).
Proof. unfold defer_recover. by intros ->. Qed.

End GoFacts.

(** ** Gas estimation *)

Section GasEstimation.

Context {Store MsgEthereumTx Transaction TraceValue : Type}.
Variable k : @Keeper Store MsgEthereumTx Transaction TraceValue.
Variables (cfg : EVMConfig) (txConfig : TxConfig) (txMsg : MsgEthereumTx).
Variables (msg : Message) (icv : bool).

Abbreviation run_probe := (executable k cfg txConfig txMsg msg icv).
Abbreviation outcome_at := (probe k cfg txConfig msg icv).
Abbreviation events_at := (probe_events k cfg txConfig txMsg msg icv).

(** One probe: what it returns follows from the executor's outcome
    alone, the store is as before, and the journal has the creation of
    the aspect context, the execution and the destruction. *)
Lemma executable_run (gas : Z) (w : World Store Transaction) :
  executable k cfg txConfig txMsg msg icv gas w =
  (match outcome_at (store w) gas with
   | ApplyOk rsp => Returned (0 <? Z.of_nat (String.length (VmError rsp)), Some rsp, None)
   | ApplyErr e =>
       if is_ErrIntrinsicGas e then Returned (true, None, None)
       else Returned (true, None, Some e)
   | ApplyPanic p => Panicked p
   end,
   {| store := store w; nextAspect := S (nextAspect w);
      liveAspects := filter (fun j => j ≠ nextAspect w) (nextAspect w :: liveAspects w);
      journal := journal w ++ events_at w gas |}).
Proof.
  unfold executable, probe_events, probe, bind, defer, WithAspectContext,
    ApplyMessageWithConfig, ret, Destroy, record, set_store; simpl.
  destruct (executor k (store w) (with_GasLimit msg gas) None false cfg
              txConfig icv) as [out s'] eqn:E; simpl.
  destruct out as [rsp|e|p]; simpl.
  - rewrite <- !app_assoc. reflexivity.
  - destruct (is_ErrIntrinsicGas e); simpl; rewrite <- !app_assoc; reflexivity.
  - rewrite <- !app_assoc. reflexivity.
Qed.

Lemma empty_VmError (v : string) :
  (0 <? Z.of_nat (String.length v)) = negb (String.eqb v EmptyString).
Proof. destruct v; reflexivity. Qed.

(** The result of a probe, read through [verdict]. *)
Lemma executable_verdict (gas : Z) (w : World Store Transaction) :
  fst (run_probe gas w) =
  match verdict (outcome_at (store w) gas) with
  | Succeeded rsp => Returned (false, Some rsp, None)
  | NeedsMoreGas r => Returned (true, r, None)
  | HardFailure e => Returned (true, None, Some e)
  | Crashed p => Panicked p
  end.
Proof.
  rewrite executable_run; simpl.
  destruct (outcome_at (store w) gas) as [rsp|e|p]; simpl; [|by case_match|done].
  rewrite empty_VmError. by destruct (String.eqb (VmError rsp) EmptyString).
Qed.

Lemma executable_store (gas : Z) (w : World Store Transaction) :
  store (snd (run_probe gas w)) = store w.
Proof. by rewrite executable_run. Qed.

Lemma executable_journal (gas : Z) (w : World Store Transaction) :
  journal (snd (run_probe gas w)) = journal w ++ events_at w gas.
Proof. by rewrite executable_run. Qed.

Lemma midpoint_between (lo hi : Z) :
  lo + 1 < hi -> lo < (hi + lo) / 2 < hi.
Proof.
  intros H. pose proof (Z.div_mod (hi + lo) 2 ltac:(lia)) as Hdm.
  pose proof (Z.mod_pos_bound (hi + lo) 2 ltac:(lia)). lia.
Qed.

(** One round of the search. *)
Lemma BinSearch_rounds_step (n : nat) (lo hi : Z) (w : World Store Transaction) :
  lo + 1 < hi ->
  BinSearch_rounds (S n) lo hi run_probe w =
  let mid := (hi + lo) / 2 in
  let w' := snd (run_probe mid w) in
  match verdict (outcome_at (store w) mid) with
  | Succeeded _ => BinSearch_rounds n lo mid run_probe w'
  | NeedsMoreGas _ => BinSearch_rounds n mid hi run_probe w'
  | HardFailure e => (Returned (0, Some e), w')
  | Crashed p => (Panicked p, w')
  end.
Proof.
  intros Hlt. cbn [BinSearch_rounds].
  apply Z.ltb_lt in Hlt as ->. unfold bind.
  pose proof (executable_verdict ((hi + lo) / 2) w) as Hv.
  destruct (run_probe ((hi + lo) / 2) w) as [o w'] eqn:E. simpl in Hv |- *.
  rewrite Hv. by destruct (verdict _).
Qed.

Lemma BinSearch_rounds_done (n : nat) (lo hi : Z) (w : World Store Transaction) :
  hi <= lo + 1 ->
  BinSearch_rounds n lo hi run_probe w = (Returned (hi, None), w).
Proof.
  intros Hge. destruct n as [|n]; [reflexivity|]. cbn [BinSearch_rounds].
  by apply Z.ltb_ge in Hge as ->.
Qed.

(** Rounds beyond [hi - lo] are never used. *)
Lemma BinSearch_rounds_enough (n m : nat) (lo hi : Z) (w : World Store Transaction) :
  hi - lo <= Z.of_nat n -> hi - lo <= Z.of_nat m ->
  BinSearch_rounds n lo hi run_probe w = BinSearch_rounds m lo hi run_probe w.
Proof.
  revert m lo hi w. induction n as [|n IH]; intros m lo hi w Hn Hm.
  - rewrite !BinSearch_rounds_done by lia. reflexivity.
  - destruct (Z_lt_le_dec (lo + 1) hi) as [Hlt|Hge].
    + destruct m as [|m]; [lia|].
      rewrite !BinSearch_rounds_step by assumption. cbv zeta.
      pose proof (midpoint_between lo hi Hlt).
      destruct (verdict _); try reflexivity; apply IH; lia.
    + rewrite !BinSearch_rounds_done by lia. reflexivity.
Qed.

(** The loop of the search, as an equation. *)
Lemma BinSearch_unfold (lo hi : Z) (w : World Store Transaction) :
  BinSearch lo hi run_probe w =
  if lo + 1 <? hi then
    let mid := (hi + lo) / 2 in
    let w' := snd (run_probe mid w) in
    match verdict (outcome_at (store w) mid) with
    | Succeeded _ => BinSearch lo mid run_probe w'
    | NeedsMoreGas _ => BinSearch mid hi run_probe w'
    | HardFailure e => (Returned (0, Some e), w')
    | Crashed p => (Panicked p, w')
    end
  else (Returned (hi, None), w).
Proof.
  unfold BinSearch. destruct (lo + 1 <? hi) eqn:E.
  - apply Z.ltb_lt in E. pose proof (midpoint_between lo hi E).
    destruct (Z.to_nat (hi - lo)) as [|n] eqn:En; [lia|].
    rewrite BinSearch_rounds_step by assumption. cbv zeta.
    destruct (verdict _); try reflexivity; apply BinSearch_rounds_enough; lia.
  - apply Z.ltb_ge in E. by apply BinSearch_rounds_done.
Qed.

(** On an executor that needs [gstar] gas, the search between a
    failing [lo] and a succeeding [hi] ends at [gstar]. *)
Lemma BinSearch_rounds_monotone (s : Store) (gstar : Z) :
  (forall g, gstar <= g -> succeeds (outcome_at s g) = true) ->
  (forall g, g < gstar -> needs_more_gas (outcome_at s g) = true) ->
  forall (n : nat) (lo hi : Z) (w : World Store Transaction),
    store w = s -> lo < gstar <= hi -> hi - lo <= Z.of_nat n ->
    exists w', BinSearch_rounds n lo hi run_probe w = (Returned (gstar, None), w')
               /\ store w' = s.
Proof.
  intros Hup Hdown. induction n as [|n IH]; intros lo hi w Hs Hg Hn; [lia|].
  destruct (Z_lt_le_dec (lo + 1) hi) as [Hlt|Hge].
  - rewrite BinSearch_rounds_step by assumption. cbv zeta.
    pose proof (midpoint_between lo hi Hlt) as Hmid.
    set (mid := (hi + lo) / 2) in *.
    assert (Hs' : store (snd (run_probe mid w)) = s)
      by (by rewrite executable_store).
    destruct (Z_lt_le_dec mid gstar) as [Hbelow|Habove].
    + specialize (Hdown mid Hbelow). unfold needs_more_gas in Hdown.
      rewrite Hs. destruct (verdict (outcome_at s mid)); try discriminate.
      apply IH; [assumption|lia|lia].
    + specialize (Hup mid Habove). unfold succeeds in Hup.
      rewrite Hs. destruct (verdict (outcome_at s mid)); try discriminate.
      apply IH; [assumption|lia|lia].
  - rewrite BinSearch_rounds_done by lia.
    exists w. split; [|assumption]. do 3 f_equal. lia.
Qed.

(** The search never leaves its upper bound. *)
Lemma BinSearch_rounds_below_hi (n : nat) :
  forall (lo hi : Z) (w w' : World Store Transaction) (v : Z),
    BinSearch_rounds n lo hi run_probe w = (Returned (v, None), w') -> v <= hi.
Proof.
  induction n as [|n IH]; intros lo hi w w' v Hrun.
  - simpl in Hrun. inversion Hrun. lia.
  - destruct (Z_lt_le_dec (lo + 1) hi) as [Hlt|Hge].
    + rewrite BinSearch_rounds_step in Hrun by assumption. cbv zeta in Hrun.
      pose proof (midpoint_between lo hi Hlt) as Hmid.
      destruct (verdict _); try discriminate; apply IH in Hrun; lia.
    + rewrite BinSearch_rounds_done in Hrun by lia. inversion Hrun. lia.
Qed.

Lemma events_at_hard_error (gas : Z) (w : World Store Transaction) :
  omap hard_error (events_at w gas) =
  match verdict (outcome_at (store w) gas) with
  | HardFailure e => [e]
  | _ => []
  end.
Proof.
  unfold probe_events; simpl.
  destruct (outcome_at (store w) gas) as [rsp|e|p]; simpl;
    repeat case_match; simplify_eq; reflexivity.
Qed.

(** The search keeps the store, and stops at the first executor error
    that is not "intrinsic gas too low": such an error is the last
    event of its kind in the journal and is what the search returns. *)
Lemma BinSearch_rounds_journal (n : nat) :
  forall (lo hi : Z) (w w' : World Store Transaction) o,
    BinSearch_rounds n lo hi run_probe w = (o, w') ->
    store w' = store w /\
    exists evs, journal w' = journal w ++ evs /\
      omap hard_error evs =
      match o with
      | Returned (_, Some e) => [e]
      | _ => []
      end.
Proof.
  induction n as [|n IH]; intros lo hi w w' o Hrun.
  - inversion Hrun; subst. split; [done|]. exists []. by rewrite app_nil_r.
  - destruct (Z_lt_le_dec (lo + 1) hi) as [Hlt|Hge].
    + rewrite BinSearch_rounds_step in Hrun by assumption. cbv zeta in Hrun.
      set (mid := (hi + lo) / 2) in *.
      pose proof (events_at_hard_error mid w) as Hev.
      pose proof (executable_store mid w) as Hst.
      pose proof (executable_journal mid w) as Hj.
      destruct (verdict (outcome_at (store w) mid)) as [rsp|r|e|p].
      * apply IH in Hrun as (Hs & evs & Hjr & Hh). split; [congruence|].
        exists (events_at w mid ++ evs). rewrite Hjr, Hj, <- app_assoc.
        split; [done|]. by rewrite omap_app, Hev.
      * apply IH in Hrun as (Hs & evs & Hjr & Hh). split; [congruence|].
        exists (events_at w mid ++ evs). rewrite Hjr, Hj, <- app_assoc.
        split; [done|]. by rewrite omap_app, Hev.
      * inversion Hrun; subst. split; [done|]. by exists (events_at w mid).
      * inversion Hrun; subst. split; [done|]. by exists (events_at w mid).
    + rewrite BinSearch_rounds_done in Hrun by lia. inversion Hrun; subst.
      split; [done|]. exists []. by rewrite app_nil_r.
Qed.

End GasEstimation.

(** ** [EstimateGas] on a request that passes its checks *)

Section EstimateGasFacts.

Context {Store MsgEthereumTx Transaction TraceValue : Type}.
Variable k : @Keeper Store MsgEthereumTx Transaction TraceValue.
Variables (c : Context) (req : EthCallRequest) (w : World Store Transaction).
Variables (chainID : Z) (args : TransactionArgs) (cfg : EVMConfig) (msg : Message).

(** The request has a chain id and a gas cap of at least [TxGas], its
    arguments decode, the EVM configuration loads and the arguments
    convert to a message. *)
Hypothesis Hchain : getChainID k c (req_ChainId req) = inr chainID.
Hypothesis Hcap : TxGas <= req_GasCap req.
Hypothesis Hargs : json_Unmarshal k (req_Args req) = inr args.
Hypothesis Hcfg :
  LoadEVMConfig k c (GetProposerAddress k c (req_ProposerAddress req)) chainID
  = inr cfg.
Hypothesis Hmsg :
  args_ToMessage k (with_Nonce args (GetNonce k (store w) (args_From args)))
    (req_GasCap req) (cfg_BaseFee cfg) = inr msg.

Abbreviation txConfig0 := (NewEmptyTxConfig (ctx_HeaderHash c)).
Abbreviation icv0 := (0 <? len (args_ValidationData args)).
Abbreviation exec := (executable k cfg txConfig0 (args_ToTransaction k args) msg icv0).
Abbreviation outcome := (probe k cfg txConfig0 msg icv0).
Abbreviation cap := (effective_cap c args req).

Lemma EstimateGas_search :
  EstimateGas k c (Some req) w =
  (let* (hi, err) := BinSearch (TxGas - 1) cap exec in
   match err with
   | Some e => ret (None, Some e)
   | None => reject_at_cap cap hi exec
   end) w.
Proof.
  unfold EstimateGas. rewrite Hchain.
  apply Z.ltb_ge in Hcap as ->. rewrite Hargs, Hcfg. cbv zeta. rewrite Hmsg.
  reflexivity.
Qed.

Lemma effective_cap_le_GasCap : cap <= req_GasCap req.
Proof.
  unfold effective_cap.
  destruct (req_GasCap req =? 0) eqn:E0; [apply Z.eqb_eq in E0; unfold TxGas in *; lia|].
  simpl. destruct (req_GasCap req <? highest_allowance c args req) eqn:E; [lia|].
  apply Z.ltb_ge in E. lia.
Qed.

(** C1.  On an executor whose success is monotonic in the gas
    allowance (every allowance from [gstar] on succeeds, every smaller
    one fails for lack of gas), with [gstar] between [TxGas] and the
    effective upper bound, [EstimateGas] returns exactly [gstar]. *)
Theorem EstimateGas_returns_minimal_gas (gstar : Z) :
  TxGas <= gstar <= effective_cap c args req ->
  (forall g, gstar <= g -> succeeds (outcome (store w) g) = true) ->
  (forall g, g < gstar -> needs_more_gas (outcome (store w) g) = true) ->
  exists w',
    EstimateGas k c (Some req) w = (Returned (Some {| Gas := gstar |}, None), w').
Proof.
  intros Hrange Hup Hdown. rewrite EstimateGas_search. unfold bind, BinSearch.
  destruct (BinSearch_rounds_monotone k cfg txConfig0 (args_ToTransaction k args)
              msg icv0 (store w) gstar Hup Hdown
              (Z.to_nat (cap - (TxGas - 1))) (TxGas - 1) cap w)
    as (w1 & -> & Hs1); [reflexivity|lia|lia|].
  unfold reject_at_cap. destruct (gstar =? cap) eqn:E; [|by eexists].
  unfold bind.
  pose proof (executable_verdict k cfg txConfig0 (args_ToTransaction k args) msg
                icv0 gstar w1) as Hv.
  destruct (exec gstar w1) as [o w2]. simpl in Hv. rewrite Hv, Hs1.
  specialize (Hup gstar (Z.le_refl _)). unfold succeeds in Hup.
  destruct (verdict (outcome (store w) gstar)); try discriminate.
  by eexists.
Qed.

Lemma BinSearch_keeps_store (lo hi : Z) (w0 w1 : World Store Transaction) o :
  BinSearch lo hi exec w0 = (o, w1) -> store w1 = store w0.
Proof. intros H. by apply BinSearch_rounds_journal in H as [? _]. Qed.

(** C2.  When the search converges to the cap, the call is executed
    once more at the cap; a revert of that execution is returned with
    its reason, running out of gas gives the error "gas required exceeds
    allowance" with the cap, and another VM error is returned as it is.
    The gas that [EstimateGas] returns never exceeds the cap. *)
Theorem EstimateGas_rejects_at_cap :
  (forall w1,
     BinSearch (TxGas - 1) (effective_cap c args req) exec w = (Returned (cap, None), w1) ->
     exists o w2,
       EstimateGas k c (Some req) w = (o, w2) /\
       journal w2 =
         journal w1 ++
         probe_events k cfg txConfig0 (args_ToTransaction k args) msg icv0 w1 cap /\
       (forall rsp, outcome (store w) cap = ApplyOk rsp ->
          VmError rsp = ErrExecutionReverted_Error ->
          o = Returned (None, Some (NewExecErrorWithReason (Ret rsp)))) /\
       (forall rsp, outcome (store w) cap = ApplyOk rsp ->
          VmError rsp = ErrOutOfGas_Error ->
          o = Returned (None,
                Some (errors_New
                        ("gas required exceeds allowance (" ++ fmt_d cap ++ ")")%string))) /\
       (forall rsp, outcome (store w) cap = ApplyOk rsp ->
          VmError rsp <> EmptyString -> VmError rsp <> ErrOutOfGas_Error ->
          VmError rsp <> ErrExecutionReverted_Error ->
          o = Returned (None, Some (errors_New (VmError rsp))))) /\
  (forall rsp e w2,
     EstimateGas k c (Some req) w = (Returned (Some rsp, e), w2) ->
     Gas rsp <= cap /\ cap <= req_GasCap req).
Proof.
  split.
  - intros w1 Hconv. rewrite EstimateGas_search. unfold bind. rewrite Hconv.
    unfold reject_at_cap. rewrite Z.eqb_refl. unfold bind.
    rewrite executable_run. rewrite (BinSearch_keeps_store _ _ _ _ _ Hconv).
    destruct (outcome (store w) cap) as [rsp|e|p] eqn:Eout.
    + rewrite empty_VmError.
      destruct (String.eqb_spec (VmError rsp) EmptyString) as [He|He]; simpl.
      * eexists _, _. split; [reflexivity|]. split; [reflexivity|].
        repeat split; intros rsp' [= <-] H; try congruence;
          rewrite He in H; discriminate.
      * destruct (String.eqb_spec (VmError rsp) ErrOutOfGas_Error) as [Ho|Ho]; simpl.
        { eexists _, _. split; [reflexivity|]. split; [reflexivity|].
          repeat split; intros rsp' [= <-] H; try congruence.
          rewrite Ho in H. discriminate. }
        destruct (String.eqb_spec (VmError rsp) ErrExecutionReverted_Error)
          as [Hr|Hr]; simpl.
        { eexists _, _. split; [reflexivity|]. split; [reflexivity|].
          repeat split; intros rsp' [= <-] H; congruence. }
        eexists _, _. split; [reflexivity|]. split; [reflexivity|].
        repeat split; intros rsp' [= <-] H; congruence.
    + destruct (is_ErrIntrinsicGas e); simpl;
        (eexists _, _; split; [reflexivity|]; split; [reflexivity|];
         repeat split; intros; discriminate).
    + eexists _, _. split; [reflexivity|]. split; [reflexivity|].
      repeat split; intros; discriminate.
  - intros rsp e w2 Hrun. split; [|apply effective_cap_le_GasCap].
    rewrite EstimateGas_search in Hrun. unfold bind in Hrun.
    destruct (BinSearch (TxGas - 1) cap exec w) as [[[v [e1|]]|p] w1] eqn:Es;
      try discriminate.
    apply BinSearch_rounds_below_hi in Es.
    unfold reject_at_cap in Hrun.
    destruct (v =? cap) eqn:Ev; [|by inversion Hrun; subst].
    unfold bind in Hrun. destruct (exec v w1) as [[[[failed r] [e2|]]|p] w3];
      try discriminate.
    destruct failed; [|by inversion Hrun; subst].
    destruct r as [r|]; [|discriminate]. by repeat case_match.
Qed.

Lemma reject_at_cap_world (v : Z) (w1 w' : World Store Transaction) o :
  reject_at_cap cap v exec w1 = (o, w') ->
  w' = if v =? cap then snd (exec v w1) else w1.
Proof.
  unfold reject_at_cap. destruct (v =? cap); unfold bind, ret.
  - destruct (exec v w1) as [[[[failed r] e]|p] w3]; simpl;
      repeat case_match; congruence.
  - congruence.
Qed.

Lemma EstimateGas_hard_errors o (w' : World Store Transaction) :
  EstimateGas k c (Some req) w = (o, w') ->
  exists evs, journal w' = journal w ++ evs /\
    (omap hard_error evs = [] \/
     exists e, omap hard_error evs = [e] /\ o = Returned (None, Some e)).
Proof.
  rewrite EstimateGas_search. unfold bind. intros Hrun.
  destruct (BinSearch (TxGas - 1) cap exec w) as [o1 w1] eqn:Es.
  apply BinSearch_rounds_journal in Es as (Hs & evs & Hj & Hh).
  destruct o1 as [[v [e|]]|p].
  - inversion Hrun; subst. exists evs. eauto.
  - pose proof (reject_at_cap_world _ _ _ _ Hrun) as Hw.
    unfold reject_at_cap in Hrun. destruct (v =? cap).
    + pose proof (executable_journal k cfg txConfig0 (args_ToTransaction k args)
                    msg icv0 v w1) as Hjp.
      rewrite <- Hw, Hj, <- app_assoc in Hjp. eexists. split; [exact Hjp|].
      rewrite omap_app, Hh, events_at_hard_error. simpl.
      unfold bind in Hrun.
      pose proof (executable_verdict k cfg txConfig0 (args_ToTransaction k args)
                    msg icv0 v w1) as Hv.
      destruct (exec v w1) as [o2 w2]. simpl in Hv. subst o2.
      destruct (verdict (outcome (store w1) v)) as [rsp|r|e|p]; try by left.
      right. exists e. split; [done|]. by inversion Hrun.
    + subst w'. exists evs. eauto.
  - inversion Hrun; subst. exists evs. eauto.
Qed.

(** C8.  A probe is read in three ways.  "Intrinsic gas too low" is a
    failed probe without an error, and the search goes on above it; any
    other executor error is returned by the probe, stops the search and
    is what [EstimateGas] returns; a response with a VM error is a
    failed probe and one without is a successful probe. *)
Theorem EstimateGas_probe_classification :
  (forall gas w0 e, outcome (store w0) gas = ApplyErr e ->
     is_ErrIntrinsicGas e = true ->
     fst (exec gas w0) = Returned (true, None, None)) /\
  (forall gas w0 e, outcome (store w0) gas = ApplyErr e ->
     is_ErrIntrinsicGas e = false ->
     fst (exec gas w0) = Returned (true, None, Some e)) /\
  (forall gas w0 rsp, outcome (store w0) gas = ApplyOk rsp ->
     VmError rsp <> EmptyString ->
     fst (exec gas w0) = Returned (true, Some rsp, None)) /\
  (forall gas w0 rsp, outcome (store w0) gas = ApplyOk rsp ->
     VmError rsp = EmptyString ->
     fst (exec gas w0) = Returned (false, Some rsp, None)) /\
  (forall lo hi w0 e, lo + 1 < hi ->
     outcome (store w0) ((hi + lo) / 2) = ApplyErr e ->
     is_ErrIntrinsicGas e = true ->
     BinSearch lo hi exec w0 =
     BinSearch ((hi + lo) / 2) hi exec (snd (exec ((hi + lo) / 2) w0))) /\
  (forall lo hi w0 e, lo + 1 < hi ->
     outcome (store w0) ((hi + lo) / 2) = ApplyErr e ->
     is_ErrIntrinsicGas e = false ->
     fst (BinSearch lo hi exec w0) = Returned (0, Some e)) /\
  (forall o w' evs e,
     EstimateGas k c (Some req) w = (o, w') ->
     journal w' = journal w ++ evs ->
     e ∈ omap hard_error evs ->
     o = Returned (None, Some e)).
Proof.
  repeat split.
  - intros gas w0 e Hout He. rewrite executable_verdict, Hout. simpl. by rewrite He.
  - intros gas w0 e Hout He. rewrite executable_verdict, Hout. simpl. by rewrite He.
  - intros gas w0 rsp Hout He. rewrite executable_verdict, Hout. simpl.
    by destruct (String.eqb_spec (VmError rsp) EmptyString).
  - intros gas w0 rsp Hout He. rewrite executable_verdict, Hout. simpl.
    by destruct (String.eqb_spec (VmError rsp) EmptyString).
  - intros lo hi w0 e Hlt Hout He. rewrite BinSearch_unfold.
    apply Z.ltb_lt in Hlt as ->. cbv zeta. rewrite Hout. simpl. by rewrite He.
  - intros lo hi w0 e Hlt Hout He. rewrite BinSearch_unfold.
    apply Z.ltb_lt in Hlt as ->. cbv zeta. rewrite Hout. simpl. by rewrite He.
  - intros o w' evs e Hrun Hj Hin.
    destruct (EstimateGas_hard_errors o w' Hrun) as (evs' & Hj' & Hh).
    rewrite Hj' in Hj. apply app_inv_head in Hj as <-.
    destruct Hh as [Hh|(e' & Hh & ->)]; rewrite Hh in Hin.
    + by apply not_elem_of_nil in Hin.
    + by apply list_elem_of_singleton in Hin as ->.
Qed.

End EstimateGasFacts.

(** The executor that needs 50000 gas, asked with a cap of 100000. *)
Lemma EstimateGas_returns_minimal_gas_sample :
  exists w',
    EstimateGas (Sample.keeper Sample.needs_50000) Sample.ctx
      (Some (Sample.call 100000)) Sample.world
    = (Returned (Some {| Gas := 50000 |}, None), w').
Proof.
  eapply (EstimateGas_returns_minimal_gas (Sample.keeper Sample.needs_50000)
            Sample.ctx (Sample.call 100000) Sample.world 11820).
  - reflexivity.
  - vm_compute. discriminate.
  - reflexivity.
  - reflexivity.
  - reflexivity.
  - vm_compute. split; discriminate.
  - intros g Hg. unfold succeeds, verdict, probe. simpl. unfold Sample.needs_50000.
    simpl. apply Z.ltb_ge in Hg as ->. reflexivity.
  - intros g Hg. unfold needs_more_gas, verdict, probe. simpl.
    unfold Sample.needs_50000. simpl. apply Z.ltb_lt in Hg as ->. reflexivity.
Defined.

(** A call that reverts at every gas limit, asked with a cap of 21004:
    the search ends at the cap and the revert is returned. *)
Lemma EstimateGas_rejects_at_cap_sample :
  exists w2,
    EstimateGas (Sample.keeper Sample.always_reverts) Sample.ctx
      (Some (Sample.call 21004)) Sample.world
    = (Returned (None, Some (NewExecErrorWithReason [])), w2).
Proof.
  edestruct (EstimateGas_rejects_at_cap (Sample.keeper Sample.always_reverts)
               Sample.ctx (Sample.call 21004) Sample.world 11820) as [Hcap _].
  - reflexivity.
  - vm_compute. discriminate.
  - reflexivity.
  - reflexivity.
  - reflexivity.
  - edestruct Hcap as (o & w2 & Hrun & _ & Hrevert & _).
    + vm_compute. reflexivity.
    + exists w2. rewrite Hrun. f_equal.
      apply (Hrevert (Sample.response 0 "execution reverted")); reflexivity.
Defined.

(** An executor without funds, asked with a cap of 21008: the probes
    below 21006 lack intrinsic gas and the search goes on above them;
    the probe at 21006 ends the estimation with its error. *)
Lemma EstimateGas_probe_classification_sample :
  fst (EstimateGas (Sample.keeper Sample.no_funds) Sample.ctx
         (Some (Sample.call 21008)) Sample.world)
  = Returned (None, Some (errors_New "insufficient funds for transfer")).
Proof.
  edestruct (EstimateGas_probe_classification (Sample.keeper Sample.no_funds)
               Sample.ctx (Sample.call 21008) Sample.world 11820)
    as (_ & _ & _ & _ & _ & _ & Habort).
  - reflexivity.
  - vm_compute. discriminate.
  - reflexivity.
  - reflexivity.
  - reflexivity.
  - eapply Habort.
    + apply surjective_pairing.
    + reflexivity.
    + vm_compute. apply list_elem_of_here.
Defined.

(** Unfolds the Go control flow of a handler and splits on what the
    collaborators return. *)
Ltac go_cases H :=
  repeat first
    [ progress (unfold bind, ret, defer, destroy, WithAspectContext,
                  ApplyMessageWithConfig, Destroy, record, set_store in H)
    | progress (cbn beta iota zeta delta
                  [fst snd store nextAspect liveAspects journal] in H)
    | match type of H with
      | context [match ?x with _ => _ end] =>
          lazymatch x with
          | context [match _ with _ => _ end] => fail
          | _ => destruct x eqn:?
          end
      end ].

(** ** Tracing *)

Section TraceFacts.

Context {Store MsgEthereumTx Transaction TraceValue : Type}.
Variable k : @Keeper Store MsgEthereumTx Transaction TraceValue.
Variables (c : Context) (cfg : EVMConfig).

Lemma emitted_logs_app (evs1 evs2 : list (Event Transaction)) :
  emitted_logs (evs1 ++ evs2) = emitted_logs evs1 + emitted_logs evs2.
Proof.
  induction evs1 as [|ev evs1 IH]; [reflexivity|].
  change (emitted ev + emitted_logs (evs1 ++ evs2)
          = emitted ev + emitted_logs evs1 + emitted_logs evs2). lia.
Qed.

Lemma emitted_logs_nonneg (evs : list (Event Transaction)) : 0 <= emitted_logs evs.
Proof.
  induction evs as [|ev evs IH]; [reflexivity|].
  change (0 <= emitted ev + emitted_logs evs).
  assert (0 <= emitted ev); [|lia].
  destruct ev as [| | ? ? ? [] | |]; unfold emitted, len; lia.
Qed.

Lemma uint_add_mod (a b : Z) :
  uint_add a b mod uint64_modulus = (a + b) mod uint64_modulus.
Proof. unfold uint_add. apply Z.mod_mod. discriminate. Qed.

(** What one call of [traceTx] leaves behind: an aspect context was
    created for the transaction and is no longer alive; a successful
    trace comes with the next log index, a failed one with a status
    error, and only a panic of the executor makes [traceTx] panic. *)
Lemma traceTx_journal (signer : Signer) (txConfig : TxConfig) (tx : Transaction)
    (traceConfig : option TraceConfig) (commitMessage : bool)
    (json : option bytes) (w w' : World Store Transaction) o :
  traceTx k c cfg txConfig signer tx traceConfig commitMessage json w = (o, w') ->
  exists evs,
    journal w' = journal w ++ evs /\
    omap created evs = [tx] /\
    nextAspect w' = S (nextAspect w) /\
    liveAspects w' = filter (fun j => j ≠ nextAspect w) (nextAspect w :: liveAspects w) /\
    match o with
    | Returned (v, next, None) =>
        existsb panics evs = false /\
        (exists val, v = Some val) /\
        next = uint_add (LogIndex txConfig) (emitted_logs evs)
    | Returned (v, next, Some e) =>
        existsb panics evs = false /\
        v = None /\ next = 0 /\ exists code m, e = status_Error code m
    | Panicked p => existsb panics evs = true
    end.
Proof.
  intros Hrun. unfold traceTx in Hrun. go_cases Hrun; simplify_eq; simpl;
    rewrite <- ?app_assoc; (eexists; split; [reflexivity|]); simpl;
    rewrite ?Z.add_0_r; eauto 10.
Qed.

(** One round of the predecessor loop.  When the round ends, the
    aspect context is destroyed and the log index has advanced by the
    logs of the execution, if there was one; when the executor panics,
    the round is left with the aspect context alive. *)
Lemma replay_predecessor_journal (signer : Signer) (i : Z) (tx : MsgEthereumTx)
    (txConfig : TxConfig) (w w' : World Store Transaction) o :
  replay_predecessor k cfg signer i tx txConfig w = (o, w') ->
  exists evs,
    journal w' = journal w ++ evs /\
    omap created evs = [AsTransaction k tx] /\
    nextAspect w' = S (nextAspect w) /\
    match o with
    | Returned txConfig' =>
        existsb panics evs = false /\
        LogIndex txConfig' mod uint64_modulus
        = (LogIndex txConfig + emitted_logs evs) mod uint64_modulus /\
        liveAspects w'
        = filter (fun j => j ≠ nextAspect w) (nextAspect w :: liveAspects w)
    | Panicked p =>
        existsb panics evs = true /\
        liveAspects w' = nextAspect w :: liveAspects w
    end.
Proof.
  intros Hrun. unfold replay_predecessor in Hrun. go_cases Hrun; simplify_eq; simpl;
    rewrite <- ?app_assoc; (eexists; split; [reflexivity|]); simpl;
    rewrite ?Z.add_0_r, ?uint_add_mod; eauto 10.
Qed.

(** The whole loop: unless the executor panics, every predecessor gets
    its turn, whatever happened to the ones before it, and the log
    index advances by the logs of all executions. *)
Lemma replay_predecessors_journal (signer : Signer) (predecessors : list MsgEthereumTx) :
  forall (i : Z) (txConfig : TxConfig) (w w' : World Store Transaction) o,
    replay_predecessors k cfg signer i predecessors txConfig w = (o, w') ->
    exists evs,
      journal w' = journal w ++ evs /\
      match o with
      | Returned txConfig' =>
          existsb panics evs = false /\
          omap created evs = map (AsTransaction k) predecessors /\
          LogIndex txConfig' mod uint64_modulus
          = (LogIndex txConfig + emitted_logs evs) mod uint64_modulus
      | Panicked p => existsb panics evs = true
      end.
Proof.
  induction predecessors as [|tx rest IH]; intros i txConfig w w' o Hrun.
  - inversion Hrun; subst. exists []. rewrite app_nil_r, Z.add_0_r. auto.
  - cbn [replay_predecessors] in Hrun. unfold bind in Hrun.
    destruct (replay_predecessor k cfg signer i tx txConfig w) as [o1 w1] eqn:E1.
    apply replay_predecessor_journal in E1 as (evs1 & Hj1 & Hc1 & _ & Ho1).
    destruct o1 as [txConfig1|p].
    + destruct Ho1 as (Hp1 & Hl1 & _).
      apply IH in Hrun as (evs2 & Hj2 & Ho2).
      exists (evs1 ++ evs2). rewrite Hj2, Hj1, <- app_assoc. split; [done|].
      rewrite existsb_app, Hp1. destruct o as [txConfig'|p]; [|by rewrite Ho2].
      destruct Ho2 as (Hp2 & Hc2 & Hl2). rewrite Hp2, omap_app, Hc1, Hc2.
      repeat split. rewrite Hl2, emitted_logs_app, Z.add_assoc.
      rewrite (Z.add_mod (LogIndex txConfig1)), Hl1, <- Z.add_mod; done.
    + inversion Hrun; subst. exists evs1. by destruct Ho1.
Qed.

(** C4.  After the predecessors were replayed, the trace of the target
    reports as next log index the logs of the predecessors' executions
    plus the logs of the target.  A predecessor that does not convert or
    whose execution fails has no logs; aspect contexts were created for
    every predecessor and for the target, in order: the replay went on
    after each of them. *)
Theorem trace_target_next_log_index (req : QueryTraceTxRequest)
    (w w' : World Store Transaction) (result : option TraceValue) (next : Z)
    (err : option error) :
  trace_target k c cfg req w = (Returned (result, next, err), w') ->
  exists evs_p evs_t,
    journal w' = journal w ++ evs_p ++ evs_t /\
    omap created evs_p = map (AsTransaction k) (tr_Predecessors req) /\
    omap created evs_t = [AsTransaction k (tr_Msg req)] /\
    existsb panics (evs_p ++ evs_t) = false /\
    (err = None ->
     emitted_logs evs_p + emitted_logs evs_t < uint64_modulus ->
     next = emitted_logs evs_p + emitted_logs evs_t).
Proof.
  unfold trace_target, bind. intros Hrun.
  destruct (replay_predecessors k cfg (MakeSigner cfg c) 0 (tr_Predecessors req)
              (NewEmptyTxConfig (ctx_HeaderHash c)) w) as [[txConfig|p] w1] eqn:E1;
    [|discriminate].
  apply replay_predecessors_journal in E1 as (evs_p & Hj1 & Hp1 & Hc1 & Hl1).
  apply traceTx_journal in Hrun as (evs_t & Hj2 & Hc2 & _ & _ & Ho).
  exists evs_p, evs_t. rewrite Hj2, Hj1, <- app_assoc. split; [done|].
  split; [done|]. split; [done|]. rewrite existsb_app, Hp1.
  destruct err as [e|].
  - destruct Ho as (-> & _). split; [done|]. discriminate.
  - destruct Ho as (-> & _ & ->). split; [done|]. intros _ Hbound.
    pose proof (emitted_logs_nonneg evs_p). pose proof (emitted_logs_nonneg evs_t).
    unfold uint_add.
    replace (LogIndex _) with (LogIndex txConfig) by (by case_match).
    rewrite Z.add_mod, Hl1, <- Z.add_mod by discriminate. simpl.
    apply Z.mod_small. lia.
Qed.

(** Errors of predecessors do not end the replay: only a panic of the
    executor keeps [TraceTx] from reaching the trace of the target. *)
Lemma trace_target_panics_only_with_executor (req : QueryTraceTxRequest)
    (w w' : World Store Transaction) (p : PanicValue) :
  trace_target k c cfg req w = (Panicked p, w') ->
  exists evs, journal w' = journal w ++ evs /\ existsb panics evs = true.
Proof.
  unfold trace_target, bind. intros Hrun.
  destruct (replay_predecessors k cfg (MakeSigner cfg c) 0 (tr_Predecessors req)
              (NewEmptyTxConfig (ctx_HeaderHash c)) w) as [[txConfig|p1] w1] eqn:E1.
  - apply replay_predecessors_journal in E1 as (evs_p & Hj1 & Hp1 & _).
    apply traceTx_journal in Hrun as (evs_t & Hj2 & _ & _ & _ & Ho).
    exists (evs_p ++ evs_t). rewrite Hj2, Hj1, <- app_assoc, existsb_app, Ho.
    split; [done|]. apply orb_true_r.
  - inversion Hrun; subst.
    apply replay_predecessors_journal in E1 as (evs_p & Hj1 & Hp1). eauto.
Qed.

(** [traceTx] and a gas probe destroy their aspect context in a
    deferred function, so it is not alive afterwards, panic or not. *)
Lemma traceTx_destroys (signer : Signer) (txConfig : TxConfig) (tx : Transaction)
    (traceConfig : option TraceConfig) (commitMessage : bool)
    (json : option bytes) (w : World Store Transaction) :
  nextAspect w ∉
    liveAspects (snd (traceTx k c cfg txConfig signer tx traceConfig commitMessage json w)).
Proof.
  destruct (traceTx k c cfg txConfig signer tx traceConfig commitMessage json w)
    as [o w'] eqn:E.
  apply traceTx_journal in E as (evs & _ & _ & _ & Hlive & _). simpl.
  rewrite Hlive, list_elem_of_filter. tauto.
Qed.

Lemma executable_destroys (txConfig : TxConfig) (txMsg : MsgEthereumTx)
    (msg : Message) (icv : bool) (gas : Z) (w : World Store Transaction) :
  nextAspect w ∉ liveAspects (snd (executable k cfg txConfig txMsg msg icv gas w)).
Proof.
  rewrite executable_run. simpl. rewrite list_elem_of_filter. tauto.
Qed.

(** [EthCall] leaves no aspect context alive either: every context
    that is alive after the call was alive before it. *)
Lemma EthCall_destroys (req : option EthCallRequest) (w : World Store Transaction) :
  forall id, id ∈ liveAspects (snd (EthCall k c req w)) -> id ∈ liveAspects w.
Proof.
  intros id. destruct (EthCall k c req w) as [o w'] eqn:Hrun. simpl.
  unfold EthCall, defer_recover in Hrun.
  go_cases Hrun; simplify_eq; simpl; try done;
    rewrite list_elem_of_filter, elem_of_cons; tauto.
Qed.

(** C6.  The loop over the predecessors destroys the aspect context by
    hand before each [continue] and at the end of a round, and defers
    nothing: when the executor panics in a round, the panic leaves
    [TraceTx] with the aspect context of that round alive. *)
Theorem replay_predecessor_panic_leaks (signer : Signer) (i : Z) (tx : MsgEthereumTx)
    (txConfig : TxConfig) (w : World Store Transaction) (msg : Message)
    (p : PanicValue) (s' : Store) :
  ToMessage k (AsTransaction k tx) signer (cfg_BaseFee cfg) = inr msg ->
  executor k (store w) msg (Some NewNoOpTracer) true cfg
    (with_Tx txConfig (tx_Hash k (AsTransaction k tx)) i)
    (isCustomizedVerification k (AsTransaction k tx)) = (ApplyPanic p, s') ->
  exists w',
    replay_predecessor k cfg signer i tx txConfig w = (Panicked p, w') /\
    nextAspect w ∈ liveAspects w'.
Proof.
  intros Hmsg Hpanic. unfold replay_predecessor, bind, WithAspectContext.
  rewrite Hmsg. unfold ApplyMessageWithConfig. simpl. rewrite Hpanic.
  eexists. split; [reflexivity|]. simpl. apply list_elem_of_here.
Qed.

End TraceFacts.

(** Predecessors 1 and 3 emit one and three logs, predecessor 2 fails
    in the executor and predecessor -5 does not convert; the target 4
    emits four logs and its trace reports 8 as next log index. *)
Lemma trace_target_next_log_index_sample :
  exists result w',
    trace_target (Sample.keeper Sample.by_number) Sample.ctx Sample.config
      (Sample.trace_request [1; 2; -5; 3] 4) Sample.world
    = (Returned (result, 8, None), w').
Proof.
  destruct (trace_target (Sample.keeper Sample.by_number) Sample.ctx Sample.config
              (Sample.trace_request [1; 2; -5; 3] 4) Sample.world)
    as [[[[result next] err]|p] w'] eqn:Hrun; [|discriminate].
  assert (Herr : err = None) by (vm_compute in Hrun; congruence).
  destruct (trace_target_next_log_index _ _ _ _ _ _ _ _ _ Hrun)
    as (evs_p & evs_t & Hj & _ & _ & _ & Hnext).
  assert (Hlogs : emitted_logs evs_p + emitted_logs evs_t = 8).
  { rewrite <- emitted_logs_app.
    replace (evs_p ++ evs_t) with (journal w') by exact Hj.
    vm_compute in Hrun. by simplify_eq. }
  exists result, w'. rewrite Hnext; [by rewrite Hlogs, Herr|done|by rewrite Hlogs].
Defined.

(** A predecessor on which the executor panics: its aspect context is
    alive when the panic leaves the round. *)
Lemma replay_predecessor_panic_leaks_sample :
  exists w',
    replay_predecessor (Sample.keeper Sample.panics_on_9) Sample.config
      (MakeSigner Sample.config Sample.ctx) 0 9 (NewEmptyTxConfig 0) Sample.world
    = (Panicked "invalid memory address", w') /\
    nextAspect Sample.world ∈ liveAspects w'.
Proof.
  eapply (replay_predecessor_panic_leaks (Sample.keeper Sample.panics_on_9));
    reflexivity.
Defined.

(** The same for the whole handler: [TraceTx] with that predecessor
    panics, and the aspect context 0 outlives the call. *)
Lemma TraceTx_predecessor_panic_sample :
  let run := TraceTx (Sample.keeper Sample.panics_on_9) Sample.ctx
               (Some (Sample.trace_request [9] 1)) Sample.world in
  fst run = Panicked "invalid memory address" /\
  liveAspects (snd run) = [0%nat] /\
  liveAspects Sample.world = [].
Proof. repeat split; vm_compute; reflexivity. Qed.

(** ** Block traces *)

Section TraceBlockFacts.

Context {Store MsgEthereumTx Transaction TraceValue : Type}.
Variable k : @Keeper Store MsgEthereumTx Transaction TraceValue.
Variables (c : Context) (cfg : EVMConfig).

(** The executor does not panic. *)
Hypothesis Hno_panic :
  forall s msg tracer commit cfg txConfig icv p,
    fst (executor k s msg tracer commit cfg txConfig icv) <> ApplyPanic p.

Lemma traceTx_returns (signer : Signer) (txConfig : TxConfig) (tx : Transaction)
    (traceConfig : option TraceConfig) (commitMessage : bool)
    (json : option bytes) (w : World Store Transaction) :
  exists v next err w',
    traceTx k c cfg txConfig signer tx traceConfig commitMessage json w
    = (Returned (v, next, err), w').
Proof.
  destruct (traceTx k c cfg txConfig signer tx traceConfig commitMessage json w)
    as [[[[v next] err]|p] w'] eqn:Hrun; [by eauto|].
  exfalso. unfold traceTx in Hrun. go_cases Hrun; simplify_eq;
    match goal with
    | H : executor _ _ _ _ _ _ _ _ = (ApplyPanic _, _) |- _ =>
        eapply Hno_panic; rewrite H; reflexivity
    end.
Qed.

Lemma status_Error_not_empty (code : codes) (m : string) :
  error_Error (status_Error code m) <> EmptyString.
Proof. discriminate. Qed.

(** The loop over the transactions of a block adds one entry per
    transaction, in order, whether its trace fails or not. *)
Lemma trace_block_txs_results (signer : Signer) (traceConfig : option TraceConfig)
    (txs : list MsgEthereumTx) :
  forall (i : Z) (txConfig : TxConfig) (results : list (TxTraceResult TraceValue))
         (w : World Store Transaction),
  exists rs w',
    trace_block_txs k c cfg signer traceConfig i txs txConfig results w
    = (Returned (results ++ rs), w') /\
    length rs = length txs /\
    traced_entries k c cfg signer traceConfig i txs txConfig w rs w'.
Proof.
  induction txs as [|tx rest IH]; intros i txConfig results w.
  - exists [], w. rewrite app_nil_r. by repeat split.
  - cbn [trace_block_txs]. unfold bind.
    set (txConfig1 := with_Tx txConfig (tx_Hash k (AsTransaction k tx)) i).
    destruct (traceTx_returns signer txConfig1 (AsTransaction k tx) traceConfig
                true None w) as (v & next & err & w1 & Hrun).
    rewrite Hrun.
    pose proof (traceTx_journal k c cfg _ _ _ _ _ _ _ _ _ Hrun)
      as (evs & _ & _ & _ & _ & Ho).
    destruct err as [e|].
    + destruct Ho as (_ & _ & _ & code & m & ->).
      destruct (IH (i + 1) txConfig1
                  (results ++ [ {| Result := None;
                                   Error := error_Error (status_Error code m) |} ]) w1)
        as (rs & w' & -> & Hlen & Hall).
      eexists (_ :: rs), w'. rewrite <- app_assoc. split; [reflexivity|].
      split; [simpl; by rewrite Hlen|].
      exists txConfig1, w1. split; [|exact Hall].
      exists v, next, (Some (status_Error code m)). split; [exact Hrun|].
      by repeat split.
    + destruct Ho as (_ & (val & ->) & _).
      destruct (IH (i + 1) (with_LogIndex txConfig1 next)
                  (results ++ [ {| Result := Some val; Error := EmptyString |} ]) w1)
        as (rs & w' & -> & Hlen & Hall).
      eexists (_ :: rs), w'. rewrite <- app_assoc. split; [reflexivity|].
      split; [simpl; by rewrite Hlen|].
      exists (with_LogIndex txConfig1 next), w1. split; [|exact Hall].
      exists (Some val), next, None. split; [exact Hrun|]. repeat split. by exists val.
Qed.

End TraceBlockFacts.

Section TraceBlockHandler.

Context {Store MsgEthereumTx Transaction TraceValue : Type}.
Variable k : @Keeper Store MsgEthereumTx Transaction TraceValue.
Variables (c : Context) (req : @QueryTraceBlockRequest MsgEthereumTx).
Variables (w : World Store Transaction) (chainID : Z) (cfg : EVMConfig).

Abbreviation block_context :=
  (trace_context k c (tb_BlockNumber req) (tb_BlockTime req) (tb_BlockHash req)).

(** The output limit of the request is not negative, the chain id and
    the EVM configuration resolve, and the executor does not panic. *)
Hypothesis Hlimit : negative_limit (tb_TraceConfig req) = None.
Hypothesis Hchain : getChainID k block_context (tb_ChainId req) = inr chainID.
Hypothesis Hcfg :
  LoadEVMConfig k block_context
    (GetProposerAddress k block_context (tb_ProposerAddress req)) chainID
  = inr cfg.
Hypothesis Hno_panic :
  forall s msg tracer commit cfg txConfig icv p,
    fst (executor k s msg tracer commit cfg txConfig icv) <> ApplyPanic p.

(** C5.  [TraceBlock] over a list of N transactions serializes a list
    of exactly N results, one per transaction and in the same order.
    Every entry is what [traceTx] returned for its transaction in this
    run, in the world that the transactions before it left: the entry
    of a transaction whose trace fails holds the error string, the
    entry of every other transaction holds its trace.  No failure of a
    transaction ends the loop. *)
Theorem TraceBlock_one_result_per_transaction :
  exists (rs : list (TxTraceResult TraceValue)) (w' : World Store Transaction),
    TraceBlock k c (Some req) w =
    (Returned
       match json_Marshal_results k rs with
       | inl err => (None, Some (status_Error Internal (error_Error err)))
       | inr resultData => (Some resultData, None)
       end, w') /\
    length rs = length (tb_Txs req) /\
    traced_entries k block_context cfg (MakeSigner cfg block_context)
      (tb_TraceConfig req) 0 (tb_Txs req)
      (NewEmptyTxConfig (ctx_HeaderHash block_context)) w rs w'.
Proof.
  destruct (trace_block_txs_results k block_context cfg Hno_panic
              (MakeSigner cfg block_context) (tb_TraceConfig req) (tb_Txs req)
              0 (NewEmptyTxConfig (ctx_HeaderHash block_context)) [] w)
    as (rs & w' & Hrun & Hlen & Hall).
  exists rs, w'. split; [|split; [exact Hlen|exact Hall]].
  unfold TraceBlock. rewrite Hlimit, Hchain, Hcfg. unfold bind, trace_block.
  rewrite Hrun. simpl. by destruct (json_Marshal_results k rs).
Qed.

End TraceBlockHandler.

(** A block of three transactions of which the second fails. *)
Lemma TraceBlock_one_result_per_transaction_sample :
  exists (rs : list (TxTraceResult string)) (w' : World Z Z),
    TraceBlock (Sample.keeper Sample.by_number) Sample.ctx
      (Some (Sample.block_request [1; 2; 3])) Sample.world
    = (Returned (Some [], None), w') /\
    length rs = 3%nat /\
    traced_entries (Sample.keeper Sample.by_number)
      (trace_context (Sample.keeper Sample.by_number) Sample.ctx 11 0 "00")
      Sample.config
      (MakeSigner Sample.config
         (trace_context (Sample.keeper Sample.by_number) Sample.ctx 11 0 "00"))
      None 0 [1; 2; 3]
      (NewEmptyTxConfig
         (ctx_HeaderHash
            (trace_context (Sample.keeper Sample.by_number) Sample.ctx 11 0 "00")))
      Sample.world rs w'.
Proof.
  apply (TraceBlock_one_result_per_transaction (Sample.keeper Sample.by_number)
           Sample.ctx (Sample.block_request [1; 2; 3]) Sample.world 11820
           Sample.config).
  - reflexivity.
  - reflexivity.
  - reflexivity.
  - intros s msg tracer commit cfg txConfig icv p. simpl. unfold Sample.by_number.
    destruct (Nonce msg =? 2); discriminate.
Defined.

Lemma trace_block_partial_failure_sample :
  fst (trace_block (Sample.keeper Sample.by_number) Sample.ctx Sample.config
         (Sample.block_request [1; 2; 3]) Sample.world)
  = Returned
      [ {| Result := Some "structLogs"; Error := EmptyString |};
        {| Result := None;
           Error := "rpc error: code = Internal desc = nonce too low" |};
        {| Result := Some "structLogs"; Error := EmptyString |} ].
Proof. vm_compute. reflexivity. Qed.

(** ** Simulated calls *)

Section EthCallFacts.

Context {Store MsgEthereumTx Transaction TraceValue : Type}.
Variable k : @Keeper Store MsgEthereumTx Transaction TraceValue.
Variables (c : Context) (req : EthCallRequest) (w : World Store Transaction).
Variables (chainID : Z) (args : TransactionArgs) (cfg : EVMConfig) (msg : Message).

Hypothesis Hargs : json_Unmarshal k (req_Args req) = inr args.
Hypothesis Hchain : getChainID k c (req_ChainId req) = inr chainID.
Hypothesis Hcfg :
  LoadEVMConfig k c (GetProposerAddress k c (req_ProposerAddress req)) chainID
  = inr cfg.
Hypothesis Hmsg :
  args_ToMessage k (with_Nonce args (GetNonce k (store w) (args_From args)))
    (req_GasCap req) (cfg_BaseFee cfg) = inr msg.

(** C7.  When the execution of [EthCall] panics, the deferred function
    recovers the panic and logs it, after the aspect context was
    destroyed; the call then returns without a response and without an
    error. *)
Theorem EthCall_panic_returns_nil (p : PanicValue) (s' : Store) :
  executor k (store w) msg None false cfg (NewEmptyTxConfig (ctx_HeaderHash c))
    (0 <? len (args_ValidationData args)) = (ApplyPanic p, s') ->
  exists w',
    EthCall k c (Some req) w = (Returned (None, None), w') /\
    last (journal w') = Some (EvLogError "EthCall panic" p) /\
    nextAspect w ∉ liveAspects w'.
Proof.
  intros Hpanic. unfold EthCall, defer_recover. rewrite Hargs, Hchain, Hcfg.
  cbv zeta. rewrite Hmsg.
  unfold bind, defer, WithAspectContext, ApplyMessageWithConfig. simpl.
  rewrite Hpanic. simpl. eexists. split; [reflexivity|]. simpl. split.
  - by rewrite last_snoc.
  - rewrite list_elem_of_filter. tauto.
Qed.

End EthCallFacts.

(** A call on an executor that panics. *)
Lemma EthCall_panic_returns_nil_sample :
  exists w',
    EthCall (Sample.keeper Sample.always_panics) Sample.ctx
      (Some (Sample.call 100000)) Sample.world
    = (Returned (None, None), w') /\
    last (journal w') = Some (EvLogError "EthCall panic" "invalid memory address") /\
    nextAspect Sample.world ∉ liveAspects w'.
Proof.
  eapply (EthCall_panic_returns_nil (Sample.keeper Sample.always_panics) Sample.ctx
            (Sample.call 100000) Sample.world 11820); reflexivity.
Defined.

(** The other handlers have no [recover]: a panic of the executor
    leaves them as a panic. *)
Lemma handlers_without_recover_sample :
  fst (EstimateGas (Sample.keeper Sample.always_panics) Sample.ctx
         (Some (Sample.call 100000)) Sample.world)
  = Panicked "invalid memory address" /\
  fst (TraceTx (Sample.keeper Sample.always_panics) Sample.ctx
         (Some (Sample.trace_request [] 1)) Sample.world)
  = Panicked "invalid memory address" /\
  fst (TraceBlock (Sample.keeper Sample.always_panics) Sample.ctx
         (Some (Sample.block_request [1; 2; 3])) Sample.world)
  = Panicked "invalid memory address".
Proof. repeat split; vm_compute; reflexivity. Qed.

(** ** Base fee *)

Section BaseFeeFacts.

Variables EventTypeFee AttributeKeyBaseFee : string.
Variable queryBaseFee : Z -> error + QueryBaseFeeResponse.

Abbreviation reverse := (scan_reverse EventTypeFee).
Abbreviation forward := (scan_forward_last EventTypeFee).

Lemma scan_reverse_app (events more : list abci_Event) (n : nat) :
  (n <= length events)%nat -> reverse (events ++ more) n = reverse events n.
Proof.
  induction n as [|n IH]; intros Hn; [reflexivity|]. simpl.
  rewrite lookup_app_l by lia. rewrite IH by lia. reflexivity.
Qed.

Lemma scan_reverse_snoc (events : list abci_Event) (evt : abci_Event) :
  reverse (events ++ [evt]) (length (events ++ [evt])) =
  if sets_fee EventTypeFee evt then parse_fee evt
  else reverse events (length events).
Proof.
  rewrite length_app, Nat.add_comm. simpl.
  rewrite list_lookup_middle by reflexivity.
  by rewrite scan_reverse_app.
Qed.

Lemma scan_reverse_forward (events : list abci_Event) :
  reverse events (length events) = forward events.
Proof.
  induction events as [|evt events IH] using rev_ind; [reflexivity|].
  rewrite scan_reverse_snoc. unfold scan_forward_last.
  rewrite fold_left_app. simpl. by rewrite IH.
Qed.

(** C9.  Scanning the events from the last to the first and stopping
    at the first event that sets the fee gives what a scan from the
    first to the last gives that keeps the value at the latest such
    event; the fallback of [BaseFee] can be read either way. *)
Theorem reverse_scan_is_forward_scan_last :
  (forall events : list abci_Event, reverse events (length events) = forward events) /\
  (forall blockRes : ResultBlockResults,
     fst (BaseFee EventTypeFee queryBaseFee blockRes) =
     match queryBaseFee (Height blockRes) with
     | inr {| res_BaseFee := Some baseFee |} => Some baseFee
     | _ => forward (FinalizeBlockEvents blockRes)
     end).
Proof.
  split; [exact scan_reverse_forward|].
  intros blockRes. unfold BaseFee. rewrite scan_reverse_forward.
  destruct (queryBaseFee (Height blockRes)) as [err|[[baseFee|]]]; simpl;
    by destruct (forward (FinalizeBlockEvents blockRes)).
Qed.

(** What [ParseInt] accepts, [SetString] reads as the same number. *)
Lemma ParseInt_SetString (s : string) (v : Z) :
  ParseInt s = Some v -> SetString s = Some v.
Proof.
  unfold ParseInt, SetString. destruct (split_sign s) as [neg digits].
  destruct (ParseUint digits) as [un|]; [|discriminate].
  destruct neg; case_match; congruence.
Qed.

Lemma forward_skips (events : list abci_Event) (found : option Z) :
  Forall (fun evt => Type_ evt <> EventTypeFee) events ->
  fold_left (fun found evt => if sets_fee EventTypeFee evt then parse_fee evt else found)
    events found = found.
Proof.
  intros Hall. revert found. induction Hall as [|evt events Hevt _ IH]; intros found;
    [reflexivity|].
  simpl. unfold sets_fee at 2. apply String.eqb_neq in Hevt as ->. apply IH.
Qed.

Lemma BaseFeeFromEvents_skips (events more : list abci_Event) :
  Forall (fun evt => Type_ evt <> EventTypeFee) events ->
  BaseFeeFromEvents EventTypeFee AttributeKeyBaseFee (events ++ more)
  = BaseFeeFromEvents EventTypeFee AttributeKeyBaseFee more.
Proof.
  induction 1 as [|evt events Hevt _ IH]; [reflexivity|].
  simpl. by apply String.eqb_neq in Hevt as ->.
Qed.

(** X26.  When a block has one event of the fee type, and that event starts
    with a base-fee attribute whose value fits 64 bits, the scan of
    [BaseFee] and [BaseFeeFromEvents] find the same base fee. *)
Lemma BaseFeeFromEvents_agrees_on_single_event
    (before after : list abci_Event) (evt : abci_Event) (attr : EventAttribute)
    (rest : list EventAttribute) (v : Z) :
  Forall (fun evt => Type_ evt <> EventTypeFee) (before ++ after) ->
  Type_ evt = EventTypeFee ->
  Attributes evt = attr :: rest ->
  Key attr = AttributeKeyBaseFee ->
  ParseInt (Value attr) = Some v ->
  let events := before ++ evt :: after in
  reverse events (length events) = Some v /\
  BaseFeeFromEvents EventTypeFee AttributeKeyBaseFee events = Some v.
Proof.
  intros Hothers Htype Hattrs Hkey Hparse events.
  apply Forall_app in Hothers as [Hbefore Hafter]. split.
  - rewrite scan_reverse_forward. unfold events, scan_forward_last.
    rewrite fold_left_app, (forward_skips before) by assumption. simpl.
    rewrite (forward_skips after) by assumption.
    unfold sets_fee, parse_fee. rewrite Htype, String.eqb_refl, Hattrs. simpl.
    exact Hparse.
  - unfold events. rewrite BaseFeeFromEvents_skips by assumption. simpl.
    rewrite Htype, String.eqb_refl, Hattrs. simpl.
    rewrite Hkey, String.eqb_refl. simpl. by apply ParseInt_SetString.
Qed.

(** C3, as the program has it.  When the query gives a response
    without a base fee and the scan finds no value, the base fee is nil
    and there is no error; when the query itself failed, its error is
    returned with the nil base fee. *)
Theorem BaseFee_nil_when_nothing_found (blockRes : ResultBlockResults) :
  reverse (FinalizeBlockEvents blockRes) (length (FinalizeBlockEvents blockRes))
  = None ->
  (queryBaseFee (Height blockRes) = inr {| res_BaseFee := None |} ->
   BaseFee EventTypeFee queryBaseFee blockRes = (None, None)) /\
  (forall err, queryBaseFee (Height blockRes) = inl err ->
   BaseFee EventTypeFee queryBaseFee blockRes = (None, Some err)).
Proof.
  intros Hscan. unfold BaseFee. rewrite Hscan.
  split; [intros ->|intros err ->]; reflexivity.
Qed.

End BaseFeeFacts.

(** The query fails and the block has no events: no value on either
    side, and the base fee comes with the error of the query. *)
Lemma BaseFee_query_error_is_returned :
  let blockRes := {| Height := 5; FinalizeBlockEvents := [] |} in
  (forall res, Sample.query_fails (Height blockRes) <> inr res) /\
  scan_reverse "fee" (FinalizeBlockEvents blockRes)
    (length (FinalizeBlockEvents blockRes)) = None /\
  BaseFee "fee" Sample.query_fails blockRes
  = (None, Some (errors_New "rpc error: state pruned")) /\
  BaseFee "fee" Sample.query_fails blockRes <> (None, None).
Proof. repeat split; discriminate. Qed.

(** The query answers without a base fee, and the latest fee event of
    the block does not parse. *)
Lemma BaseFee_nil_when_nothing_found_sample :
  BaseFee "fee" Sample.query_nil
    {| Height := 5;
       FinalizeBlockEvents := [Sample.fee_event "100"; Sample.other_event;
                               Sample.fee_event "1e9"] |}
  = (None, None).
Proof.
  apply (BaseFee_nil_when_nothing_found "fee" Sample.query_nil); reflexivity.
Defined.

(** [BaseFeeFromEvents] is another scan: it stops at the first event
    of the fee type with a base-fee attribute. *)
Lemma BaseFeeFromEvents_takes_first_sample :
  let events := [Sample.fee_event "100"; Sample.other_event; Sample.fee_event "200"] in
  BaseFeeFromEvents "fee" "base_fee" events = Some 100 /\
  scan_reverse "fee" events (length events) = Some 200 /\
  scan_forward_last "fee" events = Some 200.
Proof. repeat split; reflexivity. Qed.

(** ** The dispatcher of the aspect system contract *)

Section DispatchFacts.

Import contract.

Context {AbiValue Services : Type}.
Variable ParseMethod : bytes -> error + (abi_Method * gmap string AbiValue).
Variable ErrCallContract : error.

(** C10.  The handler of a call is the one registered under the
    lower-cased name of the decoded method.  Without such a handler the
    call fails with "method ... not found" wrapped around
    [ErrCallContract], with no output and no remaining gas, and no
    handler runs; otherwise that handler runs, once and alone, on a
    context with the caller and the decoded parameters of the call. *)
Theorem applyMsg_dispatches_by_method_name
    (c : @AspectNativeContract AbiValue Services) (ctx : Context) (msg : Message)
    (gas : Z) (commit : bool) (method : abi_Method)
    (parameters : gmap string AbiValue) :
  ParseMethod (Data msg) = inr (method, parameters) ->
  (handlers c !! ToLower (method_Name method) = None ->
   applyMsg ParseMethod ErrCallContract c ctx msg gas commit =
   ([], ([], 0,
         Some (errors_Wrap ErrCallContract
                 ("method " ++ method_Name method ++ " not found")%string)))) /\
  (forall handler : Handler,
     handlers c !! ToLower (method_Name method) = Some handler ->
     exists handlerCtx : HandlerContext,
       applyMsg ParseMethod ErrCallContract c ctx msg gas commit =
       ([ {| inv_handler := Method handler; inv_context := handlerCtx;
             inv_gas := gas |} ],
        Handle handler handlerCtx gas) /\
       hc_from handlerCtx = From msg /\
       hc_parameters handlerCtx = parameters /\
       hc_abi handlerCtx = method /\
       hc_commit handlerCtx = commit).
Proof.
  intros Hparse. unfold applyMsg. rewrite Hparse. split.
  - intros ->. reflexivity.
  - intros handler ->. eexists. split; [reflexivity|]. repeat split.
Qed.

(** A handler is found under the name it was registered with. *)
Lemma register_lookup (c : @AspectNativeContract AbiValue Services)
    (handler : Handler) :
  handlers (register c handler) !! Method handler = Some handler.
Proof. unfold register; simpl. apply lookup_insert_eq. Qed.

End DispatchFacts.

(** "Deploy" goes to the handler registered as "deploy", with the
    caller and the parameters of the call; "Destroy" has no handler. *)
Lemma applyMsg_dispatches_by_method_name_sample :
  (exists handlerCtx : contract.HandlerContext,
     contract.applyMsg Sample.parse (errors_New "call contract failed")
       Sample.system_contract Sample.ctx (Sample.payload Byte.x01) 5000 true
     = ([ {| contract.inv_handler := "deploy";
             contract.inv_context := handlerCtx;
             contract.inv_gas := 5000 |} ],
        ([], 4900, None)) /\
     contract.hc_from handlerCtx = 7 /\
     contract.hc_parameters handlerCtx = {[ "code" := 1 ]}) /\
  contract.applyMsg Sample.parse (errors_New "call contract failed")
    Sample.system_contract Sample.ctx (Sample.payload Byte.x02) 5000 true
  = ([], ([], 0,
          Some (errors_Wrap (errors_New "call contract failed")
                  "method Destroy not found"))).
Proof.
  split.
  - edestruct (applyMsg_dispatches_by_method_name Sample.parse
                 (errors_New "call contract failed") Sample.system_contract
                 Sample.ctx (Sample.payload Byte.x01) 5000 true)
      as [_ Hfound]; [reflexivity|].
    destruct (Hfound (Sample.handler "deploy" 100))
      as (handlerCtx & Hrun & Hfrom & Hparams & _); [reflexivity|].
    exists handlerCtx. split; [exact Hrun|]. split; [exact Hfrom|exact Hparams].
  - edestruct (applyMsg_dispatches_by_method_name Sample.parse
                 (errors_New "call contract failed") Sample.system_contract
                 Sample.ctx (Sample.payload Byte.x02) 5000 true)
      as [Hmissing _]; [reflexivity|].
    apply Hmissing. reflexivity.
Defined.

(** * Further properties of the handlers *)

(** ** What gas estimation leaves behind *)

Section EstimateGasWorld.

Context {Store MsgEthereumTx Transaction TraceValue : Type}.
Variable k : @Keeper Store MsgEthereumTx Transaction TraceValue.

Lemma runs_within_le (cap cap' : Z) (evs : list (Event Transaction)) :
  cap <= cap' -> Forall (runs_within cap) evs -> Forall (runs_within cap') evs.
Proof.
  intros Hle Hall. eapply Forall_impl; [exact Hall|].
  intros [| |msg commit txc out| |]; simpl; try done.
  intros [-> Hgas]. split; [done|lia].
Qed.

Section Probes.

Variables (cfg : EVMConfig) (txConfig : TxConfig) (txMsg : MsgEthereumTx).
Variables (msg : Message) (icv : bool).

Abbreviation a_probe := (executable k cfg txConfig txMsg msg icv).

Lemma executable_live (gas : Z) (w : World Store Transaction) (id : nat) :
  id ∈ liveAspects (snd (a_probe gas w)) -> id ∈ liveAspects w.
Proof.
  rewrite executable_run. simpl. rewrite list_elem_of_filter, elem_of_cons.
  intros [Hne [->|Hin]]; done.
Qed.

Lemma executable_within (gas : Z) (w : World Store Transaction) :
  Forall (runs_within gas) (probe_events k cfg txConfig txMsg msg icv w gas).
Proof.
  unfold probe_events. repeat constructor. simpl. lia.
Qed.

(** A search changes neither the store nor the aspect contexts that
    are alive, and runs the message below its upper bound only. *)
Lemma BinSearch_rounds_world (n : nat) :
  forall (lo hi : Z) (w w' : World Store Transaction) o,
    BinSearch_rounds n lo hi a_probe w = (o, w') ->
    store w' = store w /\
    (forall id, id ∈ liveAspects w' -> id ∈ liveAspects w) /\
    exists evs, journal w' = journal w ++ evs /\ Forall (runs_within hi) evs.
Proof.
  induction n as [|n IH]; intros lo hi w w' o Hrun.
  - inversion Hrun; subst. repeat split; [done|]. exists []. by rewrite app_nil_r.
  - destruct (Z_lt_le_dec (lo + 1) hi) as [Hlt|Hge].
    + rewrite BinSearch_rounds_step in Hrun by assumption. cbv zeta in Hrun.
      pose proof (midpoint_between lo hi Hlt) as Hmid.
      set (mid := (hi + lo) / 2) in *.
      pose proof (executable_store k cfg txConfig txMsg msg icv mid w) as Hst.
      pose proof (executable_journal k cfg txConfig txMsg msg icv mid w) as Hj.
      pose proof (executable_within mid w) as Hin.
      apply (runs_within_le mid hi) in Hin; [|lia].
      destruct (verdict (probe k cfg txConfig msg icv (store w) mid)) as [rsp|r|e|p].
      * apply IH in Hrun as (Hs & Hl & evs & Hjr & Hw).
        split; [congruence|]. split; [intros id Hid; eapply executable_live; eauto|].
        eexists. rewrite Hjr, Hj, <- app_assoc. split; [reflexivity|].
        apply Forall_app. split; [done|]. apply (runs_within_le mid); [lia|done].
      * apply IH in Hrun as (Hs & Hl & evs & Hjr & Hw).
        split; [congruence|]. split; [intros id Hid; eapply executable_live; eauto|].
        eexists. rewrite Hjr, Hj, <- app_assoc. split; [reflexivity|].
        apply Forall_app. split; done.
      * inversion Hrun; subst. split; [done|].
        split; [intros id; apply executable_live|]. eauto.
      * inversion Hrun; subst. split; [done|].
        split; [intros id; apply executable_live|]. eauto.
    + rewrite BinSearch_rounds_done in Hrun by lia. inversion Hrun; subst.
      repeat split; [done|]. exists []. by rewrite app_nil_r.
Qed.

Lemma reject_at_cap_world' (cap v : Z) (w1 w' : World Store Transaction) o :
  reject_at_cap cap v a_probe w1 = (o, w') ->
  w' = if v =? cap then snd (a_probe v w1) else w1.
Proof.
  unfold reject_at_cap. destruct (v =? cap); unfold bind, ret.
  - destruct (a_probe v w1) as [[[[failed r] e]|p] w3]; simpl;
      repeat case_match; congruence.
  - congruence.
Qed.

(** The search and the run at the cap together. *)
Lemma estimate_world (lo cap : Z) (w w' : World Store Transaction) o :
  (let* (hi, err) := BinSearch lo cap a_probe in
   match err with
   | Some e => ret (None, Some e)
   | None => reject_at_cap cap hi a_probe
   end) w = (o, w') ->
  store w' = store w /\
  (forall id, id ∈ liveAspects w' -> id ∈ liveAspects w) /\
  exists evs, journal w' = journal w ++ evs /\ Forall (runs_within cap) evs.
Proof.
  unfold bind. intros Hrun.
  destruct (BinSearch lo cap a_probe w) as [o1 w1] eqn:Es.
  apply BinSearch_rounds_world in Es as (Hs & Hl & evs & Hj & Hw).
  destruct o1 as [[v [e|]]|p]; [by inversion Hrun; subst; eauto| |by inversion Hrun; subst; eauto].
  apply reject_at_cap_world' in Hrun. destruct (v =? cap) eqn:Ev.
  - apply Z.eqb_eq in Ev as ->. subst w'.
    rewrite executable_store, executable_journal.
    split; [done|]. split; [intros id Hid; apply Hl; eapply executable_live; eauto|].
    eexists. rewrite Hj, <- app_assoc. split; [reflexivity|].
    apply Forall_app. split; [done|apply executable_within].
  - subst w'. eauto.
Qed.

End Probes.

(** X1.  Whatever the request and whatever the executor does (also
    when it panics), [EstimateGas] leaves the store as it was and no
    aspect context alive that was not alive before. *)
Theorem EstimateGas_leaves_world_clean (c : Context) (req : option EthCallRequest)
    (w : World Store Transaction) :
  store (snd (EstimateGas k c req w)) = store w /\
  forall id, id ∈ liveAspects (snd (EstimateGas k c req w)) -> id ∈ liveAspects w.
Proof.
  destruct (EstimateGas k c req w) as [o w'] eqn:Hrun. simpl.
  unfold EstimateGas in Hrun.
  destruct req as [req|]; [|by inversion Hrun].
  destruct (getChainID k c (req_ChainId req)); [by inversion Hrun|].
  destruct (req_GasCap req <? TxGas); [by inversion Hrun|].
  destruct (json_Unmarshal k (req_Args req)) as [|args]; [by inversion Hrun|].
  cbv zeta in Hrun.
  destruct (LoadEVMConfig k c _ _) as [|cfg]; [by inversion Hrun|].
  destruct (args_ToMessage k _ _ _) as [|msg]; [by inversion Hrun|].
  apply estimate_world in Hrun as (Hs & Hl & _). done.
Qed.

(** X2.  Every execution that [EstimateGas] asks for is one that does
    not commit, with a gas limit of at most the gas cap of the request. *)
Theorem EstimateGas_runs_within_cap (c : Context) (req : EthCallRequest)
    (w : World Store Transaction) :
  exists evs,
    journal (snd (EstimateGas k c (Some req) w)) = journal w ++ evs /\
    Forall (runs_within (req_GasCap req)) evs.
Proof.
  destruct (EstimateGas k c (Some req) w) as [o w'] eqn:Hrun. simpl.
  unfold EstimateGas in Hrun.
  assert (Hnone : forall r, ret r w = (o, w') ->
            exists evs, journal w' = journal w ++ evs /\
                        Forall (runs_within (req_GasCap req)) evs).
  { intros r [= <- <-]. exists []. by rewrite app_nil_r. }
  destruct (getChainID k c (req_ChainId req)) as [|chainID] eqn:Hchain; [by eauto|].
  destruct (req_GasCap req <? TxGas) eqn:Hcap; [by eauto|].
  destruct (json_Unmarshal k (req_Args req)) as [|args] eqn:Hargs; [by eauto|].
  cbv zeta in Hrun.
  destruct (LoadEVMConfig k c _ _) as [|cfg]; [by eauto|].
  destruct (args_ToMessage k _ _ _) as [|msg]; [by eauto|].
  apply estimate_world in Hrun as (_ & _ & evs & Hj & Hw).
  exists evs. split; [done|]. eapply runs_within_le; [|exact Hw].
  apply Z.ltb_ge in Hcap. unfold effective_cap.
  destruct (req_GasCap req =? 0) eqn:E0; [apply Z.eqb_eq in E0; unfold TxGas in *; lia|].
  simpl. destruct (req_GasCap req <? highest_allowance c args req) eqn:E; [lia|].
  apply Z.ltb_ge in E. lia.
Qed.

End EstimateGasWorld.

(** ** Simulated calls and traces *)

Section EthCallResult.

Context {Store MsgEthereumTx Transaction TraceValue : Type}.
Variable k : @Keeper Store MsgEthereumTx Transaction TraceValue.
Variables (c : Context) (req : EthCallRequest) (w : World Store Transaction).
Variables (chainID : Z) (args : TransactionArgs) (cfg : EVMConfig) (msg : Message).

Hypothesis Hargs : json_Unmarshal k (req_Args req) = inr args.
Hypothesis Hchain : getChainID k c (req_ChainId req) = inr chainID.
Hypothesis Hcfg :
  LoadEVMConfig k c (GetProposerAddress k c (req_ProposerAddress req)) chainID
  = inr cfg.
Hypothesis Hmsg :
  args_ToMessage k (with_Nonce args (GetNonce k (store w) (args_From args)))
    (req_GasCap req) (cfg_BaseFee cfg) = inr msg.

(** X3.  On a request that passes its checks, [EthCall] runs the
    message once, without tracer and without commit, between the
    creation and the destruction of its aspect context.  It returns the
    response of the executor as it is, and an error of the executor as
    an [Internal] status with the message of the error. *)
Theorem EthCall_returns_executor_result (out : ApplyOutcome) (s' : Store) :
  executor k (store w) msg None false cfg (NewEmptyTxConfig (ctx_HeaderHash c))
    (0 <? len (args_ValidationData args)) = (out, s') ->
  (forall p, out <> ApplyPanic p) ->
  exists w',
    EthCall k c (Some req) w =
    (Returned match out with
              | ApplyOk rsp => (Some rsp, None)
              | ApplyErr e => (None, Some (status_Error Internal (error_Error e)))
              | ApplyPanic _ => (None, None)
              end, w') /\
    store w' = s' /\
    journal w' =
      journal w ++
      [ EvCreate (nextAspect w)
          (AsEthCallTransaction k
             (args_ToTransaction k
                (with_Nonce args (GetNonce k (store w) (args_From args)))));
        EvApply msg false (NewEmptyTxConfig (ctx_HeaderHash c)) out;
        EvDestroy (nextAspect w) ].
Proof.
  intros Hout Hnp. unfold EthCall, defer_recover. rewrite Hargs, Hchain, Hcfg.
  cbv zeta. rewrite Hmsg.
  unfold bind, defer, WithAspectContext, ApplyMessageWithConfig. simpl.
  rewrite Hout. simpl.
  destruct out as [rsp|e|p]; [| |by destruct (Hnp p)]; simpl;
    (eexists; split; [reflexivity|]; simpl; split; [done|];
     rewrite <- ?app_assoc; reflexivity).
Qed.

End EthCallResult.

Lemma EthCall_returns_executor_result_sample :
  exists w',
    EthCall (Sample.keeper Sample.by_number) Sample.ctx (Some (Sample.call 100000))
      Sample.world
    = (Returned (Some (Sample.response 0 EmptyString), None), w') /\
    store w' = 1 /\
    journal w' =
      [ EvCreate 0%nat 0;
        EvApply (Sample.message 0 100000) false (NewEmptyTxConfig 0)
          (ApplyOk (Sample.response 0 EmptyString));
        EvDestroy 0%nat ].
Proof.
  apply (EthCall_returns_executor_result (Sample.keeper Sample.by_number) Sample.ctx
           (Sample.call 100000) Sample.world 11820
           {| args_From := 7; args_Gas := None; args_Nonce := None;
              args_Input := []; args_ValidationData := [] |}
           Sample.config (Sample.message 0 100000)
           eq_refl eq_refl eq_refl eq_refl
           (ApplyOk (Sample.response 0 EmptyString)) 1 eq_refl).
  intros p. discriminate.
Defined.

Section TraceWorld.

Context {Store MsgEthereumTx Transaction TraceValue : Type}.
Variable k : @Keeper Store MsgEthereumTx Transaction TraceValue.
Variables (c : Context) (cfg : EVMConfig).

(** X4.  A trace that is not to be committed leaves the store as it
    was on every exit path, whatever the executor did to its cache. *)
Theorem traceTx_without_commit_keeps_store (signer : Signer) (txConfig : TxConfig)
    (tx : Transaction) (traceConfig : option TraceConfig) (json : option bytes)
    (w : World Store Transaction) :
  store (snd (traceTx k c cfg txConfig signer tx traceConfig false json w)) = store w.
Proof.
  destruct (traceTx k c cfg txConfig signer tx traceConfig false json w)
    as [o w'] eqn:Hrun.
  unfold traceTx in Hrun. go_cases Hrun; by simplify_eq.
Qed.

(** X5.  A trace that is to be committed writes its cache back on every
    exit path: after the trace, after an error of the conversion, of the
    tracer lookup, of the executor or of the result, and after a panic.
    The commit is the last thing before the aspect context is
    destroyed. *)
Theorem traceTx_commits_on_every_exit (signer : Signer) (txConfig : TxConfig)
    (tx : Transaction) (traceConfig : option TraceConfig) (json : option bytes)
    (w : World Store Transaction) :
  exists evs,
    journal (snd (traceTx k c cfg txConfig signer tx traceConfig true json w))
    = journal w ++ EvCreate (nextAspect w) tx :: evs
        ++ [EvCommit; EvDestroy (nextAspect w)] /\
    Forall (fun ev => ev <> EvCommit) evs.
Proof.
  destruct (traceTx k c cfg txConfig signer tx traceConfig true json w)
    as [o w'] eqn:Hrun.
  unfold traceTx in Hrun. go_cases Hrun; simplify_eq; simpl; rewrite <- ?app_assoc; simpl;
    first [ by exists []
          | eexists [_]; split; [reflexivity|]; by repeat constructor ].
Qed.

End TraceWorld.

Section TraceIndex.

Context {Store MsgEthereumTx Transaction TraceValue : Type}.
Variable k : @Keeper Store MsgEthereumTx Transaction TraceValue.
Variables (c : Context) (cfg : EVMConfig).

(** The predecessor converts to a message. *)
Abbreviation converts signer :=
  (fun tx : MsgEthereumTx =>
     exists m, ToMessage k (AsTransaction k tx) signer (cfg_BaseFee cfg) = inr m).

Lemma replay_predecessor_index (signer : Signer) (i : Z) (tx : MsgEthereumTx)
    (txConfig txConfig' : TxConfig) (w w' : World Store Transaction) :
  converts signer tx ->
  replay_predecessor k cfg signer i tx txConfig w = (Returned txConfig', w') ->
  BlockHash txConfig' = BlockHash txConfig /\ TxIndex txConfig' = i.
Proof.
  intros [m Hm] Hrun. unfold replay_predecessor in Hrun. rewrite Hm in Hrun.
  go_cases Hrun; by simplify_eq.
Qed.

Lemma replay_predecessors_index (signer : Signer) (predecessors : list MsgEthereumTx) :
  forall (i : Z) (txConfig txConfig' : TxConfig) (w w' : World Store Transaction),
    Forall (converts signer) predecessors ->
    replay_predecessors k cfg signer i predecessors txConfig w
    = (Returned txConfig', w') ->
    BlockHash txConfig' = BlockHash txConfig /\
    TxIndex txConfig' =
      if 0 <? len predecessors then i + len predecessors - 1 else TxIndex txConfig.
Proof.
  induction predecessors as [|tx rest IH]; intros i txConfig txConfig' w w' Hall Hrun.
  - by inversion Hrun.
  - apply Forall_cons in Hall as [Htx Hrest].
    cbn [replay_predecessors] in Hrun. unfold bind in Hrun.
    destruct (replay_predecessor k cfg signer i tx txConfig w)
      as [[txConfig1|p] w1] eqn:E1; [|discriminate].
    apply replay_predecessor_index in E1 as [Hb1 Hi1]; [|done].
    apply IH in Hrun as [Hb Hi]; [|done]. split; [congruence|].
    rewrite Hi. unfold len. simpl length.
    destruct rest; simpl; [rewrite Hi1|]; lia.
Qed.

(** X6.  When every predecessor converts to a message, [TraceTx] traces
    its target with the block hash of the context, the hash of the
    target and the number of predecessors as transaction index, on the
    log index the replay arrived at, and without commit. *)
Theorem TraceTx_target_config (req : QueryTraceTxRequest)
    (w w1 : World Store Transaction) (txConfig : TxConfig) :
  Forall (converts (MakeSigner cfg c)) (tr_Predecessors req) ->
  replay_predecessors k cfg (MakeSigner cfg c) 0 (tr_Predecessors req)
    (NewEmptyTxConfig (ctx_HeaderHash c)) w = (Returned txConfig, w1) ->
  exists json,
    trace_target k c cfg req w =
    traceTx k c cfg
      {| BlockHash := ctx_HeaderHash c;
         TxHash := tx_Hash k (AsTransaction k (tr_Msg req));
         TxIndex := len (tr_Predecessors req) mod uint64_modulus;
         LogIndex := LogIndex txConfig |}
      (MakeSigner cfg c) (AsTransaction k (tr_Msg req)) (tr_TraceConfig req)
      false json w1.
Proof.
  intros Hall Hrun. unfold trace_target, bind. rewrite Hrun.
  apply replay_predecessors_index in Hrun as [Hb Hi]; [|done].
  eexists. f_equal. unfold with_Tx. simpl in Hb.
  destruct (0 <? len (tr_Predecessors req)) eqn:Hk; simpl; rewrite Hb.
  - f_equal. rewrite Hi. unfold uint_add. f_equal. lia.
  - f_equal. rewrite Hi. simpl. apply Z.ltb_ge in Hk.
    unfold len in *. destruct (tr_Predecessors req); [reflexivity|simpl in Hk; lia].
Qed.

End TraceIndex.

Lemma TraceTx_target_config_sample :
  exists json,
    trace_target (Sample.keeper Sample.by_number) Sample.ctx Sample.config
      (Sample.trace_request [1; 2; 3] 4) Sample.world =
    traceTx (Sample.keeper Sample.by_number) Sample.ctx Sample.config
      {| BlockHash := 0; TxHash := 4; TxIndex := 3; LogIndex := 4 |}
      (MakeSigner Sample.config Sample.ctx) 4 None false json
      (snd (replay_predecessors (Sample.keeper Sample.by_number) Sample.config
              (MakeSigner Sample.config Sample.ctx) 0 [1; 2; 3]
              (NewEmptyTxConfig 0) Sample.world)).
Proof.
  apply (TraceTx_target_config (Sample.keeper Sample.by_number) Sample.ctx
           Sample.config (Sample.trace_request [1; 2; 3] 4) Sample.world _
           {| BlockHash := 0; TxHash := 3; TxIndex := 2; LogIndex := 4 |}).
  - repeat constructor; eexists; reflexivity.
  - vm_compute. reflexivity.
Defined.

(** A predecessor that does not convert keeps the index it would have
    had from the next transaction: after [1; -5] the target is traced
    as transaction 1. *)
Lemma TraceTx_target_index_after_failed_conversion_sample :
  trace_target (Sample.keeper Sample.by_number) Sample.ctx Sample.config
    (Sample.trace_request [1; -5] 4) Sample.world =
  traceTx (Sample.keeper Sample.by_number) Sample.ctx Sample.config
    {| BlockHash := 0; TxHash := 4; TxIndex := 1; LogIndex := 1 |}
    (MakeSigner Sample.config Sample.ctx) 4 None false None
    (snd (replay_predecessors (Sample.keeper Sample.by_number) Sample.config
            (MakeSigner Sample.config Sample.ctx) 0 [1; -5]
            (NewEmptyTxConfig 0) Sample.world)).
Proof. vm_compute. reflexivity. Qed.

(** ** Log indices over a block *)

Section BlockLogIndex.

Context {Store MsgEthereumTx Transaction TraceValue : Type}.
Variable k : @Keeper Store MsgEthereumTx Transaction TraceValue.
Variables (c : Context) (cfg : EVMConfig).

Abbreviation in_uint z := (0 <= z < uint64_modulus).

Lemma uint_add_in_uint (a b : Z) : in_uint (uint_add a b).
Proof. unfold uint_add. apply Z.mod_pos_bound. reflexivity. Qed.

Lemma index_after_app (base : Z) (evs1 evs2 : list (Event Transaction)) :
  index_after base (evs1 ++ evs2) = index_after (index_after base evs1) evs2.
Proof. unfold index_after. apply foldl_app. Qed.

Lemma index_after_in_uint (evs : list (Event Transaction)) :
  forall base, in_uint base -> in_uint (index_after base evs).
Proof.
  induction evs as [|ev evs IH]; intros base Hb; [exact Hb|].
  change (in_uint (index_after (index_after base [ev]) evs)).
  apply IH. destruct ev; try exact Hb. apply uint_add_in_uint.
Qed.

Lemma continuous_app (evs1 evs2 : list (Event Transaction)) :
  forall base,
    continuous base evs1 -> continuous (index_after base evs1) evs2 ->
    continuous base (evs1 ++ evs2).
Proof.
  induction evs1 as [|ev evs1 IH]; intros base H1 H2; [exact H2|].
  destruct ev; simpl in *; try (by apply IH).
  destruct H1 as [Hi H1]. split; [exact Hi|]. by apply IH.
Qed.

(** The tracer gives a result after every execution. *)
Hypothesis HGetResult : forall tracer s, exists v, GetResult k tracer s = inr v.

(** One trace: its execution has the log index it was given, and a
    trace without error returns the log index after its execution. *)
Lemma traceTx_continuous (signer : Signer) (txConfig : TxConfig) (tx : Transaction)
    (traceConfig : option TraceConfig) (commitMessage : bool)
    (json : option bytes) (w w' : World Store Transaction) o :
  in_uint (LogIndex txConfig) ->
  traceTx k c cfg txConfig signer tx traceConfig commitMessage json w = (o, w') ->
  exists evs,
    journal w' = journal w ++ evs /\
    continuous (LogIndex txConfig) evs /\
    match o with
    | Returned (_, next, None) => next = index_after (LogIndex txConfig) evs
    | Returned (_, _, Some _) => index_after (LogIndex txConfig) evs = LogIndex txConfig
    | Panicked _ => True
    end.
Proof.
  intros Hrange Hrun. unfold traceTx in Hrun.
  go_cases Hrun; simplify_eq; simpl; rewrite <- ?app_assoc;
    try match goal with
        | H : GetResult k ?t ?s = inl _ |- _ =>
            destruct (HGetResult t s) as [? ?]; congruence
        end;
    (eexists; split; [reflexivity|]); simpl;
    unfold uint_add, len; simpl; rewrite ?Z.add_0_r, ?Z.mod_small by done; done.
Qed.

Lemma trace_block_txs_continuous (signer : Signer) (traceConfig : option TraceConfig)
    (txs : list MsgEthereumTx) :
  forall (i : Z) (txConfig : TxConfig) (results : list (TxTraceResult TraceValue))
         (w w' : World Store Transaction) o,
    in_uint (LogIndex txConfig) ->
    trace_block_txs k c cfg signer traceConfig i txs txConfig results w = (o, w') ->
    exists evs, journal w' = journal w ++ evs /\ continuous (LogIndex txConfig) evs.
Proof.
  induction txs as [|tx rest IH]; intros i txConfig results w w' o Hrange Hrun.
  - inversion Hrun; subst. exists []. by rewrite app_nil_r.
  - cbn [trace_block_txs] in Hrun. unfold bind in Hrun.
    set (txConfig1 := with_Tx txConfig (tx_Hash k (AsTransaction k tx)) i) in *.
    destruct (traceTx k c cfg txConfig1 signer (AsTransaction k tx) traceConfig
                true None w) as [o1 w1] eqn:E1.
    apply traceTx_continuous in E1 as (evs1 & Hj1 & Hc1 & Ho1); [|exact Hrange].
    change (LogIndex txConfig1) with (LogIndex txConfig) in *.
    destruct o1 as [[[v next] [e|]]|p].
    + apply IH in Hrun as (evs2 & Hj2 & Hc2); [|exact Hrange].
      exists (evs1 ++ evs2). rewrite Hj2, Hj1, <- app_assoc. split; [done|].
      apply continuous_app; [done|]. by rewrite Ho1.
    + apply IH in Hrun as (evs2 & Hj2 & Hc2).
      * exists (evs1 ++ evs2). rewrite Hj2, Hj1, <- app_assoc. split; [done|].
        apply continuous_app; [done|]. by rewrite <- Ho1.
      * simpl. rewrite Ho1. by apply index_after_in_uint.
    + inversion Hrun; subst. eauto.
Qed.

(** X7.  When the tracer gives a result after every execution, the
    log indices run through a block trace without a gap: every
    transaction is executed on a log index that is the number of logs of
    the executions before it in the block, whether earlier traces
    failed or not. *)
Theorem trace_block_log_indices_continuous (req : QueryTraceBlockRequest)
    (w : World Store Transaction) :
  exists evs,
    journal (snd (trace_block k c cfg req w)) = journal w ++ evs /\
    continuous 0 evs.
Proof.
  destruct (trace_block k c cfg req w) as [o w'] eqn:Hrun. simpl.
  unfold trace_block in Hrun.
  apply trace_block_txs_continuous in Hrun; [exact Hrun|]. simpl. done.
Qed.

End BlockLogIndex.

Lemma trace_block_log_indices_continuous_sample :
  exists evs,
    journal (snd (trace_block (Sample.keeper Sample.by_number) Sample.ctx Sample.config
                    (Sample.block_request [3; 2; 1; 4]) Sample.world))
    = journal Sample.world ++ evs /\
    continuous 0 evs.
Proof.
  apply (trace_block_log_indices_continuous (Sample.keeper Sample.by_number)).
  intros tracer s. by exists "structLogs".
Defined.

(** The executions of that block got the log indices 0, 3, 3 and 4. *)
Lemma trace_block_log_indices_sample :
  omap (fun ev => match ev with
                  | EvApply _ _ txConfig _ => Some (LogIndex txConfig)
                  | _ => None
                  end)
    (journal (snd (trace_block (Sample.keeper Sample.by_number) Sample.ctx
                     Sample.config (Sample.block_request [3; 2; 1; 4]) Sample.world)))
  = [0; 3; 3; 4].
Proof. vm_compute. reflexivity. Qed.

(** ** The sender of a message *)

Section GetSenderFacts.

Context {Store MsgEthereumTx Transaction TraceValue : Type}.
Variable k : @Keeper Store MsgEthereumTx Transaction TraceValue.
Variable EVMConfigFromCtx : Context -> error + EVMConfig.
Variable tryAspectVerifier : Store -> Transaction -> VerifyOutcome * Store.
Variable Address_String : Address -> string.

(** X8.  [GetSender] creates no aspect context when the EVM
    configuration does not load, and destroys the one it creates on
    every exit path, also when the verifier panics; an error of the
    verifier is returned as it is. *)
Theorem GetSender_destroys_its_context (c : Context) (msg : MsgEthereumTx)
    (w : World Store Transaction) :
  let run := GetSender k EVMConfigFromCtx tryAspectVerifier Address_String c msg w in
  (forall id, id ∈ liveAspects (snd run) -> id ∈ liveAspects w) /\
  (forall err, EVMConfigFromCtx c = inl err ->
     run = (Returned (None, Some err), w)) /\
  (forall cfg err, EVMConfigFromCtx c = inr cfg ->
     fst (tryAspectVerifier (store w) (AsTransaction k msg)) = VerifyErr err ->
     fst run = Returned (None, Some err)).
Proof.
  unfold GetSender. repeat split.
  - intros id. destruct (EVMConfigFromCtx c); [done|].
    unfold bind, defer, WithAspectContext. simpl.
    destruct (tryAspectVerifier (store w) (AsTransaction k msg)) as [[?|?|?] s'];
      simpl; rewrite list_elem_of_filter, elem_of_cons; intros [? [?|?]]; done.
  - by intros err ->.
  - intros cfg err -> Hv. unfold bind, defer, WithAspectContext. simpl.
    destruct (tryAspectVerifier (store w) (AsTransaction k msg)) as [out s'].
    simpl in Hv. by subst out.
Qed.

End GetSenderFacts.

(** ** More on the base fee *)

Section BaseFeeMore.

Variables EventTypeFee AttributeKeyBaseFee : string.
Variable queryBaseFee : Z -> error + QueryBaseFeeResponse.

Lemma ParseInt_int64 (s : string) (v : Z) :
  ParseInt s = Some v -> min_int64 <= v <= max_int64.
Proof.
  unfold ParseInt. destruct (split_sign s) as [neg digits].
  destruct (ParseUint digits) as [un|] eqn:Hun; [|discriminate].
  assert (0 <= un).
  { unfold ParseUint in Hun. destruct digits as [|a rest]; [discriminate|].
    assert (Hacc : forall t acc r, 0 <= acc -> parse_digits t acc = Some r -> 0 <= r).
    { clear. induction t as [|a t IH]; simpl; intros acc r Hacc Hr.
      - by simplify_eq.
      - unfold digit_value in Hr.
        destruct ((48 <=? Z.of_N (N_of_ascii a)) && (Z.of_N (N_of_ascii a) <=? 57))
          eqn:Hd; [|discriminate].
        apply andb_prop in Hd as [Hlo _]. apply Z.leb_le in Hlo.
        eapply IH; [|exact Hr]. lia. }
    eapply Hacc; [|exact Hun]. lia. }
  unfold min_int64, max_int64.
  destruct neg; case_match eqn:Hc; intros [= <-];
    [apply Z.leb_le in Hc|apply Z.ltb_lt in Hc]; lia.
Qed.

Lemma scan_reverse_parsed (events : list abci_Event) (n : nat) (v : Z) :
  scan_reverse EventTypeFee events n = Some v ->
  exists evt, evt ∈ events /\ sets_fee EventTypeFee evt = true /\ parse_fee evt = Some v.
Proof.
  induction n as [|n IH]; [discriminate|]. simpl.
  destruct (events !! n) as [evt|] eqn:Hn; [|discriminate].
  destruct (sets_fee EventTypeFee evt) eqn:Hs; [|exact IH].
  intros Hp. exists evt. split; [|done]. by eapply list_elem_of_lookup_2.
Qed.

(** X9.  [BaseFee] never returns a base fee together with an error,
    and the only error it returns is the error of the query, with a nil
    base fee. *)
Theorem BaseFee_value_or_query_error (blockRes : ResultBlockResults) :
  (forall fee err,
     BaseFee EventTypeFee queryBaseFee blockRes <> (Some fee, Some err)) /\
  (forall err,
     snd (BaseFee EventTypeFee queryBaseFee blockRes) = Some err ->
     queryBaseFee (Height blockRes) = inl err /\
     fst (BaseFee EventTypeFee queryBaseFee blockRes) = None).
Proof.
  unfold BaseFee.
  destruct (queryBaseFee (Height blockRes)) as [e|[[fee|]]]; simpl;
    destruct (scan_reverse EventTypeFee (FinalizeBlockEvents blockRes)
                (length (FinalizeBlockEvents blockRes)));
    simpl; split; intros; simplify_eq; done.
Qed.

(** X10.  A base fee that comes from the events of the block, because
    the query gave none, is a 64-bit signed number. *)
Theorem BaseFee_from_events_fits_int64 (blockRes : ResultBlockResults) (v : Z) :
  (forall fee, queryBaseFee (Height blockRes) <> inr {| res_BaseFee := Some fee |}) ->
  fst (BaseFee EventTypeFee queryBaseFee blockRes) = Some v ->
  min_int64 <= v <= max_int64.
Proof.
  intros Hnone. unfold BaseFee.
  destruct (queryBaseFee (Height blockRes)) as [e|[[fee|]]];
    [| by destruct (Hnone fee) |];
    destruct (scan_reverse EventTypeFee (FinalizeBlockEvents blockRes)
                (length (FinalizeBlockEvents blockRes)))
      as [fee|] eqn:Hscan; simpl; intros [= ->];
    apply scan_reverse_parsed in Hscan as (evt & _ & _ & Hp);
    unfold parse_fee in Hp; destruct (Attributes evt !! 0%nat); try discriminate;
    by apply ParseInt_int64 in Hp.
Qed.

(** X11.  The scan of [BaseFee] is decided by the last event of the
    block that sets the fee: its value is the result when it parses,
    and there is no result when it does not, whatever the events before
    it hold. *)
Theorem scan_reverse_decided_by_last_fee_event
    (before after : list abci_Event) (evt : abci_Event) :
  sets_fee EventTypeFee evt = true ->
  Forall (fun e => sets_fee EventTypeFee e = false) after ->
  scan_reverse EventTypeFee (before ++ evt :: after)
    (length (before ++ evt :: after)) = parse_fee evt.
Proof.
  intros Hevt Hafter. rewrite scan_reverse_forward. unfold scan_forward_last.
  rewrite fold_left_app. simpl. rewrite Hevt.
  generalize (parse_fee evt). clear Hevt.
  induction Hafter as [|e after He _ IH]; intros found; [reflexivity|].
  simpl. rewrite He. apply IH.
Qed.

Lemma BaseFeeFromEvents_skips_others (events more : list abci_Event) :
  Forall (fun e => carries_base_fee EventTypeFee AttributeKeyBaseFee e = false) events ->
  BaseFeeFromEvents EventTypeFee AttributeKeyBaseFee (events ++ more)
  = BaseFeeFromEvents EventTypeFee AttributeKeyBaseFee more.
Proof.
  induction 1 as [|e events He _ IH]; [reflexivity|].
  simpl. unfold carries_base_fee in He.
  destruct (String.eqb (Type_ e) EventTypeFee); simpl in *; [|exact IH].
  destruct (find_base_fee_attr AttributeKeyBaseFee (Attributes e)); [discriminate|exact IH].
Qed.

(** X12.  [BaseFeeFromEvents] is decided by the first event of the fee
    type that has a base-fee attribute: the result is the value of the
    first such attribute of that event, or nil when it is no decimal
    number; no later event is looked at. *)
Theorem BaseFeeFromEvents_decided_by_first_fee_event
    (before after : list abci_Event) (evt : abci_Event) (result : option Z) :
  Forall (fun e => carries_base_fee EventTypeFee AttributeKeyBaseFee e = false) before ->
  Type_ evt = EventTypeFee ->
  find_base_fee_attr AttributeKeyBaseFee (Attributes evt) = Some result ->
  BaseFeeFromEvents EventTypeFee AttributeKeyBaseFee (before ++ evt :: after) = result.
Proof.
  intros Hbefore Htype Hattr. rewrite BaseFeeFromEvents_skips_others by done.
  simpl. by rewrite Htype, String.eqb_refl, Hattr.
Qed.

(** [BaseFeeFromEvents] finds nothing in a block without such an
    event. *)
Lemma BaseFeeFromEvents_none (events : list abci_Event) :
  Forall (fun e => carries_base_fee EventTypeFee AttributeKeyBaseFee e = false) events ->
  BaseFeeFromEvents EventTypeFee AttributeKeyBaseFee events = None.
Proof.
  intros Hall. rewrite <- (app_nil_r events).
  by rewrite BaseFeeFromEvents_skips_others.
Qed.

End BaseFeeMore.

Lemma BaseFee_from_events_fits_int64_sample :
  min_int64 <= -7 <= max_int64.
Proof.
  apply (BaseFee_from_events_fits_int64 "fee" Sample.query_nil
           {| Height := 5;
              FinalizeBlockEvents := [Sample.fee_event "100"; Sample.fee_event "-7"] |}).
  - intros fee. discriminate.
  - reflexivity.
Defined.

Lemma scan_reverse_decided_by_last_fee_event_sample :
  scan_reverse "fee"
    ([Sample.fee_event "100"] ++ Sample.fee_event "1e9" :: [Sample.other_event]) 3
  = None.
Proof.
  apply (scan_reverse_decided_by_last_fee_event "fee" [Sample.fee_event "100"]
           [Sample.other_event] (Sample.fee_event "1e9")).
  - reflexivity.
  - repeat constructor.
Defined.

Lemma BaseFeeFromEvents_decided_by_first_fee_event_sample :
  BaseFeeFromEvents "fee" "base_fee"
    ([Sample.other_event] ++ Sample.fee_event "0x10" :: [Sample.fee_event "200"])
  = None.
Proof.
  apply (BaseFeeFromEvents_decided_by_first_fee_event "fee" "base_fee"
           [Sample.other_event] [Sample.fee_event "200"] (Sample.fee_event "0x10")).
  - repeat constructor.
  - reflexivity.
  - reflexivity.
Defined.

Lemma BaseFeeFromEvents_agrees_on_single_event_sample :
  let events := [Sample.other_event] ++ Sample.fee_event "875000000" :: [Sample.other_event] in
  scan_reverse "fee" events (length events) = Some 875000000 /\
  BaseFeeFromEvents "fee" "base_fee" events = Some 875000000.
Proof.
  apply (BaseFeeFromEvents_agrees_on_single_event "fee" "base_fee"
           [Sample.other_event] [Sample.other_event] (Sample.fee_event "875000000")
           {| Key := "base_fee"; Value := "875000000" |} []).
  - repeat constructor; discriminate.
  - reflexivity.
  - reflexivity.
  - reflexivity.
  - reflexivity.
Defined.

(** ** Registration and dispatch *)

Section RegisterFacts.

Import contract.

Context {AbiValue Services : Type}.
Variable ParseMethod : bytes -> error + (abi_Method * gmap string AbiValue).
Variable ErrCallContract : error.

Lemma lower_ascii_idempotent (a : ascii) : lower_ascii (lower_ascii a) = lower_ascii a.
Proof. destruct a as [[] [] [] [] [] [] [] []]; reflexivity. Qed.

Lemma ToLower_idempotent (s : string) : ToLower (ToLower s) = ToLower s.
Proof.
  induction s as [|a s IH]; [reflexivity|]. simpl.
  by rewrite lower_ascii_idempotent, IH.
Qed.

(** Registration only changes the dispatch of the name it registers. *)
Lemma applyMsg_register_other (c : @AspectNativeContract AbiValue Services)
    (handler : Handler) (ctx : Context) (msg : Message) (gas : Z) (commit : bool) :
  (forall method parameters,
     ParseMethod (Data msg) = inr (method, parameters) ->
     ToLower (method_Name method) <> Method handler) ->
  applyMsg ParseMethod ErrCallContract (register c handler) ctx msg gas commit
  = applyMsg ParseMethod ErrCallContract c ctx msg gas commit.
Proof.
  intros Hother. unfold applyMsg, register. simpl.
  destruct (ParseMethod (Data msg)) as [err|[method parameters]]; [reflexivity|].
  rewrite lookup_insert_ne; [reflexivity|]. intros Heq. by eapply Hother.
Qed.

(** X13.  After a handler was registered, a call whose method name is
    the handler's name up to the case of its letters goes to that
    handler, whatever was registered under the name before. *)
Theorem applyMsg_after_register (c : @AspectNativeContract AbiValue Services)
    (handler : Handler) (ctx : Context) (msg : Message) (gas : Z) (commit : bool)
    (method : abi_Method) (parameters : gmap string AbiValue) :
  ParseMethod (Data msg) = inr (method, parameters) ->
  ToLower (method_Name method) = Method handler ->
  exists handlerCtx : HandlerContext,
    applyMsg ParseMethod ErrCallContract (register c handler) ctx msg gas commit =
    ([ {| inv_handler := Method handler; inv_context := handlerCtx; inv_gas := gas |} ],
     Handle handler handlerCtx gas) /\
    hc_from handlerCtx = From msg /\
    hc_parameters handlerCtx = parameters /\
    hc_services handlerCtx = services c.
Proof.
  intros Hparse Hname. unfold applyMsg. rewrite Hparse, Hname.
  unfold register at 1. simpl. rewrite lookup_insert_eq.
  eexists. split; [reflexivity|]. repeat split.
Qed.

(** X14.  The dispatcher looks handlers up under lower-cased names and
    [register] stores them under their name as it is: a handler whose
    name has an upper-case letter is never called, and registering it
    changes no call. *)
Theorem register_upper_case_name_is_dead (c : @AspectNativeContract AbiValue Services)
    (handler : Handler) (ctx : Context) (msg : Message) (gas : Z) (commit : bool) :
  ToLower (Method handler) <> Method handler ->
  applyMsg ParseMethod ErrCallContract (register c handler) ctx msg gas commit
  = applyMsg ParseMethod ErrCallContract c ctx msg gas commit.
Proof.
  intros Hupper. apply applyMsg_register_other.
  intros method parameters _ Heq. apply Hupper.
  by rewrite <- Heq, ToLower_idempotent.
Qed.

End RegisterFacts.

Lemma applyMsg_after_register_sample :
  exists handlerCtx : contract.HandlerContext,
    contract.applyMsg Sample.parse (errors_New "call contract failed")
      (contract.register Sample.system_contract (Sample.handler "deploy" 7))
      Sample.ctx (Sample.payload Byte.x01) 5000 true
    = ([ {| contract.inv_handler := "deploy"; contract.inv_context := handlerCtx;
            contract.inv_gas := 5000 |} ],
       ([], 4993, None)) /\
    contract.hc_from handlerCtx = 7 /\
    contract.hc_parameters handlerCtx = {[ "code" := 1 ]} /\
    contract.hc_services handlerCtx = tt.
Proof.
  apply (applyMsg_after_register Sample.parse (errors_New "call contract failed")
           Sample.system_contract (Sample.handler "deploy" 7) Sample.ctx
           (Sample.payload Byte.x01) 5000 true
           {| method_Name := "Deploy"; method_ID := [Byte.x01] |}); reflexivity.
Defined.

Lemma register_upper_case_name_is_dead_sample :
  contract.applyMsg Sample.parse (errors_New "call contract failed")
    (contract.register Sample.system_contract (Sample.handler "Destroy" 7))
    Sample.ctx (Sample.payload Byte.x02) 5000 true
  = contract.applyMsg Sample.parse (errors_New "call contract failed")
      Sample.system_contract Sample.ctx (Sample.payload Byte.x02) 5000 true.
Proof.
  apply (register_upper_case_name_is_dead Sample.parse
           (errors_New "call contract failed") Sample.system_contract
           (Sample.handler "Destroy" 7)).
  discriminate.
Defined.

(** ** Blocks and accounts of the backend *)

Section BackendFacts.

Context {ResultBlock BlockResults Block : Type}.
Variable LatestBlockNumber : Z.
Variable block_Height : ResultBlock -> Z.
Variable CosmosBlockByNumber : Z -> option ResultBlock * option error.
Variable CosmosBlockResultByNumber : Z -> error + BlockResults.
Variable BlockFromCosmosBlock : ResultBlock -> BlockResults -> option Block * option error.

Abbreviation block_by_number :=
  (ArtBlockByNumber LatestBlockNumber block_Height CosmosBlockByNumber
     CosmosBlockResultByNumber BlockFromCosmosBlock).

Lemma ArtBlockByNumber_call (calls : nat) (number : Z) :
  block_by_number (S calls) number =
  match CosmosBlockByNumber number with
  | (Some resBlock, None) =>
      match CosmosBlockResultByNumber (block_Height resBlock) with
      | inl _ =>
          if (number =? LatestBlockNumber) && (1 <? block_Height resBlock)
          then block_by_number calls (block_Height resBlock - 1)
          else Some (None,
                     Some (errors_New
                             ("block result not found for height " ++
                              fmt_d (block_Height resBlock))%string))
      | inr blockRes => Some (BlockFromCosmosBlock resBlock blockRes)
      end
  | (_, err) => Some (None, Some (query_block_failed number err))
  end.
Proof. reflexivity. Qed.

(** A call for a number that is not the latest makes no further call. *)
Lemma ArtBlockByNumber_numbered (calls : nat) (number : Z) :
  number <> LatestBlockNumber ->
  exists r, block_by_number (S calls) number = Some r.
Proof.
  intros Hne. rewrite ArtBlockByNumber_call.
  destruct (CosmosBlockByNumber number) as [[resBlock|] [err|]]; try by eauto.
  destruct (CosmosBlockResultByNumber (block_Height resBlock)); [|by eauto].
  apply Z.eqb_neq in Hne as ->. simpl. eauto.
Qed.

Lemma ArtBlockByNumber_more_calls (calls : nat) :
  forall (number : Z) r,
    block_by_number calls number = Some r ->
    block_by_number (S calls) number = Some r.
Proof.
  induction calls as [|calls IH]; intros number r Hr; [discriminate|].
  rewrite ArtBlockByNumber_call in Hr. rewrite ArtBlockByNumber_call.
  destruct (CosmosBlockByNumber number) as [[resBlock|] [err|]]; try done.
  destruct (CosmosBlockResultByNumber (block_Height resBlock)); [|done].
  destruct ((number =? LatestBlockNumber) && (1 <? block_Height resBlock)); [|done].
  by apply IH.
Qed.

(** X15.  [ArtBlockByNumber] ends after at most one call to itself: the
    latest block number is no height, so the call for the block before
    the latest one does not fall back again.  Two nested calls give the
    result, and more give the same. *)
Theorem ArtBlockByNumber_falls_back_once (number : Z) :
  LatestBlockNumber < 1 ->
  exists r, forall calls,
    (2 <= calls)%nat ->
    ArtBlockByNumber LatestBlockNumber block_Height CosmosBlockByNumber
      CosmosBlockResultByNumber BlockFromCosmosBlock calls number = Some r.
Proof.
  intros Hlatest.
  assert (Htwo : exists r, block_by_number 2 number = Some r).
  { rewrite ArtBlockByNumber_call.
    destruct (CosmosBlockByNumber number) as [[resBlock|] [err|]]; try by eauto.
    destruct (CosmosBlockResultByNumber (block_Height resBlock)); [|by eauto].
    destruct (number =? LatestBlockNumber); cbn [andb]; [|by eauto].
    destruct (1 <? block_Height resBlock) eqn:Hh; [|by eauto].
    apply Z.ltb_lt in Hh. apply (ArtBlockByNumber_numbered 0). lia. }
  destruct Htwo as [r Hr]. exists r. intros calls Hcalls.
  induction Hcalls as [|calls _ IH]; [exact Hr|].
  by apply ArtBlockByNumber_more_calls.
Qed.

Context {Info PubKey : Type}.
Variable Keyring_List : error + list Info.
Variable GetPubKey : Info -> error + PubKey.
Variable pubKey_Address : PubKey -> Address.

Lemma Accounts_loop_all (infos : list Info) :
  forall (addresses result : list Address),
    Accounts_loop GetPubKey pubKey_Address infos addresses = Some result <->
    exists pubKeys,
      Forall2 (fun info pubKey => GetPubKey info = inr pubKey) infos pubKeys /\
      result = addresses ++ map pubKey_Address pubKeys.
Proof.
  induction infos as [|info rest IH]; intros addresses result; simpl.
  - split.
    + intros [= <-]. exists []. split; [constructor|]. by rewrite app_nil_r.
    + intros (pubKeys & Hall & ->). inversion Hall. by rewrite app_nil_r.
  - destruct (GetPubKey info) as [err|pubKey] eqn:Hkey.
    + split; [discriminate|]. intros (pubKeys & Hall & _).
      inversion Hall; subst. congruence.
    + rewrite IH. split.
      * intros (pubKeys & Hall & ->). exists (pubKey :: pubKeys).
        split; [by constructor|]. by rewrite <- app_assoc.
      * intros (pubKeys & Hall & ->). inversion Hall as [|? pk ? pks Hk Hrest]; subst.
        exists pks. split; [done|].
        rewrite Hkey in Hk. injection Hk as <-. by rewrite <- app_assoc.
Qed.

(** X16.  [Accounts] returns the addresses of all keys of the keyring,
    in the order of the keyring, when the keyring can be listed and
    every key has a public key, and nil otherwise: one key without a
    public key hides all accounts. *)
Theorem Accounts_all_or_nothing (result : list Address) :
  Accounts Keyring_List GetPubKey pubKey_Address = Some result <->
  exists infos pubKeys,
    Keyring_List = inr infos /\
    Forall2 (fun info pubKey => GetPubKey info = inr pubKey) infos pubKeys /\
    result = map pubKey_Address pubKeys.
Proof.
  unfold Accounts. destruct Keyring_List as [err|infos].
  - split; [discriminate|]. by intros (? & ? & ? & _).
  - rewrite Accounts_loop_all. split.
    + intros (pubKeys & Hall & ->). by exists infos, pubKeys.
    + intros (infos' & pubKeys & [= <-] & Hall & ->). by exists pubKeys.
Qed.

End BackendFacts.

(** The latest block (height 8) has no results yet, block 7 has. *)
Lemma ArtBlockByNumber_falls_back_once_sample :
  exists r, forall calls, (2 <= calls)%nat ->
    ArtBlockByNumber (-2) (fun h : Z => h)
      (fun number => (Some (if number =? -2 then 8 else number), None))
      (fun height => if height =? 8 then inl (errors_New "not found") else inr height)
      (fun resBlock blockRes => (Some (resBlock, blockRes), None))
      calls (-2)
    = Some r.
Proof.
  apply (ArtBlockByNumber_falls_back_once (-2) (fun h : Z => h)). lia.
Defined.

Lemma ArtBlockByNumber_falls_back_sample :
  ArtBlockByNumber (-2) (fun h : Z => h)
    (fun number => (Some (if number =? -2 then 8 else number), None))
    (fun height => if height =? 8 then inl (errors_New "not found") else inr height)
    (fun resBlock blockRes => (Some (resBlock, blockRes), None))
    2 (-2)
  = Some (Some (7, 7), None).
Proof. reflexivity. Qed.

(** ** Ethereum transactions of a raw transaction *)

Section RawTxFacts.

Variable TxDecoder : bytes -> error + list sdk_Msg.
Variable tx_hash_hex : EthereumTx -> string.
Variable ErrJSONUnmarshal : error.

Lemma RawTxToEthTx_loop_all (msgs : list sdk_Msg) :
  forall (ethTxs result : list EthereumTx),
    RawTxToEthTx_loop tx_hash_hex msgs ethTxs = inr result <->
    exists originals,
      msgs = map EthMsg originals /\
      result = ethTxs ++ map (with_Hash tx_hash_hex) originals.
Proof.
  induction msgs as [|[ethTx|typeName] rest IH]; intros ethTxs result; simpl.
  - split.
    + intros [= <-]. exists []. by rewrite app_nil_r.
    + intros (originals & Hm & ->). destruct originals; [|discriminate].
      by rewrite app_nil_r.
  - rewrite IH. split.
    + intros (originals & -> & ->). exists (ethTx :: originals).
      by rewrite <- app_assoc.
    + intros (originals & Hm & ->). destruct originals as [|o originals]; [discriminate|].
      injection Hm as -> ->. exists originals. by rewrite <- app_assoc.
  - split; [discriminate|]. intros (originals & Hm & _).
    destruct originals; discriminate.
Qed.

(** X17.  [RawTxToEthTx] gives the Ethereum transactions of a raw
    transaction when the raw transaction decodes and every message of
    it is an Ethereum transaction: then it returns one transaction per
    message, in order, each with the hash of its transaction filled in.
    A message of another type makes it fail with the type of the first
    such message. *)
Theorem RawTxToEthTx_all_ethereum (txBz : bytes) (msgs : list sdk_Msg) :
  TxDecoder txBz = inr msgs ->
  (forall result,
     RawTxToEthTx TxDecoder tx_hash_hex ErrJSONUnmarshal txBz = inr result <->
     exists originals,
       msgs = map EthMsg originals /\ result = map (with_Hash tx_hash_hex) originals) /\
  (forall originals typeName rest,
     msgs = map EthMsg originals ++ OtherMsg typeName :: rest ->
     RawTxToEthTx TxDecoder tx_hash_hex ErrJSONUnmarshal txBz =
     inl (errors_New ("invalid message type " ++ typeName ++
                      ", expected *types.MsgEthereumTx")%string)).
Proof.
  intros Hdecode. unfold RawTxToEthTx. rewrite Hdecode. split.
  - intros result. by rewrite RawTxToEthTx_loop_all.
  - intros originals typeName rest ->. clear Hdecode. generalize (@nil EthereumTx).
    induction originals as [|o originals IH]; intros ethTxs; [reflexivity|].
    simpl. apply IH.
Qed.

End RawTxFacts.

Lemma RawTxToEthTx_all_ethereum_sample :
  RawTxToEthTx
    (fun _ => inr [EthMsg {| etx_Data := []; etx_Hash := EmptyString; etx_From := "0x07" |};
                   OtherMsg "*types.MsgSend"])
    (fun _ => "0xabc") (errors_New "failed to unmarshal JSON bytes") []
  = inl (errors_New "invalid message type *types.MsgSend, expected *types.MsgEthereumTx").
Proof.
  destruct (RawTxToEthTx_all_ethereum
              (fun _ => inr [EthMsg {| etx_Data := []; etx_Hash := EmptyString;
                                       etx_From := "0x07" |};
                             OtherMsg "*types.MsgSend"])
              (fun _ => "0xabc") (errors_New "failed to unmarshal JSON bytes") []
              _ eq_refl) as [_ Hfail].
  apply (Hfail [ {| etx_Data := []; etx_Hash := EmptyString; etx_From := "0x07" |} ]
           "*types.MsgSend" []).
  reflexivity.
Defined.

(** ** The transaction pool API *)

Section TxPoolFacts.

Context {RPCTransaction ChainConfig : Type}.
Variable PendingTransactions : error + list (list sdk_Msg).
Variable backend_ChainConfig : option ChainConfig.
Variable backend_GetSender : EthereumTx -> ChainConfig -> error + Address.
Variable Address_String : Address -> string.
Variable UnpackTxData_Nonce : EthereumTx -> error + Z.
Variable NewTransactionFromMsg : EthereumTx -> ChainConfig -> RPCTransaction.

Abbreviation add cfg addr :=
  (add_pending backend_GetSender Address_String UnpackTxData_Nonce
     NewTransactionFromMsg cfg addr).
Abbreviation is_listed :=
  (listed backend_GetSender Address_String UnpackTxData_Nonce).
Abbreviation pending_content :=
  (getPendingContent PendingTransactions backend_ChainConfig backend_GetSender
     Address_String UnpackTxData_Nonce NewTransactionFromMsg).

(** Membership in the messages of all transactions. *)
Lemma elem_of_concat {A : Type} (x : A) (ls : list (list A)) :
  x ∈ concat ls <-> exists l, l ∈ ls /\ x ∈ l.
Proof.
  rewrite list_elem_of_In, in_concat. split.
  - intros (l & Hl & Hx). exists l. by rewrite !list_elem_of_In.
  - intros (l & Hl & Hx). exists l. by rewrite <- !list_elem_of_In.
Qed.

(** The nested loops are one loop over all messages. *)
Lemma foldl_concat {A B : Type} (f : A -> B -> A) (ls : list (list B)) :
  forall a, foldl (fun a l => foldl f a l) a ls = foldl f a (concat ls).
Proof.
  induction ls as [|l ls IH]; intros a; [reflexivity|].
  simpl. by rewrite IH, foldl_app.
Qed.

(** What one message adds: nothing, or one entry under its sender and
    nonce. *)
Lemma add_pending_cases (cfg : ChainConfig) (addr : Address)
    (content : gmap string (gmap string RPCTransaction)) (msg : sdk_Msg) :
  add cfg addr content msg = content \/
  exists ethMsg account nonce,
    msg = EthMsg ethMsg /\ is_listed cfg addr ethMsg account nonce /\
    add cfg addr content msg =
    <[account := <[nonce := NewTransactionFromMsg ethMsg cfg]>
                   (default ∅ (content !! account))]> content.
Proof.
  destruct msg as [ethMsg|typeName]; [|by left]. simpl.
  destruct (backend_GetSender ethMsg cfg) as [|sender] eqn:Hs; [by left|].
  destruct (negb (addr =? 0) && negb (addr =? sender)) eqn:Hf; [by left|].
  destruct (UnpackTxData_Nonce ethMsg) as [|n] eqn:Hn; [by left|].
  right. exists ethMsg, (Address_String sender), (fmt_d n).
  split; [done|]. split; [|done]. exists sender, n. repeat split; try done.
  apply andb_false_iff in Hf as [Hf|Hf]; apply negb_false_iff, Z.eqb_eq in Hf; auto.
Qed.

Lemma add_pending_listed (cfg : ChainConfig) (addr : Address)
    (content : gmap string (gmap string RPCTransaction)) (ethMsg : EthereumTx)
    (account nonce : string) :
  is_listed cfg addr ethMsg account nonce ->
  add cfg addr content (EthMsg ethMsg) =
  <[account := <[nonce := NewTransactionFromMsg ethMsg cfg]>
                 (default ∅ (content !! account))]> content.
Proof.
  intros (sender & n & Hs & Hf & Hn & -> & ->). simpl. rewrite Hs, Hn.
  replace (negb (addr =? 0) && negb (addr =? sender)) with false; [done|].
  symmetry. apply andb_false_iff.
  destruct Hf as [->| ->]; [left|right]; by rewrite Z.eqb_refl.
Qed.

(** Every entry after the loop was there before or comes from a
    message of the loop. *)
Lemma foldl_add_pending_sound (cfg : ChainConfig) (addr : Address)
    (msgs : list sdk_Msg) :
  forall (content : gmap string (gmap string RPCTransaction))
         (account nonce : string) (txs : gmap string RPCTransaction)
         (rpctx : RPCTransaction),
    foldl (add cfg addr) content msgs !! account = Some txs ->
    txs !! nonce = Some rpctx ->
    (exists txs0, content !! account = Some txs0 /\ txs0 !! nonce = Some rpctx) \/
    (exists ethMsg, EthMsg ethMsg ∈ msgs /\ is_listed cfg addr ethMsg account nonce /\
                    rpctx = NewTransactionFromMsg ethMsg cfg).
Proof.
  induction msgs as [|msg msgs IH]; intros content account nonce txs rpctx Ha Hn.
  - left. eauto.
  - simpl in Ha. destruct (IH _ _ _ _ _ Ha Hn) as [(txs0 & Ha0 & Hn0)|(e & He & Hl & Hr)].
    + destruct (add_pending_cases cfg addr content msg)
        as [Hsame|(ethMsg & account' & nonce' & -> & Hl & Hadd)].
      * left. rewrite Hsame in Ha0. eauto.
      * rewrite Hadd in Ha0. destruct (decide (account' = account)) as [->|Hne].
        -- rewrite lookup_insert_eq in Ha0. injection Ha0 as <-.
           destruct (decide (nonce' = nonce)) as [->|Hnn].
           ++ rewrite lookup_insert_eq in Hn0. injection Hn0 as <-.
              right. exists ethMsg. split; [apply list_elem_of_here|done].
           ++ rewrite lookup_insert_ne in Hn0 by done. left.
              destruct (content !! account) as [txs1|]; [by eauto|].
              simpl in Hn0. by rewrite lookup_empty in Hn0.
        -- rewrite lookup_insert_ne in Ha0 by done. left. eauto.
    + right. exists e. split; [by apply list_elem_of_further|done].
Qed.

(** An entry stays under its account and nonce, whatever comes later. *)
Lemma foldl_add_pending_keeps (cfg : ChainConfig) (addr : Address)
    (msgs : list sdk_Msg) :
  forall (content : gmap string (gmap string RPCTransaction))
         (account nonce : string),
    (exists txs, content !! account = Some txs /\ is_Some (txs !! nonce)) ->
    exists txs, foldl (add cfg addr) content msgs !! account = Some txs /\
                is_Some (txs !! nonce).
Proof.
  induction msgs as [|msg msgs IH]; intros content account nonce Hin; [exact Hin|].
  simpl. apply IH. destruct Hin as (txs & Ha & Hn).
  destruct (add_pending_cases cfg addr content msg)
    as [->|(ethMsg & account' & nonce' & -> & Hl & ->)]; [by eauto|].
  destruct (decide (account' = account)) as [->|Hne].
  - rewrite lookup_insert_eq, Ha. simpl. eexists. split; [reflexivity|].
    destruct (decide (nonce' = nonce)) as [->|Hnn].
    + rewrite lookup_insert_eq. eauto.
    + by rewrite lookup_insert_ne.
  - rewrite lookup_insert_ne by done. eauto.
Qed.

Lemma foldl_add_pending_complete (cfg : ChainConfig) (addr : Address)
    (msgs : list sdk_Msg) :
  forall (content : gmap string (gmap string RPCTransaction))
         (ethMsg : EthereumTx) (account nonce : string),
    EthMsg ethMsg ∈ msgs ->
    is_listed cfg addr ethMsg account nonce ->
    exists txs, foldl (add cfg addr) content msgs !! account = Some txs /\
                is_Some (txs !! nonce).
Proof.
  induction msgs as [|msg msgs IH]; intros content ethMsg account nonce Hin Hl.
  - by apply not_elem_of_nil in Hin.
  - simpl. apply elem_of_cons in Hin as [<-|Hin]; [|by eapply IH].
    apply foldl_add_pending_keeps. rewrite (add_pending_listed _ _ _ _ _ _ Hl).
    rewrite lookup_insert_eq. eexists. split; [reflexivity|].
    rewrite lookup_insert_eq. eauto.
Qed.

(** Where an entry of the pending content comes from. *)
Lemma getPendingContent_entry (addr : Address) (account nonce : string)
    (txs : gmap string RPCTransaction) (rpctx : RPCTransaction) :
  pending_content addr !! account = Some txs ->
  txs !! nonce = Some rpctx ->
  exists pendingTxs cfg tx ethMsg,
    PendingTransactions = inr pendingTxs /\
    backend_ChainConfig = Some cfg /\
    tx ∈ pendingTxs /\ EthMsg ethMsg ∈ tx /\
    is_listed cfg addr ethMsg account nonce /\
    rpctx = NewTransactionFromMsg ethMsg cfg.
Proof.
  unfold getPendingContent.
  destruct PendingTransactions as [err|pendingTxs]; [by rewrite lookup_empty|].
  destruct backend_ChainConfig as [cfg|]; [|by rewrite lookup_empty].
  rewrite foldl_concat. intros Ha Hn.
  destruct (foldl_add_pending_sound _ _ _ _ _ _ _ _ Ha Hn)
    as [(txs0 & Ha0 & _)|(ethMsg & Hin & Hl & ->)]; [by rewrite lookup_empty in Ha0|].
  apply elem_of_concat in Hin as (tx & Htx & Hmsg).
  by exists pendingTxs, cfg, tx, ethMsg.
Qed.

(** X18.  Every entry of the pending content comes from a pending
    Ethereum message: it is listed under the sender and the decimal
    nonce of a message whose sender is found and passes the filter and
    whose data unpacks, and it is the transaction made from that
    message. *)
Theorem getPendingContent_sound (addr : Address) (account nonce : string)
    (txs : gmap string RPCTransaction) (rpctx : RPCTransaction) :
  pending_content addr !! account = Some txs ->
  txs !! nonce = Some rpctx ->
  exists pendingTxs cfg tx ethMsg,
    PendingTransactions = inr pendingTxs /\
    backend_ChainConfig = Some cfg /\
    tx ∈ pendingTxs /\ EthMsg ethMsg ∈ tx /\
    is_listed cfg addr ethMsg account nonce /\
    rpctx = NewTransactionFromMsg ethMsg cfg.
Proof. apply getPendingContent_entry. Qed.

(** X19.  Every pending Ethereum message whose sender is found and
    passes the filter and whose data unpacks has an entry in the
    pending content, under its sender and its decimal nonce. *)
Theorem getPendingContent_complete (addr : Address) (pendingTxs : list (list sdk_Msg))
    (cfg : ChainConfig) (tx : list sdk_Msg) (ethMsg : EthereumTx)
    (account nonce : string) :
  PendingTransactions = inr pendingTxs ->
  backend_ChainConfig = Some cfg ->
  tx ∈ pendingTxs -> EthMsg ethMsg ∈ tx ->
  is_listed cfg addr ethMsg account nonce ->
  exists txs, pending_content addr !! account = Some txs /\ is_Some (txs !! nonce).
Proof.
  intros Hp Hc Htx Hmsg Hl. unfold getPendingContent. rewrite Hp, Hc, foldl_concat.
  eapply foldl_add_pending_complete; [|exact Hl].
  apply elem_of_concat. eauto.
Qed.

(** X20.  The content for an address other than the zero address has
    accounts of that address only. *)
Theorem ContentFrom_only_that_address (addr : Address) (account : string) :
  addr <> 0 ->
  is_Some (ContentFrom PendingTransactions backend_ChainConfig backend_GetSender
             Address_String UnpackTxData_Nonce NewTransactionFromMsg addr !! account) ->
  account = Address_String addr.
Proof.
  intros Hne [txs Ha]. unfold ContentFrom in Ha.
  assert (Hentry : exists nonce rpctx, txs !! nonce = Some rpctx).
  { unfold getPendingContent in Ha.
    destruct PendingTransactions as [err|pendingTxs]; [by rewrite lookup_empty in Ha|].
    destruct backend_ChainConfig as [cfg|]; [|by rewrite lookup_empty in Ha].
    rewrite foldl_concat in Ha. revert Ha.
    assert (Hinv : forall msgs content,
              (forall a t, content !! a = Some t -> exists n r, t !! n = Some r) ->
              forall a t, foldl (add cfg addr) content msgs !! a = Some t ->
                          exists n r, t !! n = Some r).
    { induction msgs as [|msg msgs IH]; intros content Hc; [exact Hc|].
      simpl. apply IH. intros a t.
      destruct (add_pending_cases cfg addr content msg)
        as [->|(ethMsg & account' & nonce' & -> & _ & ->)]; [apply Hc|].
      destruct (decide (account' = a)) as [->|Hna].
      - rewrite lookup_insert_eq. intros [= <-]. eexists _, _. apply lookup_insert_eq.
      - rewrite lookup_insert_ne by done. apply Hc. }
    apply Hinv. intros a t. by rewrite lookup_empty. }
  destruct Hentry as (nonce & rpctx & Hn).
  destruct (getPendingContent_entry addr account nonce txs rpctx Ha Hn)
    as (_ & cfg & _ & ethMsg & _ & _ & _ & _ & Hl & _).
  destruct Hl as (sender & n & _ & [Hz|Hs] & _ & -> & _); congruence.
Qed.

End TxPoolFacts.

Lemma getPendingContent_sound_sample :
  exists pendingTxs cfg tx ethMsg,
    SamplePool.pending = inr pendingTxs /\
    SamplePool.chain_config = Some cfg /\
    tx ∈ pendingTxs /\ EthMsg ethMsg ∈ tx /\
    listed SamplePool.sender_of fmt_d SamplePool.nonce_of cfg 0 ethMsg "8" "2" /\
    "0xb" = SamplePool.listed_as ethMsg cfg.
Proof.
  apply (getPendingContent_sound SamplePool.pending SamplePool.chain_config
           SamplePool.sender_of fmt_d SamplePool.nonce_of SamplePool.listed_as
           0 "8" "2" (default ∅ (SamplePool.content 0 !! "8")) "0xb").
  - vm_compute. reflexivity.
  - vm_compute. reflexivity.
Defined.

Lemma getPendingContent_complete_sample :
  exists txs, SamplePool.content 0 !! "7" = Some txs /\ is_Some (txs !! "1").
Proof.
  apply (getPendingContent_complete SamplePool.pending SamplePool.chain_config
           SamplePool.sender_of fmt_d SamplePool.nonce_of SamplePool.listed_as
           0 _ 11820 [EthMsg SamplePool.tx_a; OtherMsg "*types.MsgSend"]
           SamplePool.tx_a "7" "1" eq_refl eq_refl).
  - apply list_elem_of_here.
  - apply list_elem_of_here.
  - exists 7, 1. repeat split; try reflexivity. by left.
Defined.

Lemma ContentFrom_only_that_address_sample :
  "8" = fmt_d 8.
Proof.
  apply (ContentFrom_only_that_address SamplePool.pending SamplePool.chain_config
           SamplePool.sender_of fmt_d SamplePool.nonce_of SamplePool.listed_as 8 "8").
  - discriminate.
  - vm_compute. eauto.
Defined.

(** The sample pool, as [Content] lists it: the unsigned transaction
    and the bank message are left out. *)
Remark Content_sample :
  Content SamplePool.pending SamplePool.chain_config SamplePool.sender_of fmt_d
    SamplePool.nonce_of SamplePool.listed_as
  = {[ "pending" := ∅;
       "queued" := {[ "7" := {[ "1" := "0xa" ]}; "8" := {[ "2" := "0xb" ]} ]} ]}.
Proof. vm_compute. reflexivity. Qed.

(** ** The profiling handler of the debug API *)

Section DebugFacts.

Context {File OS : Type}.
Variable cpu_profile_flag : string.
Variable user_Current : error + string.
Variable filepath_Clean : string -> string.
Variable os_Create : string -> OS -> (error + File) * OS.
Variable file_Close : File -> OS -> option error * OS.
Variable pprof_StartCPUProfile : File -> OS -> option error * OS.
Variable pprof_StopCPUProfile : OS -> OS.
Variable trace_Start : File -> OS -> option error * OS.
Variable trace_Stop : OS -> OS.

Abbreviation start_cpu_profile :=
  (StartCPUProfile cpu_profile_flag user_Current filepath_Clean os_Create file_Close
     pprof_StartCPUProfile).
Abbreviation stop_cpu_profile :=
  (StopCPUProfile cpu_profile_flag file_Close pprof_StopCPUProfile).
Abbreviation start_go_trace :=
  (StartGoTrace user_Current filepath_Clean os_Create file_Close trace_Start).
Abbreviation stop_go_trace := (StopGoTrace file_Close trace_Stop).
Abbreviation run_debug_calls :=
  (run_calls cpu_profile_flag user_Current filepath_Clean os_Create file_Close
     pprof_StartCPUProfile pprof_StopCPUProfile trace_Start trace_Stop).

Lemma StartCPUProfile_calls (file : string) (d : Debug File OS) :
  let run := start_cpu_profile file d in
  exists held new,
    start_calls pprof_StartCPUProfile_call held new /\
    calls (snd run) = calls d ++ new /\
    (new = [] \/ cpuFile (handler d) = None) /\
    match held with
    | Some f =>
        fst run = None /\ cpuFile (handler d) = None /\
        handler (snd run) = handler (set_cpu (Some f) file d)
    | None => fst run <> None /\ handler (snd run) = handler d
    end.
Proof.
  unfold StartCPUProfile, create, start_cpu, close, set_cpu. cbn zeta.
  destruct (isCPUProfileConfigurationActivated cpu_profile_flag).
  { exists None, []. rewrite app_nil_r. repeat split; first [done | by left | by right | by constructor]. }
  destruct (cpuFile (handler d)) as [f0|] eqn:Hfile.
  { exists None, []. rewrite app_nil_r. repeat split; first [done | by left | by right | by constructor]. }
  destruct (ExpandHome user_Current filepath_Clean file) as [fp [err|]].
  { exists None, []. rewrite app_nil_r. repeat split; first [done | by left | by right | by constructor]. }
  destruct (os_Create fp (os d)) as [[e|f] os1]; cbn.
  { exists None, [os_Create_call fp (inl e)]. repeat split; first [done | by left | by right | by constructor]. }
  destruct (pprof_StartCPUProfile f os1) as [[e|] os2]; cbn.
  - destruct (file_Close f os2) as [r os3] eqn:Hclose; cbn.
    exists None, [os_Create_call fp (inr f); pprof_StartCPUProfile_call f (Some e);
                  Close_call f r].
    destruct r; cbn; rewrite <- ?app_assoc; repeat split; first [done | by left | by right | by constructor].
  - exists (Some f), [os_Create_call fp (inr f); pprof_StartCPUProfile_call f None].
    cbn. rewrite <- ?app_assoc. repeat split; first [done | by left | by right | by constructor].
Qed.

Lemma StartGoTrace_calls (file : string) (d : Debug File OS) :
  let run := start_go_trace file d in
  exists held new,
    start_calls trace_Start_call held new /\
    calls (snd run) = calls d ++ new /\
    (new = [] \/ traceFile (handler d) = None) /\
    match held with
    | Some f =>
        fst run = None /\ traceFile (handler d) = None /\
        handler (snd run) = handler (set_trace (Some f) file d)
    | None => fst run <> None /\ handler (snd run) = handler d
    end.
Proof.
  unfold StartGoTrace, create, start_trace, close, set_trace. cbn zeta.
  destruct (traceFile (handler d)) as [f0|] eqn:Hfile.
  { exists None, []. rewrite app_nil_r. repeat split; first [done | by left | by right | by constructor]. }
  destruct (ExpandHome user_Current filepath_Clean file) as [fp [err|]].
  { exists None, []. rewrite app_nil_r. repeat split; first [done | by left | by right | by constructor]. }
  destruct (os_Create fp (os d)) as [[e|f] os1]; cbn.
  { exists None, [os_Create_call fp (inl e)]. repeat split; first [done | by left | by right | by constructor]. }
  destruct (trace_Start f os1) as [[e|] os2]; cbn.
  - destruct (file_Close f os2) as [r os3] eqn:Hclose; cbn.
    exists None, [os_Create_call fp (inr f); trace_Start_call f (Some e); Close_call f r].
    destruct r; cbn; rewrite <- ?app_assoc; repeat split; first [done | by left | by right | by constructor].
  - exists (Some f), [os_Create_call fp (inr f); trace_Start_call f None].
    cbn. rewrite <- ?app_assoc. repeat split; first [done | by left | by right | by constructor].
Qed.

(** What a stop adds to the calls, and what it leaves in the
    handler. *)
Lemma StopCPUProfile_calls (d : Debug File OS) :
  let run := stop_cpu_profile d in
  (calls (snd run) = calls d /\ handler (snd run) = handler d /\ fst run <> None) \/
  exists f r,
    cpuFile (handler d) = Some f /\
    calls (snd run) = calls d ++ [pprof_StopCPUProfile_call; Close_call f r] /\
    match r with
    | None => fst run = None /\ handler (snd run) = handler (set_cpu None EmptyString d)
    | Some e =>
        fst run = Some (errors_Wrap e "failed to close cpu file") /\
        handler (snd run) = handler d
    end.
Proof.
  unfold StopCPUProfile, close, stop_cpu, set_cpu. cbn zeta.
  destruct (isCPUProfileConfigurationActivated cpu_profile_flag); [by left|].
  destruct (cpuFile (handler d)) as [f|] eqn:Hfile; [|by left]. cbn.
  destruct (file_Close f _) as [r os2]. right. exists f, r.
  destruct r; cbn; rewrite <- ?app_assoc; done.
Qed.

Lemma StopGoTrace_calls (d : Debug File OS) :
  let run := stop_go_trace d in
  (calls (snd run) = calls d ++ [trace_Stop_call] /\ handler (snd run) = handler d /\
   fst run <> None) \/
  exists f r,
    traceFile (handler d) = Some f /\
    calls (snd run) = calls d ++ [trace_Stop_call; Close_call f r] /\
    match r with
    | None => fst run = None /\ handler (snd run) = handler (set_trace None EmptyString d)
    | Some e =>
        fst run = Some (errors_Wrap e "failed to close trace file") /\
        handler (snd run) = handler d
    end.
Proof.
  unfold StopGoTrace, close, stop_trace, set_trace. cbn zeta. cbn [handler].
  destruct (traceFile (handler d)) as [f|] eqn:Hfile; [|by left]. cbn.
  destruct (file_Close f _) as [r os2]. right. exists f, r.
  destruct r; cbn; rewrite <- ?app_assoc; done.
Qed.

End DebugFacts.

Lemma cpu_bracketed_app {File : Type} (l l' : list (OsCall File)) :
  forall b, cpu_bracketed b l -> cpu_bracketed (cpu_running b l) l' ->
            cpu_bracketed b (l ++ l').
Proof.
  induction l as [|c l IH]; intros b Hl Hl'; [exact Hl'|].
  destruct c; simpl in *; try (by apply IH).
  destruct Hl as [Hb Hl]. split; [exact Hb|]. by apply IH.
Qed.

Lemma trace_bracketed_app {File : Type} (l l' : list (OsCall File)) :
  forall b, trace_bracketed b l -> trace_bracketed (trace_running b l) l' ->
            trace_bracketed b (l ++ l').
Proof.
  induction l as [|c l IH]; intros b Hl Hl'; [exact Hl'|].
  destruct c; simpl in *; try (by apply IH).
  destruct Hl as [Hb Hl]. split; [exact Hb|]. by apply IH.
Qed.

(** One step of the invariant: the new calls are in step with what was
    running, and leave nothing running that the handler does not hold. *)
Lemma profilers_in_step_calls {File OS : Type} (d d' : Debug File OS)
    (new : list (OsCall File)) :
  profilers_in_step d ->
  calls d' = calls d ++ new ->
  cpu_bracketed (cpu_running false (calls d)) new ->
  trace_bracketed (trace_running false (calls d)) new ->
  (cpuFile (handler d') = None ->
   cpu_running (cpu_running false (calls d)) new = false) ->
  (traceFile (handler d') = None ->
   trace_running (trace_running false (calls d)) new = false) ->
  profilers_in_step d'.
Proof.
  intros (Hc & Hcr & Ht & Htr) Hcalls Hnc Hnt Hcr' Htr'. unfold profilers_in_step.
  rewrite Hcalls. unfold cpu_running, trace_running. rewrite !foldl_app.
  repeat split.
  - by apply cpu_bracketed_app.
  - exact Hcr'.
  - by apply trace_bracketed_app.
  - exact Htr'.
Qed.

(** The cases of a step of the invariant. *)
Ltac in_step :=
  simpl;
  repeat match goal with
         | H : _ /\ _ |- _ => destruct H
         | H : _ = [] \/ _ |- _ => destruct H as [H|H]; [try discriminate H|]
         | H : handler _ = _ |- _ => rewrite H; clear H
         end;
  simpl; repeat split; auto; try done.

Section DebugInvariant.

Context {File OS : Type}.
Variable cpu_profile_flag : string.
Variable user_Current : error + string.
Variable filepath_Clean : string -> string.
Variable os_Create : string -> OS -> (error + File) * OS.
Variable file_Close : File -> OS -> option error * OS.
Variable pprof_StartCPUProfile : File -> OS -> option error * OS.
Variable pprof_StopCPUProfile : OS -> OS.
Variable trace_Start : File -> OS -> option error * OS.
Variable trace_Stop : OS -> OS.

Abbreviation start_cpu_profile' :=
  (StartCPUProfile cpu_profile_flag user_Current filepath_Clean os_Create file_Close
     pprof_StartCPUProfile).
Abbreviation stop_cpu_profile' :=
  (StopCPUProfile cpu_profile_flag file_Close pprof_StopCPUProfile).
Abbreviation cpu_profile' :=
  (CpuProfile cpu_profile_flag user_Current filepath_Clean os_Create file_Close
     pprof_StartCPUProfile pprof_StopCPUProfile trace_Start trace_Stop).
Abbreviation start_go_trace' :=
  (StartGoTrace user_Current filepath_Clean os_Create file_Close trace_Start).
Abbreviation stop_go_trace' := (StopGoTrace file_Close trace_Stop).
Abbreviation run_locked' :=
  (run_locked cpu_profile_flag user_Current filepath_Clean os_Create file_Close
     pprof_StartCPUProfile pprof_StopCPUProfile trace_Start trace_Stop).
Abbreviation run_locked_calls' :=
  (run_locked_calls cpu_profile_flag user_Current filepath_Clean os_Create file_Close
     pprof_StartCPUProfile pprof_StopCPUProfile trace_Start trace_Stop).
Abbreviation run_debug_call' :=
  (run_call cpu_profile_flag user_Current filepath_Clean os_Create file_Close
     pprof_StartCPUProfile pprof_StopCPUProfile trace_Start trace_Stop).
Abbreviation run_debug_calls' :=
  (run_calls cpu_profile_flag user_Current filepath_Clean os_Create file_Close
     pprof_StartCPUProfile pprof_StopCPUProfile trace_Start trace_Stop).

Lemma StartCPUProfile_in_step (file : string) (d : Debug File OS) :
  profilers_in_step d -> profilers_in_step (snd (start_cpu_profile' file d)).
Proof.
  intros Hd.
  destruct (StartCPUProfile_calls cpu_profile_flag user_Current filepath_Clean os_Create
              file_Close pprof_StartCPUProfile file d)
    as (held & new & Hnew & Hcalls & Hidle & Hheld).
  pose proof Hd as (_ & Hcr & _ & Htr).
  apply (profilers_in_step_calls d _ new Hd Hcalls); destruct Hnew; in_step.
Qed.

Lemma StartGoTrace_in_step (file : string) (d : Debug File OS) :
  profilers_in_step d -> profilers_in_step (snd (start_go_trace' file d)).
Proof.
  intros Hd.
  destruct (StartGoTrace_calls user_Current filepath_Clean os_Create file_Close
              trace_Start file d)
    as (held & new & Hnew & Hcalls & Hidle & Hheld).
  pose proof Hd as (_ & Hcr & _ & Htr).
  apply (profilers_in_step_calls d _ new Hd Hcalls); destruct Hnew; in_step.
Qed.

Lemma StopCPUProfile_in_step (d : Debug File OS) :
  profilers_in_step d -> profilers_in_step (snd (stop_cpu_profile' d)).
Proof.
  intros Hd. pose proof Hd as (_ & Hcr & _ & Htr).
  destruct (StopCPUProfile_calls cpu_profile_flag file_Close pprof_StopCPUProfile d)
    as [(Hcalls & Hh & _)|(f & r & Hf & Hcalls & Hr)].
  - rewrite <- (app_nil_r (calls d)) in Hcalls.
    apply (profilers_in_step_calls d _ [] Hd Hcalls); in_step.
  - apply (profilers_in_step_calls d _ _ Hd Hcalls); destruct r; in_step.
Qed.

Lemma StopGoTrace_in_step (d : Debug File OS) :
  profilers_in_step d -> profilers_in_step (snd (stop_go_trace' d)).
Proof.
  intros Hd. pose proof Hd as (_ & Hcr & _ & Htr).
  destruct (StopGoTrace_calls file_Close trace_Stop d)
    as [(Hcalls & Hh & _)|(f & r & Hf & Hcalls & Hr)].
  - apply (profilers_in_step_calls d _ _ Hd Hcalls); in_step.
  - apply (profilers_in_step_calls d _ _ Hd Hcalls); destruct r; in_step.
Qed.

Lemma run_locked_in_step (c : LockedCall) (d : Debug File OS) :
  profilers_in_step d -> profilers_in_step (snd (run_locked' c d)).
Proof.
  intros Hd. destruct c as [file| |file| ]; simpl.
  - by apply StartCPUProfile_in_step.
  - by apply StopCPUProfile_in_step.
  - by apply StartGoTrace_in_step.
  - by apply StopGoTrace_in_step.
Qed.

Lemma run_locked_calls_in_step (cs : list LockedCall) :
  forall d : Debug File OS,
    profilers_in_step d -> profilers_in_step (run_locked_calls' cs d).
Proof.
  induction cs as [|c cs IH]; intros d Hd; [exact Hd|].
  simpl. apply IH. by apply run_locked_in_step.
Qed.

Lemma run_call_in_step (c : DebugCall) (d : Debug File OS) :
  profilers_in_step d -> profilers_in_step (snd (run_debug_call' c d)).
Proof.
  intros Hd. destruct c as [file| |file during|file| |file during]; simpl.
  - by apply StartCPUProfile_in_step.
  - by apply StopCPUProfile_in_step.
  - unfold CpuProfile. pose proof (StartCPUProfile_in_step file d Hd) as Hs.
    destruct (start_cpu_profile' file d) as [[err|] d1]; [exact Hs|].
    by apply StopCPUProfile_in_step, run_locked_calls_in_step.
  - by apply StartGoTrace_in_step.
  - by apply StopGoTrace_in_step.
  - unfold GoTrace. pose proof (StartGoTrace_in_step file d Hd) as Hs.
    destruct (start_go_trace' file d) as [[err|] d1]; [exact Hs|].
    by apply StopGoTrace_in_step, run_locked_calls_in_step.
Qed.

(** While nobody stops the CPU profile, the handler keeps its file and
    the name of it, and no call goes to the CPU profiler. *)
Lemma run_locked_calls_keep_cpu (cs : list LockedCall) :
  Forall (fun c => c <> locked_StopCPUProfile) cs ->
  forall (d : Debug File OS) (f : File),
    cpuFile (handler d) = Some f ->
    cpuFile (handler (run_locked_calls' cs d)) = Some f /\
    cpuFilename (handler (run_locked_calls' cs d)) = cpuFilename (handler d) /\
    exists mid, calls (run_locked_calls' cs d) = calls d ++ mid /\ Forall not_pprof mid.
Proof.
  induction 1 as [|c cs Hc _ IH]; intros d f Hf.
  { repeat split; [done|]. exists []. by rewrite app_nil_r. }
  assert (Hstep : cpuFile (handler (snd (run_locked' c d))) = Some f /\
                  cpuFilename (handler (snd (run_locked' c d))) = cpuFilename (handler d) /\
                  exists new, calls (snd (run_locked' c d)) = calls d ++ new /\
                              Forall not_pprof new).
  { destruct c as [file| |file| ]; [| done | |]; simpl.
    - destruct (StartCPUProfile_calls cpu_profile_flag user_Current filepath_Clean
                  os_Create file_Close pprof_StartCPUProfile file d)
        as (held & new & Hnew & Hcalls & Hidle & Hheld).
      destruct held as [g|]; [destruct Hheld as (_ & Hnone & _); congruence|].
      destruct Hheld as [_ Hh]. rewrite Hh. repeat split; [done|].
      destruct Hidle as [->|Hnone]; [|congruence]. by exists [].
    - destruct (StartGoTrace_calls user_Current filepath_Clean os_Create file_Close
                  trace_Start file d)
        as (held & new & Hnew & Hcalls & _ & Hheld).
      assert (Hnp : Forall not_pprof new) by (destruct Hnew; repeat constructor).
      destruct held as [g|].
      + destruct Hheld as (_ & _ & Hh). rewrite Hh. simpl. repeat split; [done|]. eauto.
      + destruct Hheld as [_ Hh]. rewrite Hh. repeat split; [done|]. eauto.
    - destruct (StopGoTrace_calls file_Close trace_Stop d)
        as [(Hcalls & Hh & _)|(g & r & _ & Hcalls & Hr)].
      + rewrite Hh. repeat split; [done|]. eexists. split; [exact Hcalls|].
        repeat constructor.
      + assert (Hh : cpuFile (handler (snd (stop_go_trace' d))) = cpuFile (handler d) /\
                     cpuFilename (handler (snd (stop_go_trace' d)))
                     = cpuFilename (handler d)).
        { destruct r as [e|]; [destruct Hr as [_ ->]|destruct Hr as [_ ->]]; done. }
        destruct Hh as [-> ->]. repeat split; [done|]. eexists. split; [exact Hcalls|].
        repeat constructor. }
  destruct Hstep as (Hf1 & Hname1 & new & Hcalls1 & Hnew).
  destruct (IH _ f Hf1) as (Hf2 & Hname2 & mid & Hcalls2 & Hmid).
  simpl. repeat split; [exact Hf2|congruence|].
  exists (new ++ mid). rewrite Hcalls2, Hcalls1, <- app_assoc. split; [done|].
  by apply Forall_app.
Qed.

Lemma run_calls_in_step (cs : list DebugCall) :
  forall d : Debug File OS,
    profilers_in_step d -> profilers_in_step (run_debug_calls' cs d).
Proof.
  induction cs as [|c cs IH]; intros d Hd; [exact Hd|].
  simpl. apply IH. by apply run_call_in_step.
Qed.

(** X21.  However the six profiling methods of the debug API are
    called, one after the other, from a state in which no call was
    made yet: the CPU profiler and the tracer are started only while
    they are stopped. *)
Theorem profilers_started_only_when_stopped (cs : list DebugCall) (d : Debug File OS) :
  calls d = [] ->
  cpu_bracketed false (calls (run_debug_calls' cs d)) /\
  trace_bracketed false (calls (run_debug_calls' cs d)).
Proof.
  intros Hcalls.
  assert (Hd : profilers_in_step d).
  { unfold profilers_in_step. rewrite Hcalls. done. }
  destruct (run_calls_in_step cs d Hd) as (Hc & _ & Ht & _). by split.
Qed.

(** X22.  [CpuProfile], when the profile starts and no other client
    stops the CPU profile while it sleeps: it has created the file and
    started the profiler, and it stops the profiler and closes that
    file; no other call goes to the profiler in between.  If the file
    closes, the handler holds no CPU profile and an empty file name
    again; if not, the error is returned, the handler keeps the file
    although the profiler is stopped, and every start is refused from
    then on, until the CPU profile is stopped again. *)
Theorem CpuProfile_stops_what_it_started (file : string) (during : list LockedCall)
    (d : Debug File OS) :
  fst (start_cpu_profile' file d) = None ->
  Forall (fun c => c <> locked_StopCPUProfile) during ->
  exists fp f r mid,
    calls (snd (cpu_profile' file during d)) =
    calls d ++ [os_Create_call fp (inr f); pprof_StartCPUProfile_call f None]
      ++ mid ++ [pprof_StopCPUProfile_call; Close_call f r] /\
    Forall not_pprof mid /\
    match r with
    | None =>
        fst (cpu_profile' file during d) = None /\
        cpuFile (handler (snd (cpu_profile' file during d))) = None /\
        cpuFilename (handler (snd (cpu_profile' file during d))) = EmptyString
    | Some e =>
        fst (cpu_profile' file during d)
        = Some (errors_Wrap e "failed to close cpu file") /\
        cpuFile (handler (snd (cpu_profile' file during d))) = Some f /\
        forall (later : list LockedCall) (file' : string),
          Forall (fun c => c <> locked_StopCPUProfile) later ->
          fst (start_cpu_profile' file'
                 (run_locked_calls' later (snd (cpu_profile' file during d)))) =
          Some (errors_New "CPU profiling already in progress")
    end.
Proof.
  intros Hstart Hduring.
  assert (Hflag : isCPUProfileConfigurationActivated cpu_profile_flag = false).
  { unfold StartCPUProfile in Hstart.
    by destruct (isCPUProfileConfigurationActivated cpu_profile_flag). }
  destruct (StartCPUProfile_calls cpu_profile_flag user_Current filepath_Clean os_Create
              file_Close pprof_StartCPUProfile file d)
    as (held & new & Hnew & Hcalls & _ & Hheld).
  unfold CpuProfile.
  destruct (start_cpu_profile' file d) as [[err|] d1]; [discriminate Hstart|].
  simpl in *. destruct Hnew as [| | |fp f]; try (by destruct Hheld).
  destruct Hheld as (_ & _ & Hh). exists fp, f.
  assert (Hfile : cpuFile (handler d1) = Some f) by (by rewrite Hh).
  destruct (run_locked_calls_keep_cpu during Hduring d1 f Hfile)
    as (Hfile2 & _ & mid & Hcalls2 & Hmid).
  set (d2 := run_locked_calls' during d1) in *.
  unfold StopCPUProfile. rewrite Hflag, Hfile2.
  unfold close, stop_cpu. cbn [os handler calls].
  destruct (file_Close f (pprof_StopCPUProfile (os d2))) as [[e|] os2].
  - exists (Some e), mid. cbn. rewrite Hcalls2, Hcalls, <- !app_assoc.
    repeat split; [exact Hmid|by rewrite Hfile2|].
    intros later file' Hlater.
    match goal with
    | |- context [run_locked_calls _ _ _ _ _ _ _ _ _ later ?d3] =>
        destruct (run_locked_calls_keep_cpu later Hlater d3 f Hfile2) as (Hfile3 & _)
    end.
    unfold StartCPUProfile. by rewrite Hflag, Hfile3.
  - exists None, mid. cbn. rewrite Hcalls2, Hcalls, <- !app_assoc.
    repeat split. exact Hmid.
Qed.

(** X23.  A start of the CPU profile that fails leaves the handler as
    it was, and a file created on the way has been closed, or its
    closing tried, before the error is returned. *)
Theorem StartCPUProfile_failure_closes_file (file : string) (d : Debug File OS)
    (err : error) :
  fst (start_cpu_profile' file d) = Some err ->
  handler (snd (start_cpu_profile' file d)) = handler d /\
  exists new,
    calls (snd (start_cpu_profile' file d)) = calls d ++ new /\
    start_calls pprof_StartCPUProfile_call None new.
Proof.
  intros Hstart.
  destruct (StartCPUProfile_calls cpu_profile_flag user_Current filepath_Clean os_Create
              file_Close pprof_StartCPUProfile file d)
    as (held & new & Hnew & Hcalls & _ & Hheld).
  destruct held as [f|].
  - destruct Hheld as [Hnone _]. congruence.
  - destruct Hheld as [_ Hh]. split; [exact Hh|]. by exists new.
Qed.

(** X24.  A start of the Go trace that fails leaves the handler as it
    was, and a file created on the way has been closed, or its closing
    tried, before the error is returned. *)
Theorem StartGoTrace_failure_closes_file (file : string) (d : Debug File OS)
    (err : error) :
  fst (start_go_trace' file d) = Some err ->
  handler (snd (start_go_trace' file d)) = handler d /\
  exists new,
    calls (snd (start_go_trace' file d)) = calls d ++ new /\
    start_calls trace_Start_call None new.
Proof.
  intros Hstart.
  destruct (StartGoTrace_calls user_Current filepath_Clean os_Create file_Close
              trace_Start file d)
    as (held & new & Hnew & Hcalls & _ & Hheld).
  destruct held as [f|].
  - destruct Hheld as [Hnone _]. congruence.
  - destruct Hheld as [_ Hh]. split; [exact Hh|]. by exists new.
Qed.

End DebugInvariant.

Lemma profilers_started_only_when_stopped_sample :
  let cs := [call_StartCPUProfile "~/cpu.prof"; call_StartCPUProfile "again.prof";
             call_GoTrace "/" []; call_StopCPUProfile;
             call_CpuProfile "cpu.prof"
               [locked_StopCPUProfile; locked_StartCPUProfile "other.prof";
                locked_StartGoTrace "other.out"];
             call_StopGoTrace;
             call_GoTrace "trace.out" [locked_StopGoTrace; locked_StopCPUProfile]] in
  let d := run_calls EmptyString (inr "/home/node") (fun p => p) SampleDebug.os_Create
             SampleDebug.file_Close SampleDebug.pprof_StartCPUProfile
             SampleDebug.pprof_StopCPUProfile SampleDebug.trace_Start
             SampleDebug.trace_Stop cs SampleDebug.idle in
  cpu_bracketed false (calls d) /\ trace_bracketed false (calls d).
Proof.
  intros cs d.
  apply (profilers_started_only_when_stopped EmptyString (inr "/home/node") (fun p => p)
           SampleDebug.os_Create SampleDebug.file_Close SampleDebug.pprof_StartCPUProfile
           SampleDebug.pprof_StopCPUProfile SampleDebug.trace_Start SampleDebug.trace_Stop
           cs SampleDebug.idle).
  reflexivity.
Defined.

Lemma CpuProfile_stops_what_it_started_sample :
  let during := [locked_StartCPUProfile "other.prof"; locked_StartGoTrace "other.out"] in
  let run := CpuProfile EmptyString (inr "/home/node") (fun p => p) SampleDebug.os_Create
               SampleDebug.file_Close SampleDebug.pprof_StartCPUProfile
               SampleDebug.pprof_StopCPUProfile SampleDebug.trace_Start
               SampleDebug.trace_Stop "~/cpu.prof" during SampleDebug.idle in
  exists fp f r mid,
    calls (snd run) =
    calls SampleDebug.idle ++
      [os_Create_call fp (inr f); pprof_StartCPUProfile_call f None]
      ++ mid ++ [pprof_StopCPUProfile_call; Close_call f r] /\
    Forall not_pprof mid /\
    match r with
    | None =>
        fst run = None /\
        cpuFile (handler (snd run)) = None /\
        cpuFilename (handler (snd run)) = EmptyString
    | Some e =>
        fst run = Some (errors_Wrap e "failed to close cpu file") /\
        cpuFile (handler (snd run)) = Some f /\
        forall (later : list LockedCall) (file' : string),
          Forall (fun c => c <> locked_StopCPUProfile) later ->
          fst (StartCPUProfile EmptyString (inr "/home/node") (fun p => p)
                 SampleDebug.os_Create SampleDebug.file_Close
                 SampleDebug.pprof_StartCPUProfile file'
                 (run_locked_calls EmptyString (inr "/home/node") (fun p => p)
                    SampleDebug.os_Create SampleDebug.file_Close
                    SampleDebug.pprof_StartCPUProfile SampleDebug.pprof_StopCPUProfile
                    SampleDebug.trace_Start SampleDebug.trace_Stop later (snd run))) =
          Some (errors_New "CPU profiling already in progress")
    end.
Proof.
  intros during run.
  apply (CpuProfile_stops_what_it_started EmptyString (inr "/home/node") (fun p => p)
           SampleDebug.os_Create SampleDebug.file_Close SampleDebug.pprof_StartCPUProfile
           SampleDebug.pprof_StopCPUProfile SampleDebug.trace_Start SampleDebug.trace_Stop
           "~/cpu.prof" during SampleDebug.idle).
  - reflexivity.
  - repeat (constructor; [discriminate|]). constructor.
Defined.

(** Another client stops the CPU profile while [CpuProfile] sleeps and
    starts one of its own: [CpuProfile] then stops the profile of the
    other client and closes the file of it. *)
Remark CpuProfile_interleaved_sample :
  calls (snd (CpuProfile EmptyString (inr "/home/node") (fun p => p)
                SampleDebug.os_Create SampleDebug.file_Close
                SampleDebug.pprof_StartCPUProfile SampleDebug.pprof_StopCPUProfile
                SampleDebug.trace_Start SampleDebug.trace_Stop "cpu.prof"
                [locked_StopCPUProfile; locked_StartCPUProfile "other.prof"]
                SampleDebug.idle))
  = [os_Create_call "cpu.prof" (inr 0); pprof_StartCPUProfile_call 0 None;
     pprof_StopCPUProfile_call; Close_call 0 None;
     os_Create_call "other.prof" (inr 1); pprof_StartCPUProfile_call 1 None;
     pprof_StopCPUProfile_call; Close_call 1 None].
Proof. reflexivity. Qed.

Lemma StartCPUProfile_failure_closes_file_sample :
  let run := StartCPUProfile EmptyString (inr "/home/node") (fun p => p)
               SampleDebug.os_Create SampleDebug.file_Close
               SampleDebug.pprof_StartCPUProfile "cpu.prof" SampleDebug.busy in
  handler (snd run) = handler SampleDebug.busy /\
  exists new,
    calls (snd run) = calls SampleDebug.busy ++ new /\
    start_calls pprof_StartCPUProfile_call None new.
Proof.
  apply (StartCPUProfile_failure_closes_file EmptyString (inr "/home/node") (fun p => p)
           SampleDebug.os_Create SampleDebug.file_Close SampleDebug.pprof_StartCPUProfile
           "cpu.prof" SampleDebug.busy (errors_New "cpu profiling already in use")).
  reflexivity.
Defined.

Lemma StartGoTrace_failure_closes_file_sample :
  let run := StartGoTrace (inr "/home/node") (fun p => p) SampleDebug.os_Create
               SampleDebug.file_Close SampleDebug.trace_Start "/" SampleDebug.idle in
  handler (snd run) = handler SampleDebug.idle /\
  exists new,
    calls (snd run) = calls SampleDebug.idle ++ new /\
    start_calls trace_Start_call None new.
Proof.
  apply (StartGoTrace_failure_closes_file (inr "/home/node") (fun p => p)
           SampleDebug.os_Create SampleDebug.file_Close SampleDebug.trace_Start
           "/" SampleDebug.idle (errors_New "open /: is a directory")).
  reflexivity.
Defined.

(** The calls of the sample: the second start is refused by the
    handler and makes no call, and the home directory is expanded. *)
Remark debug_calls_sample :
  calls (run_calls EmptyString (inr "/home/node") (fun p => p) SampleDebug.os_Create
           SampleDebug.file_Close SampleDebug.pprof_StartCPUProfile
           SampleDebug.pprof_StopCPUProfile SampleDebug.trace_Start
           SampleDebug.trace_Stop
           [call_StartCPUProfile "~/cpu.prof"; call_StartCPUProfile "again.prof";
            call_StopCPUProfile; call_StopGoTrace]
           SampleDebug.idle)
  = [os_Create_call "/home/node/cpu.prof" (inr 0); pprof_StartCPUProfile_call 0 None;
     pprof_StopCPUProfile_call; Close_call 0 None; trace_Stop_call].
Proof. reflexivity. Qed.

(** ** Compaction of the chain database *)

Section ChaindbCompactFacts.

Context {DB : Type}.
Variable DBCompact : Z -> Z -> DB -> option error * DB.

Lemma compacted_app (bs bs' : list Z) :
  forall db db1 db' : DB,
    compacted DBCompact bs db db1 -> compacted DBCompact bs' db1 db' ->
    compacted DBCompact (bs ++ bs') db db'.
Proof.
  induction bs as [|b bs IH]; intros db db1 db' Hbs Hbs'; simpl in *.
  - by subst.
  - destruct Hbs as (db2 & Hb & Hbs). exists db2. split; [exact Hb|]. by eapply IH.
Qed.

(** The loop from [b], after the ranges below [b] were compacted from
    the database [db0]. *)
Lemma ChaindbCompact_from_ranges (k : nat) :
  forall (rounds : nat) (b : Z) (db0 db : DB) (ranges : list (Z * Z)),
    0 <= b -> b + Z.of_nat k = 255 -> (k < rounds)%nat ->
    compacted DBCompact (seqZ 0 b) db0 db ->
    exists r db' n,
      ChaindbCompact_from DBCompact rounds b db ranges =
      Some (r, db', ranges ++ map (fun b => (b, b + 1)) (seqZ b (n - b))) /\
      b <= n <= 255 /\
      match r with
      | None => n = 255 /\ compacted DBCompact (seqZ 0 255) db0 db'
      | Some err =>
          b < n /\
          exists db1, compacted DBCompact (seqZ 0 (n - 1)) db0 db1 /\
                      DBCompact (n - 1) n db1 = (Some err, db')
      end.
Proof.
  induction k as [|k IH]; intros rounds b db0 db ranges Hb Hk Hrounds Hbelow;
    (destruct rounds as [|rounds]; [lia|]); cbn [ChaindbCompact_from].
  - replace (b <? 255) with false by (symmetry; apply Z.ltb_ge; lia).
    exists None, db, 255. replace (255 - b) with 0 by lia. rewrite app_nil_r.
    split; [reflexivity|]. split; [lia|]. split; [reflexivity|].
    by replace 255 with b by lia.
  - replace (b <? 255) with true by (symmetry; apply Z.ltb_lt; lia).
    assert (Hsucc : byte_succ b = b + 1).
    { unfold byte_succ. apply Z.mod_small. lia. }
    rewrite Hsucc. destruct (DBCompact b (b + 1) db) as [[err|] db'] eqn:Hrun.
    + exists (Some err), db', (b + 1). replace (b + 1 - b) with 1 by lia.
      split; [reflexivity|]. split; [lia|]. split; [lia|]. exists db.
      replace (b + 1 - 1) with b by lia. by split.
    + assert (Hnext : compacted DBCompact (seqZ 0 (b + 1)) db0 db').
      { rewrite seqZ_app by lia. eapply compacted_app; [exact Hbelow|].
        exists db'. by split. }
      destruct (IH rounds (b + 1) db0 db' (ranges ++ [(b, b + 1)]))
        as (r & db'' & n & Hloop & Hn & Hr); [lia|lia|lia|exact Hnext|].
      exists r, db'', n. rewrite Hloop. split.
      * rewrite (seqZ_cons b (n - b)) by lia. cbn [map]. rewrite <- app_assoc.
        by replace (Z.pred (n - b)) with (n - (b + 1)) by lia.
      * split; [lia|]. destruct r as [err|]; [|exact Hr].
        destruct Hr as [Hlt Hr]. split; [lia|exact Hr].
Qed.

(** X25.  [ChaindbCompact] ends, whatever the database does.  It
    compacts the ranges from one byte to the next, from 0x00 upwards
    and in this order, each on the database that the range before it
    left, and stops at the first range that fails: the ranges before
    it were compacted without an error, and its error is returned.
    When no error is returned, all 255 ranges, up to the one from 0xFE
    to 0xFF, were compacted without an error. *)
Theorem ChaindbCompact_ranges (db : DB) :
  exists r db' n,
    ChaindbCompact DBCompact db =
    Some (r, db', map (fun b => (b, b + 1)) (seqZ 0 n)) /\
    0 <= n <= 255 /\
    match r with
    | None => n = 255 /\ compacted DBCompact (seqZ 0 255) db db'
    | Some err =>
        0 < n /\
        exists db1, compacted DBCompact (seqZ 0 (n - 1)) db db1 /\
                    DBCompact (n - 1) n db1 = (Some err, db')
    end.
Proof.
  destruct (ChaindbCompact_from_ranges 255 256 0 db db [])
    as (r & db' & n & Hrun & Hn & Hr); [lia|reflexivity|lia|reflexivity|].
  exists r, db', n. replace (n - 0) with n in Hrun by lia.
  split; [exact Hrun|]. split; [lia|exact Hr].
Qed.

End ChaindbCompactFacts.
